(** * gameplanner: developer scripts and web routes, embedded and verified

    The repository holds a small Flask application ([app/]) and four
    stand-alone developer scripts under [local-data/] that seed, list and
    delete sample data through an HTTP JSON API and through direct DynamoDB
    table scans.

    The embedding follows the Python source function by function.  The
    scripts talk to collaborators that are not part of the repository (the
    REST server behind [requests.Session], DynamoDB behind [boto3], the
    terminal, the clock).  Each such interaction is a [call]; a script is a
    function from the state of the outside world to a result, a new world
    and the list of calls it issued, in program order.  Python exceptions
    are explicit: a computation returns [Ok v] or [Raise e].

    [print] statements are left out: they have no influence on control
    flow, on the calls issued or on the exit status. *)

From Stdlib Require Import ZArith List String Ascii Bool Lia.
From Stdlib Require Import DecimalString.
Import ListNotations.

#[local] Set Warnings "-register-all".

Local Open Scope string_scope.
Local Open Scope Z_scope.

(* ===================================================================== *)
(** ** Python values *)
(* ===================================================================== *)

(** What [response.json()] can yield, and what the scripts build as request
    bodies.  Numbers are integers: none of the scripts computes with a
    fractional number. *)
Inductive json : Type :=
| JNull
| JBool (b : bool)
| JInt (z : Z)
| JStr (s : string)
| JList (l : list json)
| JDict (d : list (string * json)).

(** A Python [dict] with string keys, in insertion order. *)
Definition dict := list (string * json).

(** The exceptions the scripts can meet.  [RequestException] stands for
    [requests.RequestException] and all its subclasses ([ConnectionError],
    [Timeout], [HTTPError], ...); [ClientError] is botocore's;
    [OtherError] is any further subclass of [Exception].  [KeyboardInterrupt]
    and [SystemExit] derive from [BaseException] only. *)
Inductive exn : Type :=
| RequestException
| ClientError
| KeyError
| AttributeError
| TypeError
| ValueError
| OverflowError
| ImportError
| OtherError (name : string)
| KeyboardInterrupt
| SystemExit (code : Z).

Inductive res (A : Type) : Type :=
| Ok (a : A)
| Raise (e : exn).
Arguments Ok {A} a.
Arguments Raise {A} e.

(** Sequencing of computations that may raise: the first exception
    ends the computation. *)
Definition res_bind {A B} (r : res A) (k : A -> res B) : res B :=
  match r with
  | Ok a => k a
  | Raise e => Raise e
  end.

(** [except Exception] *)
Definition is_Exception (e : exn) : bool :=
  match e with
  | KeyboardInterrupt | SystemExit _ => false
  | _ => true
  end.

(** [except requests.RequestException] *)
Definition is_RequestException (e : exn) : bool :=
  match e with RequestException => true | _ => false end.

(** [except ClientError] *)
Definition is_ClientError (e : exn) : bool :=
  match e with ClientError => true | _ => false end.

(** [except KeyboardInterrupt] *)
Definition is_KeyboardInterrupt (e : exn) : bool :=
  match e with KeyboardInterrupt => true | _ => false end.

Module Py.

Fixpoint lookup (k : string) (d : dict) : option json :=
  match d with
  | [] => None
  | (k', v) :: d' => if String.eqb k k' then Some v else lookup k d'
  end.

(** [d[k] = v] on a dict: replaces in place, or appends a new key. *)
Fixpoint set (k : string) (v : json) (d : dict) : dict :=
  match d with
  | [] => [(k, v)]
  | (k', v') :: d' =>
      if String.eqb k k' then (k, v) :: d' else (k', v') :: set k v d'
  end.

(** [del d[k]] for a key that is present. *)
Fixpoint del (k : string) (d : dict) : dict :=
  match d with
  | [] => []
  | (k', v') :: d' =>
      if String.eqb k k' then d' else (k', v') :: del k d'
  end.

(** [x.get(k, dflt)]: only a dict has the method. *)
Definition get (x : json) (k : string) (dflt : json) : res json :=
  match x with
  | JDict d => Ok (match lookup k d with Some v => v | None => dflt end)
  | _ => Raise AttributeError
  end.

(** [x[k]] with a string key. *)
Definition getitem (x : json) (k : string) : res json :=
  match x with
  | JDict d => match lookup k d with Some v => Ok v | None => Raise KeyError end
  | _ => Raise TypeError
  end.

(** Truth value of an object, as tested by [if x:]. *)
Definition truthy (x : json) : bool :=
  match x with
  | JNull => false
  | JBool b => b
  | JInt z => negb (z =? 0)
  | JStr s => negb (String.eqb s "")
  | JList l => match l with [] => false | _ => true end
  | JDict d => match d with [] => false | _ => true end
  end.

(** [x == y].  [True == 1] and [False == 0] hold in Python; lists compare
    element by element, dicts key by key whatever the order. *)
Fixpoint eq (x y : json) {struct x} : bool :=
  match x, y with
  | JNull, JNull => true
  | JBool a, JBool b => Bool.eqb a b
  | JInt a, JInt b => a =? b
  | JBool a, JInt b => (if a then 1 else 0) =? b
  | JInt a, JBool b => a =? (if b then 1 else 0)
  | JStr a, JStr b => String.eqb a b
  | JList a, JList b =>
      (fix eq_list (a b : list json) {struct a} : bool :=
         match a, b with
         | [], [] => true
         | u :: a', v :: b' => eq u v && eq_list a' b'
         | _, _ => false
         end) a b
  | JDict a, JDict b =>
      Nat.eqb (List.length a) (List.length b) &&
      (fix eq_items (a : dict) {struct a} : bool :=
         match a with
         | [] => true
         | (k, u) :: a' =>
             match lookup k b with
             | Some v => eq u v && eq_items a'
             | None => false
             end
         end) a
  | _, _ => false
  end.

Definition chars (s : string) : list json :=
  map (fun c => JStr (String c "")) (list_ascii_of_string s).

(** [for x in v]: the elements a [for] loop visits, or [TypeError] when
    [v] is not iterable.  A dict yields its keys, a string its
    characters. *)
Definition iter (v : json) : res (list json) :=
  match v with
  | JList l => Ok l
  | JDict d => Ok (map (fun kv => JStr (fst kv)) d)
  | JStr s => Ok (chars s)
  | _ => Raise TypeError
  end.

(** [a + b] as the scripts use it: string concatenation. *)
Definition add (a b : json) : res json :=
  match a, b with
  | JStr s, JStr t => Ok (JStr (s ++ t))
  | _, _ => Raise TypeError
  end.

Definition str_of_Z (z : Z) : string := NilZero.string_of_int (Z.to_int z).

(** [str.replace(old, new)] for a non-empty [old]: every non-overlapping
    occurrence, left to right.  [skip] counts the characters of a matched
    occurrence still to be dropped. *)
Fixpoint replace_from (skip : nat) (old new s : string) : string :=
  match s with
  | EmptyString => EmptyString
  | String c s' =>
      match skip with
      | S n => replace_from n old new s'
      | O =>
          if String.prefix old s
          then new ++ replace_from (Nat.pred (String.length old)) old new s'
          else String c (replace_from O old new s')
      end
  end.

Definition replace (old new s : string) : string := replace_from O old new s.

(** A dict whose keys are arbitrary hashable values (ids returned by a
    server, attributes read from a table): [d[k] = v].  An existing equal
    key keeps its place. *)
Fixpoint kset {V : Type} (k : json) (v : V) (d : list (json * V))
  : list (json * V) :=
  match d with
  | [] => [(k, v)]
  | (k', v') :: d' =>
      if eq k k' then (k', v) :: d' else (k', v') :: kset k v d'
  end.

(** Lists and dicts are unhashable: using one as a key is a
    [TypeError]. *)
Definition hashable (k : json) : bool :=
  match k with
  | JList _ | JDict _ => false
  | _ => true
  end.

(** [d.get(k, dflt)] on such a dict. *)
Fixpoint kget {V : Type} (k : json) (dflt : V) (d : list (json * V)) : V :=
  match d with
  | [] => dflt
  | (k', v') :: d' => if eq k k' then v' else kget k dflt d'
  end.

End Py.

(* ===================================================================== *)
(** ** Calendar dates: [datetime.date] and [dateutil.relativedelta] *)
(* ===================================================================== *)

(** The functions below follow CPython's [datetime] module ([_is_leap],
    [_days_before_year], [_days_in_month], [_days_before_month],
    [_ymd2ord], [_ord2ymd], [_check_date_fields], [date.weekday],
    [date.__add__]) and dateutil's [relativedelta.__add__]. *)
Module Date.

Record date : Type := mkdate { year : Z; month : Z; day : Z }.

Definition MINYEAR : Z := 1.
Definition MAXYEAR : Z := 9999.

Definition is_leap (y : Z) : bool :=
  (y mod 4 =? 0) && (negb (y mod 100 =? 0) || (y mod 400 =? 0)).

(** [_DAYS_IN_MONTH] *)
Definition DAYS_IN_MONTH (m : Z) : Z :=
  match m with
  | 1 => 31 | 2 => 28 | 3 => 31 | 4 => 30 | 5 => 31 | 6 => 30
  | 7 => 31 | 8 => 31 | 9 => 30 | 10 => 31 | 11 => 30 | 12 => 31
  | _ => -1
  end.

(** [_DAYS_BEFORE_MONTH] *)
Definition DAYS_BEFORE_MONTH (m : Z) : Z :=
  match m with
  | 1 => 0 | 2 => 31 | 3 => 59 | 4 => 90 | 5 => 120 | 6 => 151
  | 7 => 181 | 8 => 212 | 9 => 243 | 10 => 273 | 11 => 304 | 12 => 334
  | _ => -1
  end.

Definition days_before_year (y : Z) : Z :=
  let y' := y - 1 in y' * 365 + y' / 4 - y' / 100 + y' / 400.

Definition days_in_month (y m : Z) : Z :=
  if (m =? 2) && is_leap y then 29 else DAYS_IN_MONTH m.

Definition days_before_month (y m : Z) : Z :=
  DAYS_BEFORE_MONTH m + (if (2 <? m) && is_leap y then 1 else 0).

Definition ymd2ord (y m d : Z) : Z :=
  days_before_year y + days_before_month y m + d.

Definition DI400Y : Z := 146097.
Definition DI100Y : Z := 36524.
Definition DI4Y : Z := 1461.

(** The last lines of [_ord2ymd]: month and day of the [n]-th day
    (counted from 0) of a year, from an estimate of the month that is
    either exact or one too large. *)
Definition month_day (n : Z) (leapyear : bool) : Z * Z :=
  let m := Z.shiftr (n + 50) 5 in
  let preceding :=
    DAYS_BEFORE_MONTH m + (if (2 <? m) && leapyear then 1 else 0) in
  if n <? preceding then
    let m := m - 1 in
    let preceding :=
      preceding
      - (DAYS_IN_MONTH m + (if (m =? 2) && leapyear then 1 else 0)) in
    (m, n - preceding + 1)
  else (m, n - preceding + 1).

Definition ord2ymd (n : Z) : date :=
  let n := n - 1 in
  let n400 := n / DI400Y in
  let n := n mod DI400Y in
  let y := n400 * 400 + 1 in
  let n100 := n / DI100Y in
  let n := n mod DI100Y in
  let n4 := n / DI4Y in
  let n := n mod DI4Y in
  let n1 := n / 365 in
  let n := n mod 365 in
  let y := y + n100 * 100 + n4 * 4 + n1 in
  if (n1 =? 4) || (n100 =? 4) then mkdate (y - 1) 12 31
  else
    let leapyear := (n1 =? 3) && (negb (n4 =? 24) || (n100 =? 3)) in
    let (m, d) := month_day n leapyear in
    mkdate y m d.

Definition toordinal (d : date) : Z := ymd2ord (year d) (month d) (day d).
Definition fromordinal (n : Z) : date := ord2ymd n.

(** [_MAXORDINAL]: the ordinal of 9999-12-31. *)
Definition MAXORDINAL : Z := ymd2ord MAXYEAR 12 31.

(** A day of the proleptic Gregorian calendar, whatever the year. *)
Definition calendar_day (d : date) : Prop :=
  1 <= month d <= 12 /\ 1 <= day d <= days_in_month (year d) (month d).

(** The dates that [datetime.date] can hold: a calendar day of the years
    1 to 9999. *)
Definition valid (d : date) : Prop :=
  MINYEAR <= year d <= MAXYEAR /\ calendar_day d.

(** [_check_date_fields] *)
Definition check_date_fields (y m d : Z) : bool :=
  (MINYEAR <=? y) && (y <=? MAXYEAR)
  && (1 <=? m) && (m <=? 12)
  && (1 <=? d) && (d <=? days_in_month y m).

(** [date(y, m, d)], which is also what [dt.replace(year=y, month=m,
    day=d)] builds: [ValueError] for fields out of range. *)
Definition make (y m d : Z) : res date :=
  if check_date_fields y m d then Ok (mkdate y m d) else Raise ValueError.

(** The check that [month_day] finds the month and the day of the
    [n]-th day of a year. *)
Definition month_day_ok (leap : bool) (n : Z) : bool :=
  let (m, d) := month_day n leap in
  (1 <=? m) && (m <=? 12) && (1 <=? d)
  && (d <=? (if (m =? 2) && leap then 29 else DAYS_IN_MONTH m))
  && (DAYS_BEFORE_MONTH m + (if (2 <? m) && leap then 1 else 0) + d
      =? n + 1).

(** [date.weekday()]: Monday is 0, Tuesday 1, ..., Sunday 6. *)
Definition weekday (d : date) : Z := (toordinal d + 6) mod 7.

(** [date + timedelta(days=n)]: [OverflowError] when the result leaves
    the years 1 to 9999. *)
Definition add_days (d : date) (n : Z) : res date :=
  let o := toordinal d + n in
  if (0 <? o) && (o <=? MAXORDINAL) then Ok (fromordinal o)
  else Raise OverflowError.

(** [relativedelta(months=.., days=.., weeks=.., day=..)]: the relative
    fields [months] and [days] (weeks are folded into days by the
    constructor) and the absolute field [day]. *)
Record relativedelta : Type :=
  mkrd { rd_months : Z; rd_days : Z; rd_day : option Z }.

Definition rd (months days weeks : Z) (day : option Z) : relativedelta :=
  mkrd months (days + weeks * 7) day.

(** [relativedelta.__neg__] *)
Definition rd_neg (r : relativedelta) : relativedelta :=
  mkrd (- rd_months r) (- rd_days r) (rd_day r).

(** [dt + r], for [1 <= abs(months) <= 12] or [months = 0]: the month
    is moved first, the day is cut down to the length of the month
    reached, [dt.replace] builds that date, and the days are added to
    it. *)
Definition add (dt : date) (r : relativedelta) : res date :=
  let y := year dt in
  let m := month dt in
  let '(y, m) :=
    if rd_months r =? 0 then (y, m)
    else
      let m := m + rd_months r in
      if 12 <? m then (y + 1, m - 12)
      else if m <? 1 then (y - 1, m + 12)
      else (y, m) in
  let want :=
    match rd_day r with
    | Some d => if d =? 0 then day dt else d
    | None => day dt
    end in
  let d := Z.min (days_in_month y m) want in
  res_bind (make y m d) (fun replaced => add_days replaced (rd_days r)).

(** [dt - r] *)
Definition sub (dt : date) (r : relativedelta) : res date :=
  add dt (rd_neg r).

Definition pad (width : nat) (z : Z) : string :=
  let s := Py.str_of_Z z in
  string_of_list_ascii
    (repeat "0"%char (width - String.length s)) ++ s.

(** [d.strftime("%Y-%m-%d")], for years of four digits. *)
Definition strftime_ymd (d : date) : string :=
  pad 4 (year d) ++ "-" ++ pad 2 (month d) ++ "-" ++ pad 2 (day d).

End Date.


(* ===================================================================== *)
(** ** The outside world *)
(* ===================================================================== *)

(** A [requests.Response]: the status code and what [response.json()]
    gives (the decoded body, or the exception raised by decoding). *)
Record response : Type :=
  mkresponse { status_code : Z; json_body : res json }.

(** boto3's [Table.scan] and [Table.get_item] outputs: dicts in which the
    keys ["Items"], ["LastEvaluatedKey"] and ["Item"] may be absent. *)
Record scan_output : Type :=
  mkscan { Items : option (list dict); LastEvaluatedKey : option dict }.

Record get_item_output : Type := mkitem { Item : option dict }.

(** Every interaction of a script with its surroundings. *)
Inductive call : Type :=
| SessionGet (url : string) (timeout : option Z)
| SessionPost (url : string) (body : json)
| SessionDelete (url : string)
| SessionHeadersUpdate (key value : string)
| Input (prompt : string)
| Sleep (milliseconds : Z)
| DateToday
| TableScan (table : string) (filter : option (string * dict))
            (exclusive_start_key : option dict)
| TableGetItem (table : string) (key : dict)
| TableDeleteItem (table : string) (key : dict).

Definition reply (c : call) : Type :=
  match c with
  | SessionGet _ _ | SessionPost _ _ | SessionDelete _ => response
  | SessionHeadersUpdate _ _ => unit
  | Input _ => string
  | Sleep _ => unit
  | DateToday => Date.date
  | TableScan _ _ _ => scan_output
  | TableGetItem _ _ => get_item_output
  | TableDeleteItem _ _ => unit
  end.

(** The surroundings of a script: a state [W] and, for every call, the
    answer (a value or an exception) and the next state.  [py_repr] is
    Python's [repr] on lists and dicts, used when such a value is
    formatted into a string. *)
Class Platform (W : Type) : Type := {
  perform : forall c : call, W -> res (reply c) * W;
  py_repr : json -> string
}.

(* ===================================================================== *)
(** ** Scripts as computations *)
(* ===================================================================== *)

Section Effects.

Context {W : Type}.

(** Result, next world, calls issued (oldest first). *)
Definition M (A : Type) : Type := W -> res A * W * list call.

Definition ret {A} (a : A) : M A := fun w => (Ok a, w, []).

Definition raise {A} (e : exn) : M A := fun w => (Raise e, w, []).

Definition lift {A} (r : res A) : M A := fun w => (r, w, []).

Definition bind {A B} (m : M A) (f : A -> M B) : M B :=
  fun w =>
    match m w with
    | (Ok a, w1, t1) =>
        match f a w1 with
        | (r, w2, t2) => (r, w2, (t1 ++ t2)%list)
        end
    | (Raise e, w1, t1) => (Raise e, w1, t1)
    end.

(** [try: m  except <catches> as e: handler e] *)
Definition try_except {A} (m : M A) (catches : exn -> bool)
           (handler : exn -> M A) : M A :=
  fun w =>
    match m w with
    | (Ok a, w1, t1) => (Ok a, w1, t1)
    | (Raise e, w1, t1) =>
        if catches e then
          match handler e w1 with
          | (r, w2, t2) => (r, w2, (t1 ++ t2)%list)
          end
        else (Raise e, w1, t1)
    end.

Context {P : Platform W}.

Definition do_call (c : call) : M (reply c) :=
  fun w => let (r, w') := perform c w in (r, w', [c]).

(** [str(x)], as in an f-string. *)
Definition py_str (x : json) : string :=
  match x with
  | JNull => "None"
  | JBool true => "True"
  | JBool false => "False"
  | JInt z => Py.str_of_Z z
  | JStr s => s
  | JList _ | JDict _ => py_repr x
  end.

End Effects.

Arguments M W A : clear implicits.

Declare Scope script_scope.
Delimit Scope script_scope with script.
Notation "x <- m ;; k" := (bind m (fun x => k))
  (at level 61, m at next level, right associativity) : script_scope.
Notation "m ;; k" := (bind m (fun _ => k))
  (at level 61, right associativity) : script_scope.
Local Open Scope script_scope.

(** [sys.exit(code)] *)
Definition sys_exit {W A} (code : Z) : M W A := raise (SystemExit code).

(** The exit status of the process when the script's [main] ends with [r]:
    0 on a normal return, the code of an uncaught [SystemExit], 130 for an
    uncaught [KeyboardInterrupt] (the interpreter re-delivers SIGINT) and 1
    for any other uncaught exception (the interpreter prints the
    traceback). *)
Definition exit_status {A} (r : res A) : Z :=
  match r with
  | Ok _ => 0
  | Raise (SystemExit code) => code
  | Raise KeyboardInterrupt => 130
  | Raise _ => 1
  end.

(** [response.raise_for_status()]: [HTTPError], a [RequestException], for
    a 4xx or 5xx status. *)
Definition raise_for_status {W} (r : response) : M W unit :=
  if (400 <=? status_code r) && (status_code r <? 600)
  then raise RequestException
  else ret tt.

(** [response.json()] *)
Definition json_of {W} (r : response) : M W json := lift (json_body r).

(** [try: m  except <c1>: h1  except <c2>: h2]: the first clause that
    matches handles the exception; what a handler raises is not caught by
    the other clause. *)
Definition try_except2 {W A} (m : M W A)
           (c1 : exn -> bool) (h1 : exn -> M W A)
           (c2 : exn -> bool) (h2 : exn -> M W A) : M W A :=
  try_except m (fun e => c1 e || c2 e) (fun e => if c1 e then h1 e else h2 e).

(** [for x in l: body x] *)
Fixpoint for_each {W A} (l : list A) (body : A -> M W unit) : M W unit :=
  match l with
  | [] => ret tt
  | x :: l' => body x ;; for_each l' body
  end.

(** [for x in l: s = body x s], for a loop that updates local variables. *)
Fixpoint for_fold {W A S} (l : list A) (s : S) (body : A -> S -> M W S)
  : M W S :=
  match l with
  | [] => ret s
  | x :: l' => s' <- body x s ;; for_fold l' s' body
  end.

(* ===================================================================== *)
(** ** local-data/populate-dev-data.py *)
(* ===================================================================== *)

Module Populate.

Definition MONKEY_PUZZLE_VENUE : string := "Monkey Puzzle (Farnborough)".
Definition DOUBLE_TREE_VENUE : string := "DoubleTree by Hilton Southampton".

Definition default_api_base_url : string := "http://localhost:3001/api".

Section Client.

Context {W : Type} {P : Platform W}.

(** [self.api_base_url] *)
Variable api_base_url : string.

(** [DataPopulator(api_base_url)]: of the constructor, the call on the
    session it opens. *)
Definition init : M W unit :=
  do_call (SessionHeadersUpdate "Content-Type" "application/json").

Definition check_server : M W bool :=
  try_except
    (response <- do_call (SessionGet
                   (Py.replace "/api" "" api_base_url ++ "/") (Some 5)) ;;
     ret (status_code response =? 200))
    is_RequestException
    (fun _ =>
       try_except
         (response <- do_call (SessionGet
                        (api_base_url ++ "/venues") (Some 5)) ;;
          ret ((status_code response =? 200)
               || (status_code response =? 401)))
         is_RequestException
         (fun _ => ret false)).

Definition signup_data : json :=
  JDict [("email", JStr "test@example.com"); ("name", JStr "Test User")].

Definition login_data : json :=
  JDict [("email", JStr "test@example.com");
         ("password", JStr "password123")].

Definition authenticate : M W bool :=
  try_except
    (signup_response <- do_call (SessionPost
                          (api_base_url ++ "/auth/signup") signup_data) ;;
     login_response <- do_call (SessionPost
                          (api_base_url ++ "/auth/login") login_data) ;;
     if status_code login_response =? 200 then
       data <- json_of login_response ;;
       inner <- lift (Py.get data "data" (JDict [])) ;;
       session_token <- lift (Py.get inner "sessionToken" JNull) ;;
       if Py.truthy session_token then
         do_call (SessionHeadersUpdate "Authorization"
                    ("Bearer " ++ py_str session_token)) ;;
         ret true
       else ret false
     else ret false)
    is_RequestException
    (fun _ => ret false).

(** The three list methods differ in the path only. *)
Definition get_all (path : string) : M W json :=
  try_except
    (response <- do_call (SessionGet (api_base_url ++ path) None) ;;
     raise_for_status response ;;
     data <- json_of response ;;
     lift (Py.get data "data" (JList [])))
    is_RequestException
    (fun _ => ret (JList [])).

Definition get_all_venues : M W json := get_all "/venues".
Definition get_all_events : M W json := get_all "/events".
Definition get_all_rooms : M W json := get_all "/rooms".

(** The loop of [find_venue_by_name]; [JNull] is Python's [None]. *)
Fixpoint find_venue_loop (venues : list json) (venue_name : string)
  : M W json :=
  match venues with
  | [] => ret JNull
  | venue :: rest =>
      name <- lift (Py.get venue "venueName" JNull) ;;
      if Py.eq name (JStr venue_name) then ret venue
      else find_venue_loop rest venue_name
  end.

Definition find_venue_by_name (venue_name : string) : M W json :=
  venues <- get_all_venues ;;
  items <- lift (Py.iter venues) ;;
  find_venue_loop items venue_name.

Definition entity_url (entity_type : string) (entity_id : json) : string :=
  api_base_url ++ "/" ++ entity_type ++ "s/" ++ py_str entity_id.

Definition delete_entity (entity_type : string) (entity_id : json)
  : M W bool :=
  try_except
    (response <- do_call (SessionDelete
                            (entity_url entity_type entity_id)) ;;
     raise_for_status response ;;
     ret true)
    is_RequestException
    (fun _ => ret false).

(** One of the two loops of [cleanup_venue_data]: delete the listed
    entities that reference [venue_id] and carry an id. *)
Definition delete_referencing (entity_type id_key : string)
           (venue_id : json) (entities : list json) : M W unit :=
  for_each entities (fun entity =>
    ref <- lift (Py.get entity "venueId" JNull) ;;
    if Py.eq ref venue_id then
      entity_id <- lift (Py.get entity id_key JNull) ;;
      if Py.truthy entity_id then
        delete_entity entity_type entity_id ;; ret tt
      else ret tt
    else ret tt).

Definition cleanup_venue_data (venue_id : json) (venue_name : string)
  : M W unit :=
  events <- get_all_events ;;
  events <- lift (Py.iter events) ;;
  delete_referencing "event" "eventId" venue_id events ;;
  rooms <- get_all_rooms ;;
  rooms <- lift (Py.iter rooms) ;;
  delete_referencing "room" "roomId" venue_id rooms ;;
  delete_entity "venue" venue_id ;;
  do_call (Sleep 500) ;;
  ret tt.

(** The three create methods post the record and read the new id from
    the answer.  Each formats the name of the record into the line it
    prints on every exit: [create_venue] reads it with
    [venue_data['name']], the other two with [.get("name", ...)]. *)
Definition create_venue (venue_data : json) : M W json :=
  try_except
    (response <- do_call (SessionPost (api_base_url ++ "/venues")
                   venue_data) ;;
     raise_for_status response ;;
     result <- json_of response ;;
     inner <- lift (Py.get result "data" (JDict [])) ;;
     venue_id <- lift (Py.get inner "venueId" JNull) ;;
     if Py.truthy venue_id then
       name <- lift (Py.getitem venue_data "name") ;;
       ret venue_id
     else
       name <- lift (Py.getitem venue_data "name") ;;
       ret JNull)
    is_RequestException
    (fun _ =>
       name <- lift (Py.getitem venue_data "name") ;;
       ret JNull).

Definition create_room (room_data : json) : M W json :=
  try_except
    (response <- do_call (SessionPost (api_base_url ++ "/rooms")
                   room_data) ;;
     raise_for_status response ;;
     result <- json_of response ;;
     inner <- lift (Py.get result "data" (JDict [])) ;;
     room_id <- lift (Py.get inner "roomId" JNull) ;;
     room_name <- lift (Py.get room_data "name" (JStr "Unknown Room")) ;;
     if Py.truthy room_id then ret room_id else ret JNull)
    is_RequestException
    (fun _ =>
       room_name <- lift (Py.get room_data "name" (JStr "Unknown Room")) ;;
       ret JNull).

Definition create_event (event_data : json) : M W json :=
  try_except
    (response <- do_call (SessionPost (api_base_url ++ "/events")
                   event_data) ;;
     raise_for_status response ;;
     result <- json_of response ;;
     inner <- lift (Py.get result "data" (JDict [])) ;;
     event_id <- lift (Py.get inner "eventId" JNull) ;;
     event_name <- lift (Py.get event_data "name" (JStr "Unknown Event")) ;;
     if Py.truthy event_id then ret event_id else ret JNull)
    is_RequestException
    (fun _ =>
       event_name <- lift (Py.get event_data "name"
                             (JStr "Unknown Event")) ;;
       ret JNull).

Definition assign_room_to_event (event_id room_id event_data : json)
  : M W bool :=
  try_except
    (event_date <- lift (Py.getitem event_data "eventDate") ;;
     a1 <- lift (Py.add event_date (JStr "T")) ;;
     start_time <- lift (Py.getitem event_data "startTime") ;;
     a2 <- lift (Py.add a1 start_time) ;;
     available_from <- lift (Py.add a2 (JStr ":00")) ;;
     end_date <- lift (Py.getitem event_data "endDate") ;;
     b1 <- lift (Py.add end_date (JStr "T")) ;;
     end_time <- lift (Py.getitem event_data "endTime") ;;
     b2 <- lift (Py.add b1 end_time) ;;
     available_to <- lift (Py.add b2 (JStr ":00")) ;;
     response <- do_call (SessionPost (api_base_url ++ "/event-rooms")
                   (JDict [("eventId", event_id);
                           ("roomId", room_id);
                           ("availableFrom", available_from);
                           ("availableTo", available_to)])) ;;
     raise_for_status response ;;
     ret true)
    is_RequestException
    (fun _ => ret false).

End Client.

(** *** The catalog of [populate_data] *)

Definition venues_data : list dict :=
  [ [("name", JStr MONKEY_PUZZLE_VENUE);
     ("description", JStr "Laid-back family pub/restaurant chain serving classic dishes & international favourites.");
     ("address", JStr "101 Ively Rd, Cove, Farnborough GU14 0LE");
     ("contactPhone", JStr "+44 1252 546654");
     ("contactEmail", JStr "");
     ("websiteURL", JStr "https://www.brewersfayre.co.uk/en-gb/locations/hampshire/monkey-puzzle?cid=GLBC_location41015125");
     ("capacity", JInt 30);
     ("mapLink", JStr "https://maps.app.goo.gl/jxwgd532cFiAmDRJ7")];
    [("name", JStr DOUBLE_TREE_VENUE);
     ("description", JStr "Set in wooded gardens off the M27 motorway, this informal hotel is 3 miles from Southampton International Airport and 5 miles from Southampton Docks.");
     ("address", JStr "Bracken Pl, Chilworth, Southampton SO16 3RB");
     ("contactPhone", JStr "+44 2380 702700");
     ("contactEmail", JStr "");
     ("websiteURL", JStr "https://www.hilton.com/en/hotels/souhndi-doubletree-southampton/?SEO_id=GMB-EMEA-DI-SOUHNDI");
     ("capacity", JInt 200);
     ("mapLink", JStr "https://maps.app.goo.gl/fXmwzS9bBSHBD7MU6")] ].

Definition room (name : string) (capacity : Z) (description : string)
  : dict :=
  [("roomName", JStr name); ("capacity", JInt capacity);
   ("description", JStr description)].

Definition rooms_data : list (string * list dict) :=
  [ (MONKEY_PUZZLE_VENUE,
     [ room "Main Area" 30 "Large open area with tables and chairs";
       room "Back Room" 15 "Smaller private area at the back" ]);
    (DOUBLE_TREE_VENUE,
     [ room "Chilworth Suite" 30 "Spacious conference suite with modern amenities";
       room "Garden Suite" 30 "Bright suite overlooking the gardens";
       room "Adams Suite" 30 "Executive suite with premium facilities";
       room "Austen Suite" 30 "Classic suite with traditional decor";
       room "Hardy Suite" 30 "Contemporary suite with modern technology";
       room "The Boardroom" 20 "Intimate meeting space for smaller groups";
       room "Frome Suite" 12 "Compact suite perfect for focused discussions" ]) ].

(** *** The dates computed from today's date *)

(** The local variables of [populate_data] that hold a date. *)
Record seed_dates : Type := mkdates {
  past_date_1 : Date.date;
  past_date_2 : Date.date;
  future_date_1 : Date.date;
  future_date_2 : Date.date;
  next_month : Date.date;
  first_tuesday : Date.date;
  future_next_month_2nd_tuesday : Date.date;
  future_next_month_4th_tuesday : Date.date
}.

(** The block "Calculate dynamic dates", statement by statement. *)
Definition dates (today : Date.date) : res seed_dates :=
  res_bind (Date.sub today (Date.rd 2 0 0 None)) (fun past_date_1 =>
  res_bind (Date.sub today (Date.rd 4 0 0 None)) (fun past_date_2 =>
  res_bind (Date.add today (Date.rd 3 0 0 None)) (fun future_date_1 =>
  res_bind (Date.add today (Date.rd 4 0 0 None)) (fun future_date_2 =>
  res_bind (Date.add today (Date.rd 1 0 0 (Some 1))) (fun next_month =>
  res_bind (Date.add next_month
              (Date.rd 0 ((1 - Date.weekday next_month) mod 7) 0 None))
           (fun first_tuesday =>
  res_bind (Date.add first_tuesday (Date.rd 0 0 1 None))
           (fun future_next_month_2nd_tuesday =>
  res_bind (Date.add first_tuesday (Date.rd 0 0 3 None))
           (fun future_next_month_4th_tuesday =>
  Ok (mkdates past_date_1 past_date_2 future_date_1 future_date_2
              next_month first_tuesday
              future_next_month_2nd_tuesday
              future_next_month_4th_tuesday))))))))).

Definition event (name description : string) (on : Date.date)
           (start_time end_time venue_name : string)
           (max_participants entry_fee : Z) (event_type : string)
           (is_public requires_approval : bool) : dict :=
  [("name", JStr name);
   ("description", JStr description);
   ("eventDate", JStr (Date.strftime_ymd on));
   ("startTime", JStr start_time);
   ("endDate", JStr (Date.strftime_ymd on));
   ("endTime", JStr end_time);
   ("venueName", JStr venue_name);
   ("maxParticipants", JInt max_participants);
   ("entryFee", JInt entry_fee);
   ("eventType", JStr event_type);
   ("isPublic", JBool is_public);
   ("requiresApproval", JBool requires_approval)].

Definition events_data (d : seed_dates) : list dict :=
  [ event "Board Game Championship - Monkey Puzzle"
      "Monthly board game tournament featuring strategy games. Winners receive prizes!"
      (past_date_2 d) "14:00" "20:00" MONKEY_PUZZLE_VENUE
      25 5 "SOCIAL" true false;
    event "Board Game Night - Monkey Puzzle"
      "Weekly board game night at Monkey Puzzle. Bring your own games or play ours!"
      (future_date_1 d) "18:00" "22:00" MONKEY_PUZZLE_VENUE
      30 0 "SOCIAL" true false;
    event "Clocktower (Beginner Friendly)"
      "Learn to play Blood on the Clocktower! Perfect for newcomers to the game. Experienced players welcome to help teach."
      (future_next_month_2nd_tuesday d) "19:00" "22:30"
      MONKEY_PUZZLE_VENUE 15 0 "SOCIAL" true false;
    event "Clocktower (Intermediate+)"
      "Advanced Blood on the Clocktower sessions for experienced players. Complex scripts and challenging scenarios."
      (future_next_month_4th_tuesday d) "19:00" "22:30"
      MONKEY_PUZZLE_VENUE 15 0 "SOCIAL" true false;
    event "Clockshire '25"
      "Quarterly corporate retreat with team building activities and presentations."
      (past_date_1 d) "08:00" "18:00" DOUBLE_TREE_VENUE
      80 75 "CORPORATE" false true;
    event "Clockshire '26"
      "Team building event with various activities and games."
      (future_date_2 d) "09:00" "17:00" DOUBLE_TREE_VENUE
      100 50 "CORPORATE" false true ].

Section Orchestrator.

Context {W : Type} {P : Platform W}.
Variable api_base_url : string.

(** The body of the loop "Create venues": look the venue up by name,
    clean up and delete it when it exists, create it, and record the
    new id in [created_venues]. *)
Definition process_venue (venue_data : dict) (created_venues : dict)
  : M W dict :=
  name <- lift (Py.getitem (JDict venue_data) "name") ;;
  let venue_name := py_str name in
  existing_venue <- find_venue_by_name api_base_url venue_name ;;
  (if Py.truthy existing_venue then
     venue_id <- lift (Py.getitem existing_venue "venueId") ;;
     cleanup_venue_data api_base_url venue_id venue_name
   else ret tt) ;;
  venue_id <- create_venue api_base_url (JDict venue_data) ;;
  if Py.truthy venue_id
  then ret (Py.set venue_name venue_id created_venues)
  else ret created_venues.

(** The body of the inner loop of "Create rooms". *)
Definition process_room (venue_name : string) (venue_id : json)
           (room_data : dict) (created_rooms : list (json * json))
  : M W (list (json * json)) :=
  room_name <- lift (Py.getitem (JDict room_data) "roomName") ;;
  let room_data_copy := room_data in
  let room_data_copy := Py.set "venueId" venue_id room_data_copy in
  let room_data_copy := Py.set "name" room_name room_data_copy in
  let room_data_copy := Py.del "roomName" room_data_copy in
  room_id <- create_room api_base_url (JDict room_data_copy) ;;
  if Py.truthy room_id then
    if Py.hashable room_id then
      ret (Py.kset room_id
             (JDict [("roomName", room_name);
                     ("venueName", JStr venue_name)])
             created_rooms)
    else raise TypeError
  else ret created_rooms.

(** The body of the loop "Create events".  The lines it prints format
    [event_data['name']] and [room_info['roomName']]. *)
Definition process_event (created_venues : dict)
           (created_rooms : list (json * json))
           (event_data : dict) (created_events : list json)
  : M W (list json) :=
  name <- lift (Py.getitem (JDict event_data) "venueName") ;;
  let venue_name := py_str name in
  match Py.lookup venue_name created_venues with
  | None =>
      event_name <- lift (Py.getitem (JDict event_data) "name") ;;
      ret created_events
  | Some venue_id =>
      let event_data := Py.set "venueId" venue_id event_data in
      event_id <- create_event api_base_url (JDict event_data) ;;
      if Py.truthy event_id then
        let created_events := (created_events ++ [event_id])%list in
        (if String.eqb venue_name MONKEY_PUZZLE_VENUE then
           event_name <- lift (Py.getitem (JDict event_data) "name") ;;
           for_each created_rooms (fun '(room_id, room_info) =>
             room_venue <- lift (Py.getitem room_info "venueName") ;;
             if Py.eq room_venue (JStr venue_name) then
               assign_room_to_event api_base_url
                 event_id room_id (JDict event_data) ;;
               room_name <- lift (Py.getitem room_info "roomName") ;;
               ret tt
             else ret tt)
         else ret tt) ;;
        ret created_events
      else ret created_events
  end.

(** The lines of the summary that read from [created_rooms]. *)
Definition print_created_rooms (created_rooms : list (json * json))
  : M W unit :=
  for_each created_rooms (fun '(room_id, room_info) =>
    room_name <- lift (Py.getitem room_info "roomName") ;;
    venue_name <- lift (Py.getitem room_info "venueName") ;;
    ret tt).

Definition populate_data : M W unit :=
  up <- check_server api_base_url ;;
  if negb up then sys_exit 1 else
  authenticated <- authenticate api_base_url ;;
  if negb authenticated then sys_exit 1 else
  today <- do_call DateToday ;;
  d <- lift (dates today) ;;
  created_venues <- for_fold venues_data [] process_venue ;;
  created_rooms <-
    for_fold rooms_data []
      (fun '(venue_name, rooms) created_rooms =>
         match Py.lookup venue_name created_venues with
         | None => ret created_rooms
         | Some venue_id =>
             for_fold rooms created_rooms
               (process_room venue_name venue_id)
         end) ;;
  created_events <-
    for_fold (events_data d) []
      (process_event created_venues created_rooms) ;;
  print_created_rooms created_rooms.

End Orchestrator.

(** [main]: the populator is built before the [try] statement. *)
Definition main {W} {P : Platform W} : M W unit :=
  init ;;
  try_except2 (populate_data default_api_base_url)
    is_KeyboardInterrupt (fun _ => sys_exit 1)
    is_Exception (fun _ => sys_exit 1).

End Populate.

(* ===================================================================== *)
(** ** [str.lower] and [str.strip] *)
(* ===================================================================== *)

Module Str.

(** A Python string is held as its UTF-8 encoding: a character is one
    byte below 128, or a lead byte followed by one to three continuation
    bytes (128 to 191).

    [c.lower()] on an ASCII letter; other bytes are kept.  No character
    outside ASCII is lowered to a string that holds whitespace or one of
    the letters of ["yes"], and no whitespace character is changed, so
    the tests the scripts make on the lowered answer are decided by
    this. *)
Definition lower_ascii (c : ascii) : ascii :=
  let n := nat_of_ascii c in
  if (Nat.leb 65 n && Nat.leb n 90)%bool then ascii_of_nat (n + 32) else c.

Fixpoint lower (s : string) : string :=
  match s with
  | EmptyString => EmptyString
  | String c s' => String (lower_ascii c) (lower s')
  end.

(** The characters that [str.isspace] accepts and [str.strip] removes,
    by the length of their encoding.  One byte: space, [\t \n \v \f \r]
    and the separators [\x1c .. \x1f]. *)
Definition is_space (c : ascii) : bool :=
  let n := nat_of_ascii c in
  (Nat.eqb n 32 || (Nat.leb 9 n && Nat.leb n 13)
   || (Nat.leb 28 n && Nat.leb n 31))%bool.

(** Two bytes: U+0085 and U+00A0. *)
Definition is_space2 (a b : ascii) : bool :=
  (Nat.eqb (nat_of_ascii a) 194
   && (Nat.eqb (nat_of_ascii b) 133 || Nat.eqb (nat_of_ascii b) 160))%bool.

(** Three bytes: U+1680, U+2000 to U+200A, U+2028, U+2029, U+202F,
    U+205F and U+3000. *)
Definition is_space3 (a b c : ascii) : bool :=
  let x := nat_of_ascii a in
  let y := nat_of_ascii b in
  let z := nat_of_ascii c in
  ((Nat.eqb x 225 && Nat.eqb y 154 && Nat.eqb z 128)
   || (Nat.eqb x 226 && Nat.eqb y 128
       && ((Nat.leb 128 z && Nat.leb z 138)
           || Nat.eqb z 168 || Nat.eqb z 169 || Nat.eqb z 175))
   || (Nat.eqb x 226 && Nat.eqb y 129 && Nat.eqb z 159)
   || (Nat.eqb x 227 && Nat.eqb y 128 && Nat.eqb z 128))%bool.

(** Drops the whitespace characters the string starts with. *)
Fixpoint lstrip (s : string) : string :=
  match s with
  | EmptyString => EmptyString
  | String a s1 =>
      if is_space a then lstrip s1
      else
        match s1 with
        | EmptyString => s
        | String b s2 =>
            if is_space2 a b then lstrip s2
            else
              match s2 with
              | EmptyString => s
              | String c s3 => if is_space3 a b c then lstrip s3 else s
              end
        end
  end.

(** The string consists of whitespace characters only. *)
Fixpoint all_space (s : string) : bool :=
  match s with
  | EmptyString => true
  | String a s1 =>
      if is_space a then all_space s1
      else
        match s1 with
        | EmptyString => false
        | String b s2 =>
            if is_space2 a b then all_space s2
            else
              match s2 with
              | EmptyString => false
              | String c s3 => (is_space3 a b c && all_space s3)%bool
              end
        end
  end.

(** Drops the whitespace characters the string ends with: what is left
    ends where only whitespace follows. *)
Fixpoint rstrip (s : string) : string :=
  match s with
  | EmptyString => EmptyString
  | String c s' => if all_space s then EmptyString else String c (rstrip s')
  end.

Definition strip (s : string) : string := rstrip (lstrip s).

End Str.

(* ===================================================================== *)
(** ** local-data/delete-all.py *)
(* ===================================================================== *)

Module DeleteAll.

Definition default_api_base_url : string := "http://localhost:3001/api".

Section Cleaner.

Context {W : Type} {P : Platform W}.

(** [self.api_base_url] *)
Variable api_base_url : string.

(** [DataCleaner(api_base_url)]: of the constructor, the call on the
    session it opens. *)
Definition init : M W unit :=
  do_call (SessionHeadersUpdate "Content-Type" "application/json").

Definition check_server : M W bool :=
  try_except
    (response <- do_call (SessionGet
                   (api_base_url ++ "/venues") (Some 5)) ;;
     ret (status_code response =? 200))
    is_RequestException
    (fun _ => ret false).

Definition get_all_entities (entity_type : string) : M W json :=
  try_except
    (response <- do_call (SessionGet
                   (api_base_url ++ "/" ++ entity_type ++ "s") None) ;;
     raise_for_status response ;;
     data <- json_of response ;;
     lift (Py.get data "data" (JList [])))
    is_RequestException
    (fun _ => ret (JList [])).

Definition entity_url (entity_type : string) (entity_id : json) : string :=
  api_base_url ++ "/" ++ entity_type ++ "s/" ++ py_str entity_id.

Definition delete_entity (entity_type : string) (entity_id : json)
  : M W bool :=
  try_except
    (response <- do_call (SessionDelete
                            (entity_url entity_type entity_id)) ;;
     raise_for_status response ;;
     ret true)
    is_RequestException
    (fun _ => ret false).

(** The body of the loop of [delete_all_entities]. *)
Definition delete_one (entity_type : string) (entity : json)
           (deleted_count : Z) : M W Z :=
  entity_id <- lift (Py.get entity (entity_type ++ "Id") JNull) ;;
  inner_name <- lift (Py.get entity (entity_type ++ "Name")
                        (JStr "Unknown")) ;;
  entity_name <- lift (Py.get entity "name" inner_name) ;;
  if Py.truthy entity_id then
    deleted <- delete_entity entity_type entity_id ;;
    if deleted then
      do_call (Sleep 100) ;;
      ret (deleted_count + 1)
    else ret deleted_count
  else ret deleted_count.

Definition delete_all_entities (entity_type : string) : M W Z :=
  entities <- get_all_entities entity_type ;;
  if negb (Py.truthy entities) then ret 0
  else
    items <- lift (Py.iter entities) ;;
    for_fold items 0 (delete_one entity_type).

Definition cleanup_all_data : M W unit :=
  up <- check_server ;;
  if negb up then sys_exit 1 else
  let total_deleted := 0 in
  n <- delete_all_entities "event" ;;
  let total_deleted := total_deleted + n in
  n <- delete_all_entities "room" ;;
  let total_deleted := total_deleted + n in
  n <- delete_all_entities "venue" ;;
  let total_deleted := total_deleted + n in
  ret tt.

End Cleaner.

Definition prompt : string :=
  "Are you sure you want to continue? (yes/no): ".

(** [response.lower() in ["yes", "y"]] *)
Definition confirmed (answer : string) : bool :=
  let a := Str.lower answer in
  (String.eqb a "yes" || String.eqb a "y")%bool.

(** [main]: the cleaner is built before the [try] statement. *)
Definition main {W} {P : Platform W} : M W unit :=
  init ;;
  try_except2
    (answer <- do_call (Input prompt) ;;
     if negb (confirmed answer) then sys_exit 0
     else cleanup_all_data default_api_base_url)
    is_KeyboardInterrupt (fun _ => sys_exit 1)
    is_Exception (fun _ => sys_exit 1).

End DeleteAll.

(* ===================================================================== *)
(** ** local-data/delete-specific-events.py *)
(* ===================================================================== *)

Module DeleteSpecificEvents.

Definition events_table : string := "events".

Definition event_key (event_id : string) : dict :=
  [("PK", JStr ("EVENT#" ++ event_id)); ("SK", JStr ("EVENT#" ++ event_id))].

Definition event_ids_to_delete : list string :=
  [ "33aee519-ca06-46ea-97ae-3c786ac6df9e";
    "f7d34323-18c1-4bd6-8fef-b3eded732c1a" ].

Definition prompt : string :=
  String "010" "❓ Are you sure you want to proceed? (yes/no): ".

(** [input(...).lower().strip() == "yes"] *)
Definition confirmed (answer : string) : bool :=
  String.eqb (Str.strip (Str.lower answer)) "yes".

Section Deleter.

Context {W : Type} {P : Platform W}.

Definition delete_event (event_id : string) : M W bool :=
  try_except2
    (response <- do_call (TableGetItem events_table (event_key event_id)) ;;
     match Item response with
     | None => ret false
     | Some event =>
         do_call (TableDeleteItem events_table (event_key event_id)) ;;
         ret true
     end)
    is_ClientError (fun _ => ret false)
    is_Exception (fun _ => ret false).

(** Returns the two counters of the summary. *)
Definition delete_events (event_ids : list string) : M W (Z * Z) :=
  for_fold event_ids (0, 0)
    (fun event_id '(successful, failed) =>
       deleted <- delete_event event_id ;;
       if deleted then ret (successful + 1, failed)
       else ret (successful, failed + 1)).

Definition list_events : M W unit :=
  try_except
    (response <- do_call (TableScan events_table None None) ;;
     ret tt)
    is_Exception
    (fun _ => ret tt).

Definition main : M W unit :=
  list_events ;;
  answer <- do_call (Input prompt) ;;
  if negb (confirmed answer) then ret tt
  else
    delete_events event_ids_to_delete ;;
    list_events.

End Deleter.

End DeleteSpecificEvents.

(* ===================================================================== *)
(** ** local-data/list-venues.py: the table readers *)
(* ===================================================================== *)

Module ListVenues.

Definition venues_table : string := "venues".
Definition events_table : string := "events".
Definition users_table : string := "users".

Definition entity_filter (entity_type : string) : option (string * dict) :=
  Some ("entityType = :entityType", [(":entityType", JStr entity_type)]).

Definition profile_filter : option (string * dict) :=
  Some ("SK = :sk", [(":sk", JStr "PROFILE")]).

(** [response.get("Items", [])] *)
Definition items_of (response : scan_output) : list dict :=
  match Items response with Some l => l | None => [] end.

Section Lister.

Context {W : Type} {P : Platform W}.

(** The loop [while "LastEvaluatedKey" in response: ...].  The loop
    runs for as long as the table keeps answering with a continuation
    key; [fuel] bounds the number of iterations, and [None] is returned
    when it does not suffice. *)
Fixpoint follow_pages (fuel : nat) (table : string)
         (filter : option (string * dict))
         (response : scan_output) (items : list dict)
  : M W (option (list dict)) :=
  match LastEvaluatedKey response with
  | None => ret (Some items)
  | Some key =>
      match fuel with
      | O => ret None
      | S fuel' =>
          response <- do_call (TableScan table filter (Some key)) ;;
          follow_pages fuel' table filter response
            (items ++ items_of response)%list
      end
  end.

Definition scan_all (fuel : nat) (table : string)
           (filter : option (string * dict)) : M W (option (list dict)) :=
  response <- do_call (TableScan table filter None) ;;
  follow_pages fuel table filter response (items_of response).

Definition get_all_venues (fuel : nat) : M W (option (list dict)) :=
  try_except2
    (scan_all fuel venues_table (entity_filter "VENUE"))
    is_ClientError (fun _ => ret (Some []))
    is_Exception (fun _ => ret (Some [])).

Definition get_all_events (fuel : nat) : M W (option (list dict)) :=
  try_except2
    (scan_all fuel events_table (entity_filter "EVENT"))
    is_ClientError (fun _ => ret (Some []))
    is_Exception (fun _ => ret (Some [])).

(** The loop that builds [users_dict]. *)
Fixpoint index_users (users : list dict) (users_dict : list (json * dict))
  : res (list (json * dict)) :=
  match users with
  | [] => Ok users_dict
  | user :: rest =>
      match Py.lookup "userId" user with
      | Some user_id =>
          if Py.hashable user_id
          then index_users rest (Py.kset user_id user users_dict)
          else Raise TypeError
      | None => index_users rest users_dict
      end
  end.

Definition get_all_users (fuel : nat)
  : M W (option (list (json * dict))) :=
  try_except2
    (users <- scan_all fuel users_table profile_filter ;;
     match users with
     | None => ret None
     | Some users =>
         users_dict <- lift (index_users users []) ;;
         ret (Some users_dict)
     end)
    is_ClientError (fun _ => ret (Some []))
    is_Exception (fun _ => ret (Some [])).

(** [Key={"PK": f"USER#{user_id}", "SK": "PROFILE"}] *)
Definition user_key (user_id : string) : dict :=
  [("PK", JStr ("USER#" ++ user_id)); ("SK", JStr "PROFILE")].

(** [response.get("Item")]: the profile, or [None]. *)
Definition get_user_by_id (user_id : string) : M W (option dict) :=
  try_except2
    (response <- do_call (TableGetItem users_table (user_key user_id)) ;;
     ret (Item response))
    is_ClientError (fun _ => ret None)
    is_Exception (fun _ => ret None).

End Lister.

(** [record.get("createdBy", "Unknown")] *)
Definition created_by (record : dict) : json :=
  match Py.lookup "createdBy" record with
  | Some creator => creator
  | None => JStr "Unknown"
  end.

(** The loop that builds [creator_counts] in the venue report and in the
    event report: [creator_counts[created_by] =
    creator_counts.get(created_by, 0) + 1] for every record. *)
Fixpoint creator_counts (records : list dict) (counts : list (json * Z))
  : res (list (json * Z)) :=
  match records with
  | [] => Ok counts
  | record :: rest =>
      let creator := created_by record in
      if Py.hashable creator
      then creator_counts rest
             (Py.kset creator (Py.kget creator 0 counts + 1) counts)
      else Raise TypeError
  end.

End ListVenues.

(* ===================================================================== *)
(** ** app/__init__.py and app/routes.py *)
(* ===================================================================== *)

Module App.

(** The public names of the standard [typing] module. *)
Definition typing_names : list string :=
  [
    "ABCMeta"; "AbstractSet"; "Annotated"; "Any"; "AnyStr";
    "AsyncContextManager"; "AsyncGenerator"; "AsyncIterable";
    "AsyncIterator"; "Awaitable"; "BinaryIO"; "ByteString"; "CT_co";
    "Callable"; "ChainMap"; "ClassVar"; "Collection"; "Concatenate";
    "Container"; "ContextManager"; "Coroutine"; "Counter"; "DefaultDict";
    "Deque"; "Dict"; "EXCLUDED_ATTRIBUTES"; "Final"; "ForwardRef";
    "FrozenSet"; "Generator"; "Generic"; "GenericAlias"; "Hashable"; "IO";
    "ItemsView"; "Iterable"; "Iterator"; "KT"; "KeysView"; "List";
    "Literal"; "LiteralString"; "Mapping"; "MappingView"; "Match";
    "MethodDescriptorType"; "MethodWrapperType"; "MutableMapping";
    "MutableSequence"; "MutableSet"; "NamedTuple"; "NamedTupleMeta";
    "Never"; "NewType"; "NoReturn"; "NotRequired"; "Optional";
    "OrderedDict"; "ParamSpec"; "ParamSpecArgs"; "ParamSpecKwargs";
    "Pattern"; "Protocol"; "Required"; "Reversible"; "Self"; "Sequence";
    "Set"; "Sized"; "SupportsAbs"; "SupportsBytes"; "SupportsComplex";
    "SupportsFloat"; "SupportsIndex"; "SupportsInt"; "SupportsRound"; "T";
    "TYPE_CHECKING"; "T_co"; "T_contra"; "Text"; "TextIO"; "Tuple";
    "Type"; "TypeAlias"; "TypeGuard"; "TypeVar"; "TypeVarTuple";
    "TypedDict"; "Union"; "Unpack"; "VT"; "VT_co"; "V_co"; "ValuesView";
    "WrapperDescriptorType"; "abstractmethod"; "assert_never";
    "assert_type"; "cast"; "clear_overloads"; "collections"; "contextlib";
    "dataclass_transform"; "defaultdict"; "final"; "functools";
    "get_args"; "get_origin"; "get_overloads"; "get_type_hints"; "io";
    "is_typeddict"; "no_type_check"; "no_type_check_decorator";
    "operator"; "overload"; "re"; "reveal_type"; "runtime_checkable";
    "stdlib_re"; "sys"; "types"; "warnings" ].

(** The names of the [flask] package the application imports. *)
Definition flask_names : list string :=
  [ "Flask"; "Blueprint"; "render_template" ].

(** [from <module> import <name>]: [ImportError] when the module has no
    such name. *)
Definition from_import (module_names : list string) (name : string)
  : res unit :=
  if existsb (String.eqb name) module_names then Ok tt
  else Raise ImportError.

Definition and_then {A B} (r : res A) (k : A -> res B) : res B :=
  match r with
  | Ok a => k a
  | Raise e => Raise e
  end.

(** An incoming HTTP request, as far as routing goes. *)
Record http_request : Type :=
  mkrequest { req_method : string; req_path : string; req_body : string }.

(** What a view function returns: a rendered template or a dict that
    Flask serialises to JSON. *)
Inductive view_result : Type :=
| Rendered (template : string) (context : dict)
| JsonBody (payload : dict).

Definition view : Type := http_request -> view_result.

Record Blueprint : Type :=
  mkblueprint { bp_name : string; bp_rules : list (string * view) }.

(** [@bp.route(rule)] *)
Definition route (rule : string) (f : view) (bp : Blueprint) : Blueprint :=
  mkblueprint (bp_name bp) (bp_rules bp ++ [(rule, f)])%list.

Definition index : view :=
  fun _ => Rendered "index.html"
             [("title", JStr "Scheduler - Game & Room Booking")].

Definition health_check : view :=
  fun _ => JsonBody [("status", JStr "healthy");
                     ("message", JStr "Scheduler app is running")].

(** The blueprint that the body of [app/routes.py] builds below its
    import statements. *)
Definition main_blueprint : Blueprint :=
  route "/health" health_check (route "/" index (mkblueprint "main" [])).

(** Executing the module [app.routes]: its statements in order. *)
Definition routes_module : res Blueprint :=
  and_then (from_import flask_names "Blueprint") (fun _ =>
  and_then (from_import flask_names "render_template") (fun _ =>
  and_then (from_import typing_names "str") (fun _ =>
  Ok main_blueprint))).

(** A Flask application, as far as the rules registered by the
    application's own code go. *)
Record Flask : Type := mkflask { url_rules : list (string * view) }.

Definition register_blueprint (bp : Blueprint) (app : Flask) : Flask :=
  mkflask (url_rules app ++ bp_rules bp)%list.

Definition create_app (config_name : option string) : res Flask :=
  let app := mkflask [] in
  and_then routes_module (fun main =>
  Ok (register_blueprint main app)).

End App.

(* ===================================================================== *)
(** ** Concrete surroundings *)
(* ===================================================================== *)

(** A platform given by one handler per kind of call. *)
Record handlers (W : Type) : Type := mkhandlers {
  on_http : call -> W -> res response * W;
  on_input : string -> W -> res string * W;
  on_today : W -> Date.date;
  on_scan : string -> option (string * dict) -> option dict -> W
            -> res scan_output * W;
  on_get_item : string -> dict -> W -> res get_item_output * W;
  on_delete_item : string -> dict -> W -> res unit * W
}.
Arguments mkhandlers {W}.
Arguments on_http {W}.
Arguments on_input {W}.
Arguments on_today {W}.
Arguments on_scan {W}.
Arguments on_get_item {W}.
Arguments on_delete_item {W}.

Definition perform_with {W} (h : handlers W) (c : call)
  : W -> res (reply c) * W :=
  match c as c0 return W -> res (reply c0) * W with
  | SessionGet u t => on_http h (SessionGet u t)
  | SessionPost u b => on_http h (SessionPost u b)
  | SessionDelete u => on_http h (SessionDelete u)
  | SessionHeadersUpdate _ _ => fun w => (Ok tt, w)
  | Input p => on_input h p
  | Sleep _ => fun w => (Ok tt, w)
  | DateToday => fun w => (Ok (on_today h w), w)
  | TableScan t f k => on_scan h t f k
  | TableGetItem t k => on_get_item h t k
  | TableDeleteItem t k => on_delete_item h t k
  end.

(** Containers are never formatted by the concrete runs below; their
    [repr] is left blank. *)
Definition platform_of {W} (h : handlers W) : Platform W :=
  {| perform := perform_with h; py_repr := fun _ => "" |}.

(** Nothing answers: every request fails in transport, the terminal is
    closed, the tables are unreachable. *)
Definition nothing_answers {W} : handlers W :=
  mkhandlers
    (fun _ w => (Raise RequestException, w))
    (fun _ w => (Raise (OtherError "EOFError"), w))
    (fun _ => Date.mkdate 2025 1 15)
    (fun _ _ _ w => (Raise ClientError, w))
    (fun _ _ w => (Raise ClientError, w))
    (fun _ _ w => (Raise ClientError, w)).

(** No server is listening. *)
Definition Offline : Platform unit := platform_of nothing_answers.

(** A user at the terminal who types the lines of the world, one per
    prompt, with no server and no table behind. *)
Definition Terminal : Platform (list string) :=
  platform_of
    (mkhandlers
       (on_http nothing_answers)
       (fun _ w => match w with
                   | [] => (Raise (OtherError "EOFError"), [])
                   | line :: rest => (Ok line, rest)
                   end)
       (on_today nothing_answers)
       (on_scan nothing_answers)
       (on_get_item nothing_answers)
       (on_delete_item nothing_answers)).

(** A table laid out in pages: the world maps a start key (none for the
    first page) to the page served.  Keys are compared as dicts. *)
Definition paged_table : Type := list (option dict * scan_output).

Definition same_key (a b : option dict) : bool :=
  match a, b with
  | None, None => true
  | Some x, Some y => Py.eq (JDict x) (JDict y)
  | _, _ => false
  end.

Fixpoint page_at (k : option dict) (t : paged_table) : option scan_output :=
  match t with
  | [] => None
  | (k', p) :: t' => if same_key k k' then Some p else page_at k t'
  end.

Definition Paged : Platform paged_table :=
  platform_of
    (mkhandlers
       (on_http nothing_answers)
       (on_input nothing_answers)
       (on_today nothing_answers)
       (fun _ _ k w => match page_at k w with
                       | Some p => (Ok p, w)
                       | None => (Raise ClientError, w)
                       end)
       (on_get_item nothing_answers)
       (on_delete_item nothing_answers)).

(* ===================================================================== *)
(** ** A reference server *)
(* ===================================================================== *)

Module Server.

(** Modelled from the spec: the REST API server and its datastore, which
    the scripts call and which are not part of the repository.  The
    model follows the data model and the interface list of the spec:
    venues, rooms and events with an identity and a name, rooms and
    events referencing one venue by its id; [GET], [POST] and [DELETE]
    on [/venues], [/rooms], [/events], [POST] on [/event-rooms],
    [/auth/signup] and [/auth/login]; answers in a [{"data": ...}]
    envelope; a create is refused when the referenced venue does not
    exist; a delete removes the one record and nothing else.  Of each
    record the model keeps what the scripts read. *)
Record venue : Type := mkvenue { venue_id : nat; venue_name : string }.
Record room : Type :=
  mkroom { room_id : nat; room_name : string; room_venue : nat }.
Record event : Type :=
  mkevent { event_id : nat; event_name : string; event_venue : nat }.

Record store : Type := mkstore {
  venues : list venue;
  rooms : list room;
  events : list event;
  assignments : list (nat * nat);
  next_id : nat;
  clock : Date.date
}.

Fixpoint ones (n : nat) : string :=
  match n with
  | O => EmptyString
  | S n' => String "1" (ones n')
  end.

(** The id the server hands out for its [n]-th record. *)
Definition uid (n : nat) : string := String "u" (ones n).

Definition venue_json (v : venue) : json :=
  JDict [("venueId", JStr (uid (venue_id v)));
         ("venueName", JStr (venue_name v))].

Definition room_json (r : room) : json :=
  JDict [("roomId", JStr (uid (room_id r)));
         ("roomName", JStr (room_name r));
         ("venueId", JStr (uid (room_venue r)))].

Definition event_json (e : event) : json :=
  JDict [("eventId", JStr (uid (event_id e)));
         ("eventName", JStr (event_name e));
         ("venueId", JStr (uid (event_venue e)))].

Definition answer (status : Z) (data : json) : response :=
  mkresponse status (Ok (JDict [("data", data)])).

Definition refuse (status : Z) : response :=
  mkresponse status (Ok (JDict [("error", JStr "refused")])).

Definition base : string := "http://localhost:3001/api".
Definition root : string := "http://localhost:3001".

Fixpoint strip_prefix (p s : string) : option string :=
  match p with
  | EmptyString => Some s
  | String a p' =>
      match s with
      | EmptyString => None
      | String b s' => if Ascii.eqb a b then strip_prefix p' s' else None
      end
  end.

Definition names_venue (s : string) (v : venue) : bool :=
  String.eqb (uid (venue_id v)) s.
Definition names_room (s : string) (r : room) : bool :=
  String.eqb (uid (room_id r)) s.
Definition names_event (s : string) (e : event) : bool :=
  String.eqb (uid (event_id e)) s.

Definition set_venues (s : store) (l : list venue) : store :=
  mkstore l (rooms s) (events s) (assignments s) (next_id s) (clock s).
Definition set_rooms (s : store) (l : list room) : store :=
  mkstore (venues s) l (events s) (assignments s) (next_id s) (clock s).
Definition set_events (s : store) (l : list event) : store :=
  mkstore (venues s) (rooms s) l (assignments s) (next_id s) (clock s).

Definition fresh (s : store) : store :=
  mkstore (venues s) (rooms s) (events s) (assignments s)
          (S (next_id s)) (clock s).

Definition string_field (body : json) (k : string) : option string :=
  match Py.get body k JNull with
  | Ok (JStr v) => Some v
  | _ => None
  end.

Definition create_venue (body : json) (s : store) : response * store :=
  match string_field body "name" with
  | Some name =>
      let id := next_id s in
      (answer 201 (JDict [("venueId", JStr (uid id))]),
       fresh (set_venues s (venues s ++ [mkvenue id name])%list))
  | None => (refuse 400, s)
  end.

Definition create_room (body : json) (s : store) : response * store :=
  match string_field body "name", string_field body "venueId" with
  | Some name, Some ref =>
      match find (names_venue ref) (venues s) with
      | Some v =>
          let id := next_id s in
          (answer 201 (JDict [("roomId", JStr (uid id))]),
           fresh (set_rooms s
                    (rooms s ++ [mkroom id name (venue_id v)])%list))
      | None => (refuse 400, s)
      end
  | _, _ => (refuse 400, s)
  end.

Definition create_event (body : json) (s : store) : response * store :=
  match string_field body "name", string_field body "venueId" with
  | Some name, Some ref =>
      match find (names_venue ref) (venues s) with
      | Some v =>
          let id := next_id s in
          (answer 201 (JDict [("eventId", JStr (uid id))]),
           fresh (set_events s
                    (events s ++ [mkevent id name (venue_id v)])%list))
      | None => (refuse 400, s)
      end
  | _, _ => (refuse 400, s)
  end.

Definition assign_room (body : json) (s : store) : response * store :=
  match string_field body "eventId", string_field body "roomId" with
  | Some e, Some r =>
      match find (names_event e) (events s), find (names_room r) (rooms s) with
      | Some ev, Some rm =>
          (answer 201 (JDict []),
           mkstore (venues s) (rooms s) (events s)
                   (assignments s ++ [(event_id ev, room_id rm)])%list
                   (next_id s) (clock s))
      | _, _ => (refuse 400, s)
      end
  | _, _ => (refuse 400, s)
  end.

Definition delete_venue (id : string) (s : store) : response * store :=
  if existsb (names_venue id) (venues s)
  then (answer 200 JNull,
        set_venues s (filter (fun v => negb (names_venue id v)) (venues s)))
  else (refuse 404, s).

Definition delete_room (id : string) (s : store) : response * store :=
  if existsb (names_room id) (rooms s)
  then (answer 200 JNull,
        set_rooms s (filter (fun r => negb (names_room id r)) (rooms s)))
  else (refuse 404, s).

Definition delete_event (id : string) (s : store) : response * store :=
  if existsb (names_event id) (events s)
  then (answer 200 JNull,
        set_events s (filter (fun e => negb (names_event id e)) (events s)))
  else (refuse 404, s).

Definition get (url : string) (s : store) : response :=
  if String.eqb url (root ++ "/") then
    mkresponse 200 (Raise (OtherError "JSONDecodeError"))
  else if String.eqb url (base ++ "/venues") then
    answer 200 (JList (map venue_json (venues s)))
  else if String.eqb url (base ++ "/rooms") then
    answer 200 (JList (map room_json (rooms s)))
  else if String.eqb url (base ++ "/events") then
    answer 200 (JList (map event_json (events s)))
  else refuse 404.

Definition post (url : string) (body : json) (s : store)
  : response * store :=
  if String.eqb url (base ++ "/auth/signup") then (answer 201 JNull, s)
  else if String.eqb url (base ++ "/auth/login") then
    (answer 200 (JDict [("sessionToken", JStr "session")]), s)
  else if String.eqb url (base ++ "/venues") then create_venue body s
  else if String.eqb url (base ++ "/rooms") then create_room body s
  else if String.eqb url (base ++ "/events") then create_event body s
  else if String.eqb url (base ++ "/event-rooms") then assign_room body s
  else (refuse 404, s).

Definition delete (url : string) (s : store) : response * store :=
  match strip_prefix (base ++ "/venues/") url with
  | Some id => delete_venue id s
  | None =>
      match strip_prefix (base ++ "/rooms/") url with
      | Some id => delete_room id s
      | None =>
          match strip_prefix (base ++ "/events/") url with
          | Some id => delete_event id s
          | None => (refuse 404, s)
          end
      end
  end.

Definition http (c : call) (s : store) : res response * store :=
  match c with
  | SessionGet url _ => (Ok (get url s), s)
  | SessionPost url body => let (r, s') := post url body s in (Ok r, s')
  | SessionDelete url => let (r, s') := delete url s in (Ok r, s')
  | _ => (Raise (OtherError "NotARequest"), s)
  end.

Definition Reference : Platform store :=
  platform_of
    (mkhandlers
       http
       (on_input nothing_answers)
       clock
       (on_scan nothing_answers)
       (on_get_item nothing_answers)
       (on_delete_item nothing_answers)).

(** What the claims count. *)
Definition counts (s : store) : nat * nat * nat :=
  (List.length (venues s), List.length (rooms s), List.length (events s)).

Definition venues_named (name : string) (s : store) : list venue :=
  filter (fun v => String.eqb (venue_name v) name) (venues s).

Definition rooms_of (v : nat) (s : store) : list room :=
  filter (fun r => Nat.eqb (room_venue r) v) (rooms s).

Definition events_of (v : nat) (s : store) : list event :=
  filter (fun e => Nat.eqb (event_venue e) v) (events s).

End Server.

(* ===================================================================== *)
(** ** Vocabulary of the statements *)
(* ===================================================================== *)

Section Observations.

Context {W A : Type}.

Definition result_of (x : res A * W * list call) : res A := fst (fst x).
Definition world_of (x : res A * W * list call) : W := snd (fst x).
Definition trace_of (x : res A * W * list call) : list call := snd x.

End Observations.

(** A call that deletes something: an HTTP [DELETE] or a table
    [delete_item]. *)
Definition is_delete (c : call) : bool :=
  match c with
  | SessionDelete _ | TableDeleteItem _ _ => true
  | _ => false
  end.

(** A call that creates or deletes something. *)
Definition is_mutation (c : call) : bool :=
  match c with
  | SessionPost _ _ | SessionDelete _ | TableDeleteItem _ _ => true
  | _ => false
  end.

Definition is_input (c : call) : bool :=
  match c with
  | Input _ => true
  | _ => false
  end.

Definition is_record (x : json) : bool :=
  match x with
  | JDict _ => true
  | _ => false
  end.

(** The test of [find_venue_by_name] on one record. *)
Definition has_name (venue_name : string) (venue : json) : bool :=
  match Py.get venue "venueName" JNull with
  | Ok name => Py.eq name (JStr venue_name)
  | Raise _ => false
  end.

(** The first record of a listing that carries the name, or [None]. *)
Definition first_named (venue_name : string) (listing : list json) : json :=
  match find (has_name venue_name) listing with
  | Some venue => venue
  | None => JNull
  end.

(** In a trace, every deleting call comes after a prompt at the
    terminal. *)
Definition prompt_precedes_deletes (t : list call) : Prop :=
  forall t1 c t2,
    t = (t1 ++ c :: t2)%list -> is_delete c = true ->
    existsb is_input t1 = true.

(** Every call a script issues, from whatever world it starts, satisfies
    [Q]. *)
Definition emits {W A} (Q : call -> Prop) (m : M W A) : Prop :=
  forall w, Forall Q (trace_of (m w)).

(** [c] is the request by which the cleanup script deletes an entity of
    type [entity_type]. *)
Definition deletes {W} {P : Platform W} (base entity_type : string)
           (c : call) : Prop :=
  exists entity_id,
    c = SessionDelete (DeleteAll.entity_url base entity_type entity_id).

(** A call that, if it deletes at all, deletes an entity of the given
    type. *)
Definition deletes_only {W} {P : Platform W} (base entity_type : string)
           (c : call) : Prop :=
  is_delete c = true -> deletes base entity_type c.

(** The ids that [cleanup_venue_data] deletes from a listing: of the
    records that reference [venue_id], those that carry an id. *)
Definition ids_referencing (id_key : string) (venue_id : json)
           (listing : list json) : list json :=
  flat_map
    (fun entity =>
       match Py.get entity "venueId" JNull, Py.get entity id_key JNull with
       | Ok ref, Ok entity_id =>
           if Py.eq ref venue_id && Py.truthy entity_id
           then [entity_id] else []
       | _, _ => []
       end)
    listing.

(** The delete requests of the populate script for the given ids. *)
Definition delete_requests {W} {P : Platform W} (base entity_type : string)
           (ids : list json) : list call :=
  map (fun entity_id =>
         SessionDelete (Populate.entity_url base entity_type entity_id))
      ids.

Section Pages.

Context {W : Type} {P : Platform W}.
Variable table : string.
Variable filter : option (string * dict).

(** [pages_from start w pages w' t]: scanned from the key [start] in the
    world [w], the table serves the pages [pages] one after the other,
    the continuation key of each page starting the scan of the next and
    the last page carrying none; [w'] is the world and [t] the calls after
    the last page. *)
Inductive pages_from
  : option dict -> W -> list scan_output -> W -> list call -> Prop :=
| last_page (start : option dict) (w w' : W) (p : scan_output) :
    perform (TableScan table filter start) w = (Ok p, w') ->
    LastEvaluatedKey p = None ->
    pages_from start w [p] w' [TableScan table filter start]
| next_page (start : option dict) (w w1 w' : W) (p : scan_output)
            (key : dict) (rest : list scan_output) (t : list call) :
    perform (TableScan table filter start) w = (Ok p, w1) ->
    LastEvaluatedKey p = Some key ->
    pages_from (Some key) w1 rest w' t ->
    pages_from start w (p :: rest) w'
               (TableScan table filter start :: t).

End Pages.

(** The items of all pages, page after page. *)
Definition all_items (pages : list scan_output) : list dict :=
  flat_map ListVenues.items_of pages.

(** What [get_all_users] makes of the scanned items: the dict built by
    its loop, or the empty dict when the loop raises. *)
Definition users_dict_of (users : list dict) : list (json * dict) :=
  match ListVenues.index_users users [] with
  | Ok users_dict => users_dict
  | Raise _ => []
  end.

(** No key of the dict equals an earlier one. *)
Fixpoint distinct_keys {V} (d : list (json * V)) : Prop :=
  match d with
  | [] => True
  | (k, _) :: d' =>
      Forall (fun entry => Py.eq (fst entry) k = false) d'
      /\ distinct_keys d'
  end.

(** A table of two pages that serves one item on both pages; the item has
    no ["userId"]. *)
Definition repeating_table : paged_table :=
  let a : dict := [("PK", JStr "X#1"); ("SK", JStr "PROFILE");
                   ("entityType", JStr "VENUE")] in
  let key : dict := [("PK", JStr "X#1")] in
  [ (None, mkscan (Some [a]) (Some key));
    (Some key, mkscan (Some [a]) None) ].


(* ===================================================================== *)
(** ** Further vocabulary *)
(* ===================================================================== *)

(** Whatever world it starts from, the script ends normally or with an
    exception that satisfies [Q]. *)
Definition raises_only {W A} (Q : exn -> Prop) (m : M W A) : Prop :=
  forall w e, result_of (m w) = Raise e -> Q e.

(** An exception that [except Exception] does not catch. *)
Definition is_BaseException_only (e : exn) : Prop := is_Exception e = false.

Definition is_SystemExit (e : exn) : bool :=
  match e with
  | SystemExit _ => true
  | _ => false
  end.

(** What decoding the body of an answer raises, when the call is an HTTP
    request that is answered with a body that does not decode. *)
Definition decoding_error (c : call) : reply c -> option exn :=
  match c as c0 return reply c0 -> option exn with
  | SessionGet _ _ | SessionPost _ _ | SessionDelete _ =>
      fun r => match json_body r with
               | Raise e => Some e
               | Ok _ => None
               end
  | _ => fun _ => None
  end.

(** The surroundings never raise [SystemExit]: neither a call nor the
    decoding of an answer does. *)
Definition never_exits {W} (P : Platform W) : Prop :=
  forall (c : call) (w : W),
    match fst (perform c w) with
    | Raise e => is_SystemExit e = false
    | Ok r =>
        match decoding_error c r with
        | Some e => is_SystemExit e = false
        | None => True
        end
    end.

Definition is_sleep (c : call) : bool :=
  match c with
  | Sleep _ => true
  | _ => false
  end.

Definition is_http_delete (c : call) : bool :=
  match c with
  | SessionDelete _ => true
  | _ => false
  end.

Definition is_get_item (c : call) : bool :=
  match c with
  | TableGetItem _ _ => true
  | _ => false
  end.

(** How many calls of a trace satisfy [p]. *)
Definition count_calls (p : call -> bool) (t : list call) : Z :=
  Z.of_nat (List.length (List.filter p t)).

(** The request is a [POST] to [url]. *)
Definition posts_to (url : string) (c : call) : Prop :=
  exists body, c = SessionPost url body.

Definition is_post_to (url : string) (c : call) : bool :=
  match c with
  | SessionPost u _ => String.eqb u url
  | _ => false
  end.

(** The ids of the rooms recorded in [created_rooms] under the venue
    [venue_name]: the test [room_info["venueName"] == venue_name] of the
    loop that assigns rooms to an event. *)
Definition recorded_under (venue_name : string)
           (created_rooms : list (json * json)) : list json :=
  flat_map
    (fun '(room_id, room_info) =>
       match Py.getitem room_info "venueName" with
       | Ok room_venue =>
           if Py.eq room_venue (JStr venue_name) then [room_id] else []
       | Raise _ => []
       end)
    created_rooms.

Section BrokenPages.

Context {W : Type} {P : Platform W}.
Variable table : string.
Variable filter : option (string * dict).

(** [pages_break start w n e w' t]: scanned from the key [start] in the
    world [w], the table serves [n] pages that each carry a continuation
    key, and the scan after them raises [e]; [w'] is the world and [t]
    the calls at that point. *)
Inductive pages_break
  : option dict -> W -> nat -> exn -> W -> list call -> Prop :=
| breaks_here (start : option dict) (w w' : W) (e : exn) :
    perform (TableScan table filter start) w = (Raise e, w') ->
    pages_break start w O e w' [TableScan table filter start]
| breaks_later (start : option dict) (w w1 w' : W) (p : scan_output)
               (key : dict) (n : nat) (e : exn) (t : list call) :
    perform (TableScan table filter start) w = (Ok p, w1) ->
    LastEvaluatedKey p = Some key ->
    pages_break (Some key) w1 n e w' t ->
    pages_break start w (S n) e w'
                (TableScan table filter start :: t).

End BrokenPages.

(** The answer "Yes" between a no-break space (U+00A0) and an em space
    (U+2003), in UTF-8. *)
Definition framed_yes : string :=
  String (ascii_of_nat 194) (String (ascii_of_nat 160) "Yes")
  ++ String (ascii_of_nat 226)
       (String (ascii_of_nat 128) (String (ascii_of_nat 131) "")).

Section Replay.

Context {W : Type} {P : Platform W}.

(** The server accepts the delete request sent in the world [w]: it
    answers, and with a status that [raise_for_status] lets pass. *)
Definition accepts (url : string) (w : W) : bool :=
  match fst (perform (SessionDelete url) w) with
  | Ok r => negb ((400 <=? status_code r) && (status_code r <? 600))
  | Raise _ => false
  end.

(** The world after the calls of a trace, performed one after the other
    from [w]. *)
Fixpoint after (t : list call) (w : W) : W :=
  match t with
  | [] => w
  | c :: t' => after t' (snd (perform c w))
  end.

(** The calls of a trace, each with the world it is performed in. *)
Fixpoint replay (t : list call) (w : W) : list (call * W) :=
  match t with
  | [] => []
  | c :: t' => (c, w) :: replay t' (snd (perform c w))
  end.

Definition is_accepted_delete (cw : call * W) : bool :=
  match fst cw with
  | SessionDelete url => accepts url (snd cw)
  | _ => false
  end.

(** How many delete requests of the trace the server accepts. *)
Definition accepted_deletes (t : list call) (w : W) : Z :=
  Z.of_nat (List.length (List.filter is_accepted_delete (replay t w))).

(** Every delete request that the server accepts is directly followed
    by a pause of a tenth of a second. *)
Definition paused_after_accepted (r : list (call * W)) : Prop :=
  forall r1 url w r2,
    r = (r1 ++ (SessionDelete url, w) :: r2)%list ->
    accepts url w = true ->
    exists w' r3, r2 = (Sleep 100, w') :: r3.

End Replay.

(** The ids that [delete_all_entities] deletes from a listing: those of
    the records that carry one under [id_key]. *)
Definition ids_of (id_key : string) (listing : list json) : list json :=
  flat_map
    (fun entity =>
       match Py.get entity id_key JNull with
       | Ok entity_id => if Py.truthy entity_id then [entity_id] else []
       | Raise _ => []
       end)
    listing.

(** The delete requests of the cleanup script for the given ids. *)
Definition cleanup_requests {W} {P : Platform W} (base entity_type : string)
           (ids : list json) : list call :=
  map (fun entity_id =>
         SessionDelete (DeleteAll.entity_url base entity_type entity_id))
      ids.

(** A trace without its pauses. *)
Definition without_pauses (t : list call) : list call :=
  List.filter (fun c => negb (is_sleep c)) t.

(** The records that the cleanup script goes through for [entity_type]
    in the world [w]: those of the listing it fetches, none when the
    listing is empty or could not be fetched. *)
Definition goes_through {W} {P : Platform W} (base entity_type : string)
           (w : W) (records : list json) : Prop :=
  exists listing,
    result_of (DeleteAll.get_all_entities base entity_type w) = Ok listing
    /\ (if Py.truthy listing then Py.iter listing = Ok records
        else records = []).

(** The reference server behind a gateway that answers the listing of
    the events with a 503. *)
Definition EventsUnlisted : Platform Server.store :=
  platform_of
    (mkhandlers
       (fun c s =>
          match c with
          | SessionGet url None =>
              if String.eqb url (Server.base ++ "/events")
              then (Ok (Server.refuse 503), s)
              else Server.http c s
          | _ => Server.http c s
          end)
       (on_input nothing_answers)
       Server.clock
       (on_scan nothing_answers)
       (on_get_item nothing_answers)
       (on_delete_item nothing_answers)).

(** A store with one venue, one room in it and one event at it. *)
Definition one_of_each : Server.store :=
  Server.mkstore [Server.mkvenue 0 "V"] [Server.mkroom 1 "R" 0]
                 [Server.mkevent 2 "E" 0] [] 3 (Date.mkdate 2025 1 15).

(** The user interrupts the script at its first call. *)
Definition Interrupted : Platform unit :=
  {| perform := fun c w => (Raise KeyboardInterrupt, w);
     py_repr := fun _ => "" |}.

(** A table whose second page cannot be read. *)
Definition broken_table : paged_table :=
  [ (None, mkscan (Some [[("PK", JStr "VENUE#1"); ("userId", JStr "u1")]])
                  (Some [("PK", JStr "VENUE#1")])) ].

(** The days from 0001-05-01 to 9999-08-31: those from which four
    months back and four months ahead stay within the years 1 to
    9999. *)
Definition seedable (today : Date.date) : Prop :=
  (1 < Date.year today \/ 5 <= Date.month today)
  /\ (Date.year today < 9999 \/ Date.month today <= 8).

(** The dates that [populate_data] computes on 2025-01-15. *)
Definition dates_of_2025_01_15 : Populate.seed_dates :=
  Populate.mkdates
    (Date.mkdate 2024 11 15) (Date.mkdate 2024 9 15)
    (Date.mkdate 2025 4 15) (Date.mkdate 2025 5 15)
    (Date.mkdate 2025 2 1) (Date.mkdate 2025 2 4)
    (Date.mkdate 2025 2 11) (Date.mkdate 2025 2 25).

(** [a < b] on dates. *)
Definition earlier (a b : Date.date) : Prop :=
  Date.toordinal a < Date.toordinal b.

(** The sum of the counts of a [creator_counts] dict. *)
Definition total (counts : list (json * Z)) : Z :=
  fold_right (fun entry n => snd entry + n) 0 counts.

(** How many records are attributed to a creator equal to [creator]. *)
Definition attributed_to (creator : json) (records : list dict) : Z :=
  Z.of_nat (List.length
              (List.filter
                 (fun record => Py.eq (ListVenues.created_by record) creator)
                 records)).

(** A server that is up and lets the test user in, but refuses to create
    anything: every [POST] other than the login is answered with a 500,
    every other request with an empty listing. *)
Definition Refusing : Platform unit :=
  platform_of
    (mkhandlers
       (fun c w =>
          match c with
          | SessionPost url _ =>
              if String.eqb url
                   (Populate.default_api_base_url ++ "/auth/login")
              then (Ok (mkresponse 200
                          (Ok (JDict [("data",
                                       JDict [("sessionToken",
                                               JStr "token")])]))), w)
              else (Ok (mkresponse 500
                          (Raise (OtherError "JSONDecodeError"))), w)
          | _ => (Ok (mkresponse 200 (Ok (JDict [("data", JList [])]))), w)
          end)
       (on_input nothing_answers)
       (on_today nothing_answers)
       (on_scan nothing_answers)
       (on_get_item nothing_answers)
       (on_delete_item nothing_answers)).

(** A server that is up but lets nobody in: every [POST] is answered
    with a 401, every other request with an empty listing. *)
Definition Locked : Platform unit :=
  platform_of
    (mkhandlers
       (fun c w =>
          match c with
          | SessionPost _ _ =>
              (Ok (mkresponse 401
                     (Ok (JDict [("error", JStr "Unauthorized")]))), w)
          | _ => (Ok (mkresponse 200 (Ok (JDict [("data", JList [])]))), w)
          end)
       (on_input nothing_answers)
       (on_today nothing_answers)
       (on_scan nothing_answers)
       (on_get_item nothing_answers)
       (on_delete_item nothing_answers)).

(* ===================================================================== *)
(** * Properties *)
(* ===================================================================== *)

(** ** Running a script *)

Section RunLemmas.

Context {W : Type}.

Lemma bind_ok {A B} (m : M W A) (f : A -> M W B) w a w1 t1 :
  m w = (Ok a, w1, t1) ->
  bind m f w = (result_of (f a w1), world_of (f a w1),
                (t1 ++ trace_of (f a w1))%list).
Proof.
  intros H. unfold bind. rewrite H.
  destruct (f a w1) as [[r w2] t2]. reflexivity.
Qed.

Lemma bind_raise {A B} (m : M W A) (f : A -> M W B) w e w1 t1 :
  m w = (Raise e, w1, t1) -> bind m f w = (Raise e, w1, t1).
Proof. intros H. unfold bind. rewrite H. reflexivity. Qed.

Lemma try_except_ok {A} (m : M W A) c h w a w1 t1 :
  m w = (Ok a, w1, t1) -> try_except m c h w = (Ok a, w1, t1).
Proof. intros H. unfold try_except. rewrite H. reflexivity. Qed.

Lemma bind_inv_ok {A B} (m : M W A) (f : A -> M W B) w r wf tf :
  bind m f w = (Ok r, wf, tf) ->
  exists a w1 t1 t2,
    m w = (Ok a, w1, t1) /\ f a w1 = (Ok r, wf, t2)
    /\ tf = (t1 ++ t2)%list.
Proof.
  unfold bind. destruct (m w) as [[[a|e] w1] t1]; [|discriminate].
  destruct (f a w1) as [[r' w2] t2] eqn:E. intros H.
  injection H as -> -> <-. exists a, w1, t1, t2. auto.
Qed.

Lemma lift_inv_ok {A} (x : res A) (w : W) r wf tf :
  lift x w = (Ok r, wf, tf) -> x = Ok r /\ wf = w /\ tf = [].
Proof. unfold lift. intros H. injection H as -> <- <-. auto. Qed.

Lemma ret_inv {A} (a : A) (w : W) r wf tf :
  ret a w = (r, wf, tf) -> r = Ok a /\ wf = w /\ tf = [].
Proof. unfold ret. intros H. injection H as <- <- <-. auto. Qed.

End RunLemmas.

Lemma count_calls_app (p : call -> bool) (t1 t2 : list call) :
  count_calls p (t1 ++ t2) = count_calls p t1 + count_calls p t2.
Proof.
  unfold count_calls. rewrite filter_app, length_app. lia.
Qed.

Lemma count_calls_nonneg (p : call -> bool) (t : list call) :
  0 <= count_calls p t.
Proof. unfold count_calls. lia. Qed.


(** Splits the [match]es of the goal on their scrutinees, innermost
    first. *)
Ltac crunch :=
  repeat (simpl in *;
          match goal with
          | |- context [match ?x with _ => _ end] =>
              lazymatch x with
              | context [match _ with _ => _ end] => fail
              | _ => destruct x eqn:?
              end
          end);
  simpl in *.

(** Reading a dict and adding strings raise no [RequestException]. *)
Lemma getitem_not_request (x : json) (k : string) (e : exn) :
  Py.getitem x k = Raise e -> is_RequestException e = false.
Proof.
  destruct x; cbn; try (intros H; inversion H; reflexivity).
  destruct (Py.lookup k d); intros H; inversion H; reflexivity.
Qed.

Lemma add_not_request (a b : json) (e : exn) :
  Py.add a b = Raise e -> is_RequestException e = false.
Proof. destruct a, b; cbn; intros H; inversion H; reflexivity. Qed.

Lemma get_not_request (x : json) (k : string) (d : json) (e : exn) :
  Py.get x k d = Raise e -> is_RequestException e = false.
Proof. destruct x; cbn; intros H; inversion H; reflexivity. Qed.

(** Closes a goal [r <> Raise RequestException] after [crunch]. *)
Ltac not_request_exception :=
  let X := fresh in
  intro X; try discriminate X; inversion X; subst; simpl in *;
  try discriminate;
  match goal with
  | H : Py.getitem _ _ = Raise RequestException |- _ =>
      apply getitem_not_request in H; discriminate H
  | H : Py.get _ _ _ = Raise RequestException |- _ =>
      apply get_not_request in H; discriminate H
  end.

(** ** The web application *)

(** C9 (as the code stands): importing [app.routes] fails on
    [from typing import str as String], because the [typing] module has
    no name [str]; [create_app] therefore raises [ImportError] whatever
    its argument, and no route is ever served. *)
Theorem create_app_raises_import_error :
  forall config_name, App.create_app config_name = Raise ImportError.
Proof. intros config_name. reflexivity. Qed.

(** The routes the module body would register once its imports succeed:
    exactly ["/"] and ["/health"], the latter answering every request with
    the same payload. *)
Lemma main_blueprint_routes :
  map fst (App.bp_rules App.main_blueprint) = ["/"; "/health"]
  /\ (forall r : App.http_request,
        App.health_check r
        = App.JsonBody [("status", JStr "healthy");
                        ("message", JStr "Scheduler app is running")]).
Proof. split; reflexivity. Qed.

(** ** The entity API client *)

Section ClientProperties.

Context {W : Type} {P : Platform W}.
Variable base : string.

Lemma find_venue_loop_records (venue_name : string) :
  forall (l : list json) (w : W),
    forallb is_record l = true ->
    Populate.find_venue_loop l venue_name w
    = (Ok (first_named venue_name l), w, []).
Proof.
  induction l as [|venue rest IH]; intros w Hrec.
  - reflexivity.
  - simpl in Hrec. apply andb_prop in Hrec as [Hv Hrest].
    destruct venue; try discriminate Hv.
    unfold first_named. simpl. unfold has_name. simpl.
    unfold bind, lift. simpl.
    destruct (Py.eq _ (JStr venue_name)) eqn:E.
    + reflexivity.
    + rewrite (IH w Hrest). reflexivity.
Qed.

(** C10: on the listing that [get_all_venues] returns,
    [find_venue_by_name] yields the first record, in listing order,
    whose ["venueName"] equals the name, and [None] when there is none;
    an empty listing, which is also what a failed fetch yields, gives
    [None]. *)
Theorem find_venue_by_name_first_match :
  forall (venue_name : string) (w w' : W) (listing : list json)
         (t : list call),
    Populate.get_all_venues base w = (Ok (JList listing), w', t) ->
    forallb is_record listing = true ->
    Populate.find_venue_by_name base venue_name w
    = (Ok (first_named venue_name listing), w', t)
    /\ (listing = [] ->
        Populate.find_venue_by_name base venue_name w = (Ok JNull, w', t)).
Proof.
  intros venue_name w w' listing t Hget Hrec.
  assert (Hfind : Populate.find_venue_by_name base venue_name w
                  = (Ok (first_named venue_name listing), w', t)).
  { unfold Populate.find_venue_by_name.
    rewrite (bind_ok _ _ _ _ _ _ Hget).
    assert (Hloop :
      (items <- lift (Py.iter (JList listing)) ;;
       Populate.find_venue_loop items venue_name) w'
      = (Ok (first_named venue_name listing), w', [])).
    { unfold bind, lift. simpl.
      rewrite (find_venue_loop_records venue_name listing w' Hrec).
      reflexivity. }
    rewrite Hloop. unfold result_of, world_of, trace_of. simpl.
    rewrite app_nil_r. reflexivity. }
  split; [exact Hfind|].
  intros ->. exact Hfind.
Qed.

(** A failed fetch: the request raises in transport and the listing
    comes back empty. *)
Lemma get_all_transport_failure (path : string) (w w' : W) :
  perform (SessionGet (base ++ path) None) w = (Raise RequestException, w') ->
  Populate.get_all base path w
  = (Ok (JList []), w', [SessionGet (base ++ path) None]).
Proof.
  intros H. unfold Populate.get_all, try_except, bind, do_call.
  rewrite H. reflexivity.
Qed.

Lemma delete_entity_transport_failure (ty : string) (id : json) (w w' : W) :
  perform (SessionDelete (Populate.entity_url base ty id)) w
  = (Raise RequestException, w') ->
  Populate.delete_entity base ty id w
  = (Ok false, w', [SessionDelete (Populate.entity_url base ty id)]).
Proof.
  intros H. unfold Populate.delete_entity, try_except, bind, do_call.
  rewrite H. reflexivity.
Qed.

(** A create request that fails in transport: the handler reads the
    name of the record for its log line and returns [None]. *)
Lemma create_venue_transport_failure (venue_data : json) (w w' : W) :
  perform (SessionPost (base ++ "/venues") venue_data) w
  = (Raise RequestException, w') ->
  Populate.create_venue base venue_data w
  = (match Py.getitem venue_data "name" with
     | Ok _ => Ok JNull
     | Raise e => Raise e
     end, w', [SessionPost (base ++ "/venues") venue_data]).
Proof.
  intros H. unfold Populate.create_venue, try_except, bind, do_call, lift.
  rewrite H. simpl. destruct (Py.getitem venue_data "name"); reflexivity.
Qed.

Lemma create_room_transport_failure (room_data : json) (w w' : W) :
  perform (SessionPost (base ++ "/rooms") room_data) w
  = (Raise RequestException, w') ->
  Populate.create_room base room_data w
  = (match Py.get room_data "name" (JStr "Unknown Room") with
     | Ok _ => Ok JNull
     | Raise e => Raise e
     end, w', [SessionPost (base ++ "/rooms") room_data]).
Proof.
  intros H. unfold Populate.create_room, try_except, bind, do_call, lift.
  rewrite H. simpl. destruct (Py.get room_data "name" _); reflexivity.
Qed.

Lemma create_event_transport_failure (event_data : json) (w w' : W) :
  perform (SessionPost (base ++ "/events") event_data) w
  = (Raise RequestException, w') ->
  Populate.create_event base event_data w
  = (match Py.get event_data "name" (JStr "Unknown Event") with
     | Ok _ => Ok JNull
     | Raise e => Raise e
     end, w', [SessionPost (base ++ "/events") event_data]).
Proof.
  intros H. unfold Populate.create_event, try_except, bind, do_call, lift.
  rewrite H. simpl. destruct (Py.get event_data "name" _); reflexivity.
Qed.

(** Whatever the server does, a list, create or delete method hands no
    [RequestException] to its caller. *)
Lemma get_all_never_propagates (path : string) (w : W) :
  result_of (Populate.get_all base path w) <> Raise RequestException.
Proof.
  unfold Populate.get_all, try_except, bind, do_call, raise_for_status,
    json_of, lift, raise, ret, result_of.
  destruct (perform _ w) as [[r|e] w1]; crunch; not_request_exception.
Qed.

Lemma create_venue_never_propagates (data : json) (w : W) :
  result_of (Populate.create_venue base data w) <> Raise RequestException.
Proof.
  unfold Populate.create_venue, try_except, bind, do_call, raise_for_status,
    json_of, lift, raise, ret, result_of.
  destruct (perform _ w) as [[r|e] w1]; crunch; not_request_exception.
Qed.

Lemma create_room_never_propagates (data : json) (w : W) :
  result_of (Populate.create_room base data w) <> Raise RequestException.
Proof.
  unfold Populate.create_room, try_except, bind, do_call, raise_for_status,
    json_of, lift, raise, ret, result_of.
  destruct (perform _ w) as [[r|e] w1]; crunch; not_request_exception.
Qed.

Lemma create_event_never_propagates (data : json) (w : W) :
  result_of (Populate.create_event base data w) <> Raise RequestException.
Proof.
  unfold Populate.create_event, try_except, bind, do_call, raise_for_status,
    json_of, lift, raise, ret, result_of.
  destruct (perform _ w) as [[r|e] w1]; crunch; not_request_exception.
Qed.

Lemma delete_entity_never_propagates (ty : string) (id : json) (w : W) :
  result_of (Populate.delete_entity base ty id w) <> Raise RequestException.
Proof.
  unfold Populate.delete_entity, try_except, bind, do_call,
    raise_for_status, raise, ret, result_of.
  destruct (perform _ w) as [[r|e] w1]; crunch; not_request_exception.
Qed.


(** When the request fails in transport, the list methods return the
    empty list, the delete method [False], [create_room] and
    [create_event] [None] for every dict, and [create_venue] [None] for
    every dict that carries a ["name"]; and whatever the server does and
    whatever the record, none of them lets a [RequestException] reach
    its caller. *)
Theorem client_methods_convert_transport_failures :
  forall w : W,
    (forall path w',
        perform (SessionGet (base ++ path) None) w
        = (Raise RequestException, w') ->
        result_of (Populate.get_all base path w) = Ok (JList []))
    /\ (forall (venue_data : dict) name w',
          Py.lookup "name" venue_data = Some name ->
          perform (SessionPost (base ++ "/venues") (JDict venue_data)) w
          = (Raise RequestException, w') ->
          result_of (Populate.create_venue base (JDict venue_data) w)
          = Ok JNull)
    /\ (forall (room_data : dict) w',
          perform (SessionPost (base ++ "/rooms") (JDict room_data)) w
          = (Raise RequestException, w') ->
          result_of (Populate.create_room base (JDict room_data) w)
          = Ok JNull)
    /\ (forall (event_data : dict) w',
          perform (SessionPost (base ++ "/events") (JDict event_data)) w
          = (Raise RequestException, w') ->
          result_of (Populate.create_event base (JDict event_data) w)
          = Ok JNull)
    /\ (forall ty id w',
          perform (SessionDelete (Populate.entity_url base ty id)) w
          = (Raise RequestException, w') ->
          result_of (Populate.delete_entity base ty id w) = Ok false)
    /\ (forall path,
          result_of (Populate.get_all base path w) <> Raise RequestException)
    /\ (forall data,
          result_of (Populate.create_venue base data w)
          <> Raise RequestException
          /\ result_of (Populate.create_room base data w)
             <> Raise RequestException
          /\ result_of (Populate.create_event base data w)
             <> Raise RequestException)
    /\ (forall ty id,
          result_of (Populate.delete_entity base ty id w)
          <> Raise RequestException).
Proof.
  intros w. repeat split.
  - intros path w' H. now rewrite (get_all_transport_failure _ _ _ H).
  - intros venue_data name w' Hname H.
    rewrite (create_venue_transport_failure _ _ _ H).
    simpl. now rewrite Hname.
  - intros room_data w' H.
    now rewrite (create_room_transport_failure _ _ _ H).
  - intros event_data w' H.
    now rewrite (create_event_transport_failure _ _ _ H).
  - intros ty id w' H.
    now rewrite (delete_entity_transport_failure _ _ _ _ H).
  - intros path. apply get_all_never_propagates.
  - apply create_venue_never_propagates.
  - apply create_room_never_propagates.
  - apply create_event_never_propagates.
  - intros ty id. apply delete_entity_never_propagates.
Qed.

End ClientProperties.

Lemma find_venue_by_name_first_match_witness :
  let s := Server.mkstore
             [Server.mkvenue 0 "A"; Server.mkvenue 1 "B"; Server.mkvenue 2 "B"]
             [] [] [] 3 (Date.mkdate 2025 1 15) in
  let listing := map Server.venue_json (Server.venues s) in
  let t := [SessionGet (Server.base ++ "/venues") None] in
  Populate.get_all_venues (P := Server.Reference) Server.base s
  = (Ok (JList listing), s, t)
  /\ forallb is_record listing = true
  /\ Populate.find_venue_by_name (P := Server.Reference) Server.base "B" s
     = (Ok (Server.venue_json (Server.mkvenue 1 "B")), s, t).
Proof.
  intros s listing t.
  split; [reflexivity|]. split; [reflexivity|].
  exact (proj1 (find_venue_by_name_first_match (P := Server.Reference)
                  Server.base "B" s s listing t eq_refl eq_refl)).
Defined.


Lemma client_methods_convert_transport_failures_witness :
  let venue_data := hd [] Populate.venues_data in
  perform (Platform := Offline)
    (SessionGet (Populate.default_api_base_url ++ "/venues") None) tt
  = (Raise RequestException, tt)
  /\ Py.lookup "name" venue_data = Some (JStr Populate.MONKEY_PUZZLE_VENUE)
  /\ result_of (Populate.get_all_venues (P := Offline)
                  Populate.default_api_base_url tt) = Ok (JList [])
  /\ result_of (Populate.create_venue (P := Offline)
                  Populate.default_api_base_url (JDict venue_data) tt)
     = Ok JNull
  /\ result_of (Populate.create_room (P := Offline)
                  Populate.default_api_base_url (JDict []) tt) = Ok JNull
  /\ result_of (Populate.create_event (P := Offline)
                  Populate.default_api_base_url (JDict []) tt) = Ok JNull
  /\ result_of (Populate.delete_entity (P := Offline)
                  Populate.default_api_base_url "venue" (JStr "v1") tt)
     = Ok false.
Proof.
  intros venue_data.
  destruct (client_methods_convert_transport_failures (P := Offline)
              Populate.default_api_base_url tt)
    as (Hget & Hvenue & Hroom & Hevent & Hdel & _).
  split; [reflexivity|]. split; [reflexivity|].
  split; [exact (Hget "/venues" tt eq_refl)|].
  split; [exact (Hvenue venue_data _ tt eq_refl eq_refl)|].
  split; [exact (Hroom [] tt eq_refl)|].
  split; [exact (Hevent [] tt eq_refl)|].
  exact (Hdel "venue" (JStr "v1") tt eq_refl).
Defined.

(** ** Traces *)

Section TraceLemmas.

Context {W : Type} {P : Platform W}.

Lemma do_call_trace (c : call) (w : W) : trace_of (do_call c w) = [c].
Proof. unfold do_call, trace_of. destruct (perform c w). reflexivity. Qed.

(** The trace of [m ;; f]: that of [m], followed by that of [f] when
    [m] returns. *)
Lemma bind_trace_cases {A B} (m : M W A) (f : A -> M W B) (w : W) :
  (exists e, result_of (m w) = Raise e
             /\ trace_of (bind m f w) = trace_of (m w)
             /\ result_of (bind m f w) = Raise e
             /\ world_of (bind m f w) = world_of (m w))
  \/ (exists a, result_of (m w) = Ok a
                /\ trace_of (bind m f w)
                   = (trace_of (m w)
                      ++ trace_of (f a (world_of (m w))))%list
                /\ result_of (bind m f w)
                   = result_of (f a (world_of (m w)))
                /\ world_of (bind m f w)
                   = world_of (f a (world_of (m w)))).
Proof.
  unfold bind, result_of, world_of, trace_of.
  destruct (m w) as [[[a|e] w1] t1]; simpl.
  - right. exists a. destruct (f a w1) as [[r w2] t2]. simpl. auto.
  - left. exists e. auto.
Qed.

Lemma bind_trace_prefix {A B} (m : M W A) (f : A -> M W B) (w : W) :
  exists rest, trace_of (bind m f w) = (trace_of (m w) ++ rest)%list.
Proof.
  destruct (bind_trace_cases m f w) as [(e & _ & H & _) | (a & _ & H & _)];
    rewrite H; [exists []; now rewrite app_nil_r | eauto].
Qed.

Lemma try_except_trace_cases {A} (m : M W A) c (h : exn -> M W A) (w : W) :
  (try_except m c h w = m w)
  \/ (exists e, result_of (m w) = Raise e /\ c e = true
                /\ trace_of (try_except m c h w)
                   = (trace_of (m w)
                      ++ trace_of (h e (world_of (m w))))%list
                /\ result_of (try_except m c h w)
                   = result_of (h e (world_of (m w)))
                /\ world_of (try_except m c h w)
                   = world_of (h e (world_of (m w)))).
Proof.
  unfold try_except, result_of, world_of, trace_of.
  destruct (m w) as [[[a|e] w1] t1]; simpl.
  - left. reflexivity.
  - destruct (c e) eqn:E.
    + right. exists e. destruct (h e w1) as [[r w2] t2]. simpl. auto.
    + left. reflexivity.
Qed.

Lemma try_except_trace_prefix {A} (m : M W A) c (h : exn -> M W A) (w : W) :
  exists rest, trace_of (try_except m c h w) = (trace_of (m w) ++ rest)%list.
Proof.
  destruct (try_except_trace_cases m c h w) as [H | (e & _ & _ & H & _)];
    rewrite H; [exists []; now rewrite app_nil_r | eauto].
Qed.

(** The constructors issue one call. *)
Lemma populate_init_trace (w : W) :
  trace_of (Populate.init w)
  = [SessionHeadersUpdate "Content-Type" "application/json"].
Proof. exact (do_call_trace _ w). Qed.

Lemma cleaner_init_trace (w : W) :
  trace_of (DeleteAll.init w)
  = [SessionHeadersUpdate "Content-Type" "application/json"].
Proof. exact (do_call_trace _ w). Qed.

Lemma prompt_precedes_nil : prompt_precedes_deletes [].
Proof. intros t1 c t2 H. destruct t1; discriminate H. Qed.

Lemma prompt_precedes_input (p : string) (t : list call) :
  prompt_precedes_deletes (Input p :: t).
Proof.
  intros t1 c t2 H Hdel. destruct t1 as [|c1 t1].
  - simpl in H. injection H as <- _. discriminate Hdel.
  - simpl in H. injection H as <- _. reflexivity.
Qed.

Lemma prompt_precedes_cons (c0 : call) (t : list call) :
  is_delete c0 = false ->
  prompt_precedes_deletes t -> prompt_precedes_deletes (c0 :: t).
Proof.
  intros H0 Ht t1 c t2 H Hdel. destruct t1 as [|c1 t1].
  - simpl in H. injection H as <- _. congruence.
  - simpl in H. injection H as <- H. simpl.
    rewrite (Ht t1 c t2 H Hdel). apply orb_true_r.
Qed.

End TraceLemmas.

(** ** The reachability probe *)

Section Probe.

Context {W : Type} {P : Platform W}.

Lemma populate_check_server_no_mutation (base : string) (w : W) :
  existsb is_mutation (trace_of (Populate.check_server base w)) = false.
Proof.
  unfold Populate.check_server, try_except, bind, do_call, ret, trace_of.
  destruct (perform _ w) as [[r|e] w1]; simpl; [reflexivity|].
  destruct (is_RequestException e); simpl; [|reflexivity].
  destruct (perform _ w1) as [[r|e'] w2]; simpl; [reflexivity|].
  destruct (is_RequestException e'); reflexivity.
Qed.

Lemma cleaner_check_server_no_mutation (base : string) (w : W) :
  existsb is_mutation (trace_of (DeleteAll.check_server base w)) = false.
Proof.
  unfold DeleteAll.check_server, try_except, bind, do_call, ret, trace_of.
  destruct (perform _ w) as [[r|e] w1]; simpl; [reflexivity|].
  destruct (is_RequestException e); reflexivity.
Qed.

Lemma populate_data_probe_fails (base : string) (w w1 : W) (t : list call) :
  Populate.check_server base w = (Ok false, w1, t) ->
  Populate.populate_data base w = (Raise (SystemExit 1), w1, t).
Proof.
  intros H. unfold Populate.populate_data.
  rewrite (bind_ok _ _ _ _ _ _ H). simpl.
  unfold result_of, world_of, trace_of, sys_exit, raise. simpl.
  now rewrite app_nil_r.
Qed.

Lemma cleanup_all_data_probe_fails (base : string) (w w1 : W)
      (t : list call) :
  DeleteAll.check_server base w = (Ok false, w1, t) ->
  DeleteAll.cleanup_all_data base w = (Raise (SystemExit 1), w1, t).
Proof.
  intros H. unfold DeleteAll.cleanup_all_data.
  rewrite (bind_ok _ _ _ _ _ _ H). simpl.
  unfold result_of, world_of, trace_of, sys_exit, raise. simpl.
  now rewrite app_nil_r.
Qed.

(** C5: when the probe answers that the server is not reachable, the
    populate script ends with exit status 1 having issued, after the
    call of its constructor, the calls of the probe only, and so does
    the cleanup script once the user has confirmed; none of these calls
    creates or deletes anything. *)
Theorem unreachable_server_exits_before_any_mutation :
  (forall (w w0 w1 : W) (t : list call),
      perform (SessionHeadersUpdate "Content-Type" "application/json") w
      = (Ok tt, w0) ->
      Populate.check_server Populate.default_api_base_url w0
      = (Ok false, w1, t) ->
      Populate.main w
      = (Raise (SystemExit 1), w1,
         SessionHeadersUpdate "Content-Type" "application/json" :: t)
      /\ exit_status (result_of (Populate.main w)) = 1
      /\ existsb is_mutation (trace_of (Populate.main w)) = false)
  /\ (forall (w w0 w1 w2 : W) (answer : string) (t : list call),
        perform (SessionHeadersUpdate "Content-Type" "application/json") w
        = (Ok tt, w0) ->
        perform (Input DeleteAll.prompt) w0 = (Ok answer, w1) ->
        DeleteAll.confirmed answer = true ->
        DeleteAll.check_server DeleteAll.default_api_base_url w1
        = (Ok false, w2, t) ->
        DeleteAll.main w
        = (Raise (SystemExit 1), w2,
           SessionHeadersUpdate "Content-Type" "application/json"
           :: Input DeleteAll.prompt :: t)
        /\ exit_status (result_of (DeleteAll.main w)) = 1
        /\ existsb is_mutation (trace_of (DeleteAll.main w)) = false).
Proof.
  split.
  - intros w w0 w1 t Hinit H.
    assert (Hmain : Populate.main w
                    = (Raise (SystemExit 1), w1,
                       SessionHeadersUpdate "Content-Type" "application/json"
                       :: t)).
    { unfold Populate.main, Populate.init, bind at 1, do_call.
      rewrite Hinit. unfold try_except2, try_except.
      rewrite (populate_data_probe_fails _ _ _ _ H). reflexivity. }
    rewrite Hmain. split; [reflexivity|]. split; [reflexivity|].
    pose proof (populate_check_server_no_mutation
                  Populate.default_api_base_url w0) as Hm.
    rewrite H in Hm. exact Hm.
  - intros w w0 w1 w2 answer t Hinit Hin Hyes H.
    assert (Hmain : DeleteAll.main w
                    = (Raise (SystemExit 1), w2,
                       SessionHeadersUpdate "Content-Type" "application/json"
                       :: Input DeleteAll.prompt :: t)).
    { unfold DeleteAll.main, DeleteAll.init, bind at 1, do_call.
      rewrite Hinit. unfold try_except2, try_except, bind, do_call.
      rewrite Hin, Hyes. simpl.
      rewrite (cleanup_all_data_probe_fails _ _ _ _ H). reflexivity. }
    rewrite Hmain. split; [reflexivity|]. split; [reflexivity|].
    pose proof (cleaner_check_server_no_mutation
                  DeleteAll.default_api_base_url w1) as Hm.
    rewrite H in Hm. exact Hm.
Qed.

End Probe.

Lemma unreachable_server_exits_before_any_mutation_witness :
  perform (Platform := Offline)
    (SessionHeadersUpdate "Content-Type" "application/json") tt = (Ok tt, tt)
  /\ Populate.check_server (P := Offline) Populate.default_api_base_url tt
     = (Ok false, tt,
        [SessionGet "http://localhost:3001/" (Some 5);
         SessionGet "http://localhost:3001/api/venues" (Some 5)])
  /\ exit_status (result_of (Populate.main (P := Offline) tt)) = 1
  /\ existsb is_mutation (trace_of (Populate.main (P := Offline) tt)) = false
  /\ perform (Platform := Terminal)
       (SessionHeadersUpdate "Content-Type" "application/json") ["yes"]
     = (Ok tt, ["yes"])
  /\ perform (Platform := Terminal) (Input DeleteAll.prompt) ["yes"]
     = (Ok "yes", [])
  /\ DeleteAll.confirmed "yes" = true
  /\ DeleteAll.check_server (P := Terminal) DeleteAll.default_api_base_url []
     = (Ok false, [], [SessionGet "http://localhost:3001/api/venues" (Some 5)])
  /\ exit_status (result_of (DeleteAll.main (P := Terminal) ["yes"])) = 1
  /\ existsb is_mutation (trace_of (DeleteAll.main (P := Terminal) ["yes"]))
     = false.
Proof.
  destruct (unreachable_server_exits_before_any_mutation (P := Offline))
    as [Hp _].
  destruct (unreachable_server_exits_before_any_mutation (P := Terminal))
    as [_ Hc].
  destruct (Hp tt tt tt _ eq_refl eq_refl) as (_ & Hp1 & Hp2).
  destruct (Hc ["yes"] ["yes"] [] [] "yes" _ eq_refl eq_refl eq_refl eq_refl)
    as (_ & Hc1 & Hc2).
  split; [reflexivity|]. split; [reflexivity|].
  split; [exact Hp1|]. split; [exact Hp2|].
  split; [reflexivity|]. split; [reflexivity|]. split; [reflexivity|].
  split; [reflexivity|]. split; [exact Hc1|exact Hc2].
Defined.

(** ** Confirmation before deleting *)

Section Confirmation.

Context {W : Type} {P : Platform W}.

Lemma delete_all_main_starts_with_prompt (w : W) :
  exists rest,
    trace_of (DeleteAll.main w)
    = SessionHeadersUpdate "Content-Type" "application/json" :: rest
    /\ (rest = [] \/ exists rest',
           rest = Input DeleteAll.prompt :: rest').
Proof.
  unfold DeleteAll.main.
  match goal with
  | |- context [bind ?m ?f w] =>
      destruct (bind_trace_cases m f w)
        as [(e & _ & Hb & _) | (a & _ & Hb & _)]
  end; rewrite Hb, cleaner_init_trace; clear Hb.
  - exists []. auto.
  - eexists. split; [reflexivity|]. right.
    unfold try_except2.
    match goal with
    | |- context [try_except ?m ?c ?h ?w'] =>
        destruct (try_except_trace_prefix m c h w') as [r1 ->]
    end.
    match goal with
    | |- context [bind ?m ?f ?w'] =>
        destruct (bind_trace_prefix m f w') as [r2 ->]
    end.
    rewrite do_call_trace. simpl. eauto.
Qed.

Lemma list_events_trace (w : W) :
  trace_of (DeleteSpecificEvents.list_events w)
  = [TableScan DeleteSpecificEvents.events_table None None].
Proof.
  unfold DeleteSpecificEvents.list_events, try_except, bind, do_call,
    ret, trace_of.
  destruct (perform _ w) as [[r|e] w1]; simpl; [reflexivity|].
  destruct (is_Exception e); reflexivity.
Qed.

Lemma delete_specific_main_prompts_first (w : W) :
  exists rest,
    trace_of (DeleteSpecificEvents.main w)
    = TableScan DeleteSpecificEvents.events_table None None :: rest
    /\ (rest = [] \/ exists rest',
           rest = Input DeleteSpecificEvents.prompt :: rest').
Proof.
  unfold DeleteSpecificEvents.main.
  match goal with
  | |- context [bind ?m ?f w] =>
      destruct (bind_trace_cases m f w)
        as [(e & _ & Hb & _) | (a & _ & Hb & _)]
  end; rewrite Hb, list_events_trace.
  - exists []. auto.
  - eexists. split; [reflexivity|]. right.
    match goal with
    | |- context [bind ?m ?f ?w'] =>
        destruct (bind_trace_prefix m f w') as [r2 ->]
    end.
    rewrite do_call_trace. simpl. eauto.
Qed.

(** C4, as the code has it: both destructive scripts ask at the terminal
    before any deleting call, and an answer that is not a confirmation
    ends the script with exit status 0 and without a deleting call:
    delete-all through [sys.exit(0)], delete-specific-events by
    returning from [main]. *)
Theorem declined_confirmation_exits_zero_without_delete :
  (forall w : W, prompt_precedes_deletes (trace_of (DeleteAll.main w)))
  /\ (forall w : W,
        prompt_precedes_deletes (trace_of (DeleteSpecificEvents.main w)))
  /\ (forall (w w0 w1 : W) (answer : string),
        perform (SessionHeadersUpdate "Content-Type" "application/json") w
        = (Ok tt, w0) ->
        perform (Input DeleteAll.prompt) w0 = (Ok answer, w1) ->
        DeleteAll.confirmed answer = false ->
        DeleteAll.main w
        = (Raise (SystemExit 0), w1,
           [SessionHeadersUpdate "Content-Type" "application/json";
            Input DeleteAll.prompt])
        /\ exit_status (result_of (DeleteAll.main w)) = 0
        /\ existsb is_delete (trace_of (DeleteAll.main w)) = false)
  /\ (forall (w w1 w2 : W) (answer : string) (t : list call),
        DeleteSpecificEvents.list_events w = (Ok tt, w1, t) ->
        perform (Input DeleteSpecificEvents.prompt) w1 = (Ok answer, w2) ->
        DeleteSpecificEvents.confirmed answer = false ->
        DeleteSpecificEvents.main w
        = (Ok tt, w2,
           [TableScan DeleteSpecificEvents.events_table None None;
            Input DeleteSpecificEvents.prompt])
        /\ exit_status (result_of (DeleteSpecificEvents.main w)) = 0
        /\ existsb is_delete (trace_of (DeleteSpecificEvents.main w))
           = false).
Proof.
  split; [|split; [|split]].
  - intros w.
    destruct (delete_all_main_starts_with_prompt w)
      as (rest & -> & [-> | (rest' & ->)]).
    + apply prompt_precedes_cons; [reflexivity|apply prompt_precedes_nil].
    + apply prompt_precedes_cons; [reflexivity|].
      apply prompt_precedes_input.
  - intros w.
    destruct (delete_specific_main_prompts_first w)
      as (rest & -> & [-> | (rest' & ->)]).
    + apply prompt_precedes_cons; [reflexivity|apply prompt_precedes_nil].
    + apply prompt_precedes_cons; [reflexivity|].
      apply prompt_precedes_input.
  - intros w w0 w1 answer Hinit Hin Hno.
    assert (Hmain : DeleteAll.main w
                    = (Raise (SystemExit 0), w1,
                       [SessionHeadersUpdate "Content-Type"
                          "application/json";
                        Input DeleteAll.prompt])).
    { unfold DeleteAll.main, DeleteAll.init, bind at 1, do_call.
      rewrite Hinit. unfold try_except2, try_except, bind, do_call.
      rewrite Hin, Hno. reflexivity. }
    rewrite Hmain. split; [reflexivity|]. split; reflexivity.
  - intros w w1 w2 answer t Hlist Hin Hno.
    pose proof (list_events_trace w) as Ht. rewrite Hlist in Ht.
    unfold trace_of in Ht. simpl in Ht. subst t.
    assert (Hmain : DeleteSpecificEvents.main w
                    = (Ok tt, w2,
                       [TableScan DeleteSpecificEvents.events_table
                                  None None;
                        Input DeleteSpecificEvents.prompt])).
    { unfold DeleteSpecificEvents.main.
      rewrite (bind_ok _ _ _ _ _ _ Hlist).
      unfold bind, do_call. rewrite Hin, Hno. reflexivity. }
    rewrite Hmain. split; [reflexivity|]. split; reflexivity.
Qed.

End Confirmation.

Lemma declined_confirmation_exits_zero_without_delete_witness :
  perform (Platform := Terminal)
    (SessionHeadersUpdate "Content-Type" "application/json") ["no"]
  = (Ok tt, ["no"])
  /\ perform (Platform := Terminal) (Input DeleteAll.prompt) ["no"]
     = (Ok "no", [])
  /\ DeleteAll.confirmed "no" = false
  /\ exit_status (result_of (DeleteAll.main (P := Terminal) ["no"])) = 0
  /\ DeleteSpecificEvents.confirmed "y" = false
  /\ DeleteSpecificEvents.confirmed framed_yes = true
  /\ exit_status (result_of (DeleteSpecificEvents.main (P := Terminal) ["y"]))
     = 0.
Proof.
  destruct (declined_confirmation_exits_zero_without_delete (P := Terminal))
    as (_ & _ & Ha & Hs).
  destruct (Ha ["no"] ["no"] [] "no" eq_refl eq_refl eq_refl) as (_ & Ha1 & _).
  destruct (Hs ["y"] ["y"] [] "y" _ eq_refl eq_refl eq_refl) as (_ & Hs1 & _).
  split; [reflexivity|]. split; [reflexivity|]. split; [reflexivity|].
  split; [exact Ha1|]. split; [reflexivity|]. split; [reflexivity|].
  exact Hs1.
Defined.

(** C4, as stated, fails: the user answers "no" to delete-all, which is not
    a confirmation, and the process ends with exit status 0, not with a
    nonzero one. *)
Lemma declined_delete_all_status_is_not_nonzero :
  DeleteAll.confirmed "no" = false
  /\ ~ (exit_status (result_of (DeleteAll.main (P := Terminal) ["no"])) <> 0).
Proof.
  split; [reflexivity|].
  intros H. apply H. reflexivity.
Qed.

(** ** What a script emits *)

Section Emits.

Context {W : Type} {P : Platform W}.

Lemma emits_ret {A} (Q : call -> Prop) (a : A) : emits (W := W) Q (ret a).
Proof. intros w. constructor. Qed.

Lemma emits_raise {A} (Q : call -> Prop) (e : exn) :
  emits (W := W) (A := A) Q (raise e).
Proof. intros w. constructor. Qed.

Lemma emits_lift {A} (Q : call -> Prop) (r : res A) :
  emits (W := W) Q (lift r).
Proof. intros w. constructor. Qed.

Lemma emits_do_call (Q : call -> Prop) (c : call) :
  Q c -> emits Q (do_call c).
Proof.
  intros H w. rewrite do_call_trace. constructor; [exact H|constructor].
Qed.

Lemma emits_bind {A B} (Q : call -> Prop) (m : M W A) (f : A -> M W B) :
  emits Q m -> (forall a, emits Q (f a)) -> emits Q (bind m f).
Proof.
  intros Hm Hf w.
  destruct (bind_trace_cases m f w) as [(e & _ & H & _) | (a & _ & H & _)];
    rewrite H.
  - apply Hm.
  - apply Forall_app. split; [apply Hm | apply Hf].
Qed.

Lemma emits_try_except {A} (Q : call -> Prop) (m : M W A) c
      (h : exn -> M W A) :
  emits Q m -> (forall e, emits Q (h e)) -> emits Q (try_except m c h).
Proof.
  intros Hm Hh w.
  destruct (try_except_trace_cases m c h w) as [H | (e & _ & _ & H & _)];
    rewrite H.
  - apply Hm.
  - apply Forall_app. split; [apply Hm | apply Hh].
Qed.

Lemma emits_for_fold {A S} (Q : call -> Prop) (body : A -> S -> M W S) :
  (forall x s, emits Q (body x s)) ->
  forall l s, emits Q (for_fold l s body).
Proof.
  intros Hbody. induction l as [|x l IH]; intros s; simpl.
  - apply emits_ret.
  - apply emits_bind; [apply Hbody | intros s'; apply IH].
Qed.

Lemma emits_for_each {A} (Q : call -> Prop) (body : A -> M W unit) :
  (forall x, emits Q (body x)) ->
  forall l, emits Q (for_each l body).
Proof.
  intros Hbody. induction l as [|x l IH]; simpl.
  - apply emits_ret.
  - apply emits_bind; [apply Hbody | intros _; apply IH].
Qed.

Lemma emits_raise_for_status (Q : call -> Prop) (r : response) :
  emits (W := W) Q (raise_for_status r).
Proof.
  unfold raise_for_status.
  destruct (_ && _); [apply emits_raise | apply emits_ret].
Qed.

End Emits.

(** Proves an [emits] goal by following the structure of the script. *)
Ltac emits_step :=
  match goal with
  | |- emits _ (bind _ _) => apply emits_bind; [|intros ?]
  | |- emits _ (try_except _ _ _) => apply emits_try_except; [|intros ?]
  | |- emits _ (for_fold _ _ _) => apply emits_for_fold; intros ? ?
  | |- emits _ (for_each _ _) => apply emits_for_each; intros ?
  | |- emits _ (ret _) => apply emits_ret
  | |- emits _ (raise _) => apply emits_raise
  | |- emits _ (sys_exit _) => apply emits_raise
  | |- emits _ (lift _) => apply emits_lift
  | |- emits _ (json_of _) => apply emits_lift
  | |- emits _ (raise_for_status _) => apply emits_raise_for_status
  | |- emits _ (do_call _) => apply emits_do_call
  | |- emits _ (if ?b then _ else _) => destruct b
  | |- emits _ (match ?x with _ => _ end) => destruct x
  end.

(** ** The cleanup script deletes in dependency order *)

Section CleanupOrder.

Context {W : Type} {P : Platform W}.
Variable base : string.

Lemma append_cancel_l (a x y : string) : a ++ x = a ++ y -> x = y.
Proof.
  induction a as [|c a IH]; simpl; intros H; [exact H|].
  injection H as H. exact (IH H).
Qed.

(** The three kinds of delete requests have different URLs. *)
Lemma deletes_event_not_room (c : call) :
  deletes base "event" c -> ~ deletes base "room" c.
Proof.
  intros [i ->] [j H]. injection H as H.
  unfold DeleteAll.entity_url in H. apply append_cancel_l in H.
  discriminate H.
Qed.

Lemma deletes_event_not_venue (c : call) :
  deletes base "event" c -> ~ deletes base "venue" c.
Proof.
  intros [i ->] [j H]. injection H as H.
  unfold DeleteAll.entity_url in H. apply append_cancel_l in H.
  discriminate H.
Qed.

Lemma deletes_room_not_venue (c : call) :
  deletes base "room" c -> ~ deletes base "venue" c.
Proof.
  intros [i ->] [j H]. injection H as H.
  unfold DeleteAll.entity_url in H. apply append_cancel_l in H.
  discriminate H.
Qed.

Lemma deletes_is_delete (ty : string) (c : call) :
  deletes base ty c -> is_delete c = true.
Proof. intros [i ->]. reflexivity. Qed.

Lemma check_server_emits_no_delete :
  emits (fun c => is_delete c = false) (DeleteAll.check_server base).
Proof.
  unfold DeleteAll.check_server. repeat emits_step; reflexivity.
Qed.

Lemma delete_all_entities_emits (ty : string) :
  emits (deletes_only base ty) (DeleteAll.delete_all_entities base ty).
Proof.
  unfold DeleteAll.delete_all_entities, DeleteAll.get_all_entities,
    DeleteAll.delete_one, DeleteAll.delete_entity.
  repeat emits_step; intros Hd; try discriminate Hd.
  eexists. reflexivity.
Qed.

(** The trace of [cleanup_all_data] falls into four consecutive phases:
    the probe, which deletes nothing, then the phases of the events, of
    the rooms and of the venues. *)
Lemma cleanup_all_data_phases (w : W) :
  exists t0 te tr tv,
    trace_of (DeleteAll.cleanup_all_data base w)
    = (t0 ++ te ++ tr ++ tv)%list
    /\ Forall (fun c => is_delete c = false) t0
    /\ Forall (deletes_only base "event") te
    /\ Forall (deletes_only base "room") tr
    /\ Forall (deletes_only base "venue") tv.
Proof.
  unfold DeleteAll.cleanup_all_data.
  pose proof (check_server_emits_no_delete w) as H0.
  match goal with
  | |- context [bind ?m ?f w] =>
      destruct (bind_trace_cases m f w)
        as [(e & _ & Ht & _) | (up & _ & Ht & _)]
  end; rewrite Ht; clear Ht.
  { exists (trace_of (DeleteAll.check_server base w)), [], [], [].
    rewrite !app_nil_r. auto. }
  set (w1 := world_of (DeleteAll.check_server base w)).
  destruct up; simpl.
  2:{ exists (trace_of (DeleteAll.check_server base w)), [], [], [].
      unfold sys_exit, raise, trace_of at 2. simpl. auto. }
  pose proof (delete_all_entities_emits "event" w1) as He.
  match goal with
  | |- context [bind ?m ?f w1] =>
      destruct (bind_trace_cases m f w1)
        as [(e & _ & Ht & _) | (n1 & _ & Ht & _)]
  end; rewrite Ht; clear Ht.
  { exists (trace_of (DeleteAll.check_server base w)),
      (trace_of (DeleteAll.delete_all_entities base "event" w1)), [], [].
    rewrite !app_nil_r. auto. }
  set (w2 := world_of (DeleteAll.delete_all_entities base "event" w1)).
  pose proof (delete_all_entities_emits "room" w2) as Hr.
  match goal with
  | |- context [bind ?m ?f w2] =>
      destruct (bind_trace_cases m f w2)
        as [(e & _ & Ht & _) | (n2 & _ & Ht & _)]
  end; rewrite Ht; clear Ht.
  { exists (trace_of (DeleteAll.check_server base w)),
      (trace_of (DeleteAll.delete_all_entities base "event" w1)),
      (trace_of (DeleteAll.delete_all_entities base "room" w2)), [].
    rewrite !app_nil_r. auto. }
  set (w3 := world_of (DeleteAll.delete_all_entities base "room" w2)).
  pose proof (delete_all_entities_emits "venue" w3) as Hv.
  match goal with
  | |- context [bind ?m ?f w3] =>
      destruct (bind_trace_cases m f w3)
        as [(e & _ & Ht & _) | (n3 & _ & Ht & _)]
  end; rewrite Ht; clear Ht.
  - exists (trace_of (DeleteAll.check_server base w)),
      (trace_of (DeleteAll.delete_all_entities base "event" w1)),
      (trace_of (DeleteAll.delete_all_entities base "room" w2)),
      (trace_of (DeleteAll.delete_all_entities base "venue" w3)).
    auto.
  - exists (trace_of (DeleteAll.check_server base w)),
      (trace_of (DeleteAll.delete_all_entities base "event" w1)),
      (trace_of (DeleteAll.delete_all_entities base "room" w2)),
      (trace_of (DeleteAll.delete_all_entities base "venue" w3)).
    unfold ret, trace_of at 5. simpl. rewrite app_nil_r. auto.
Qed.

(** Where an element of a concatenation lies. *)
Lemma split_at_element {A} (t1 t2 a b : list A) (c : A) :
  (t1 ++ c :: t2 = a ++ b)%list ->
  (In c a /\ forall x, In x t2 -> In x (a ++ b)%list)
  \/ (exists b1, b = (b1 ++ c :: t2)%list).
Proof.
  revert t1. induction a as [|y a IH]; intros t1 H.
  - right. exists t1. simpl in H. now rewrite H.
  - destruct t1 as [|z t1]; simpl in H; injection H as -> H.
    + left. split; [now left|]. intros x Hx. right. rewrite <- H. exact Hx.
    + destruct (IH t1 H) as [[Hc Hrest] | [b1 Hb]].
      * left. split; [now right|]. intros x Hx. right. auto.
      * right. eauto.
Qed.

(** In every run of [cleanup_all_data], once a room or a venue has been
    deleted no event is deleted any more, and once a venue has been
    deleted no room is deleted any more; every deleting call is the
    delete of an event, a room or a venue. *)
Lemma cleanup_all_data_order :
  forall (w : W) (t1 t2 : list call) (c : call),
    trace_of (DeleteAll.cleanup_all_data base w) = (t1 ++ c :: t2)%list ->
    (deletes base "room" c \/ deletes base "venue" c ->
     forall c', In c' t2 -> ~ deletes base "event" c')
    /\ (deletes base "venue" c ->
        forall c', In c' t2 -> ~ deletes base "room" c')
    /\ (is_delete c = true ->
        deletes base "event" c \/ deletes base "room" c
        \/ deletes base "venue" c).
Proof.
  intros w t1 t2 c Htrace.
  destruct (cleanup_all_data_phases w)
    as (t0 & te & tr & tv & Hsplit & H0 & He & Hr & Hv).
  rewrite Hsplit in Htrace. clear Hsplit. symmetry in Htrace.
  rewrite Forall_forall in H0, He, Hr, Hv.
  assert (Hroom_or_venue :
    forall x, In x (tr ++ tv)%list -> ~ deletes base "event" x).
  { intros x Hx Hev. apply in_app_or in Hx as [Hx | Hx].
    - apply (deletes_event_not_room x Hev).
      apply (Hr x Hx). now apply deletes_is_delete with (ty := "event").
    - apply (deletes_event_not_venue x Hev).
      apply (Hv x Hx). now apply deletes_is_delete with (ty := "event"). }
  assert (Hvenue : forall x, In x tv -> ~ deletes base "room" x).
  { intros x Hx Hro. apply (deletes_room_not_venue x Hro).
    apply (Hv x Hx). now apply deletes_is_delete with (ty := "room"). }
  destruct (split_at_element _ _ _ _ _ Htrace) as [[Hc _] | [b1 Hb1]].
  { (* [c] belongs to the probe *)
    pose proof (H0 c Hc) as Hnd.
    repeat split.
    - intros [Hd | Hd]; apply deletes_is_delete in Hd; congruence.
    - intros Hd; apply deletes_is_delete in Hd; congruence.
    - congruence. }
  symmetry in Hb1.
  destruct (split_at_element _ _ _ _ _ Hb1) as [[Hc _] | [b2 Hb2]].
  { (* [c] belongs to the phase of the events *)
    repeat split.
    - intros [Hd | Hd] c' _ _.
      + apply (deletes_event_not_room c); [|exact Hd].
        apply (He c Hc). now apply deletes_is_delete with (ty := "room").
      + apply (deletes_event_not_venue c); [|exact Hd].
        apply (He c Hc). now apply deletes_is_delete with (ty := "venue").
    - intros Hd c' _ _.
      apply (deletes_event_not_venue c); [|exact Hd].
      apply (He c Hc). now apply deletes_is_delete with (ty := "venue").
    - intros Hd. left. exact (He c Hc Hd). }
  symmetry in Hb2.
  assert (Hin2 : forall x, In x t2 -> In x (tr ++ tv)%list).
  { intros x Hx. rewrite <- Hb2. apply in_or_app. right. now right. }
  destruct (split_at_element _ _ _ _ _ Hb2) as [[Hc _] | [b3 Hb3]].
  { (* [c] belongs to the phase of the rooms *)
    repeat split.
    - intros _ c' Hc'. apply Hroom_or_venue, Hin2, Hc'.
    - intros Hd c' _ _.
      apply (deletes_room_not_venue c); [|exact Hd].
      apply (Hr c Hc). now apply deletes_is_delete with (ty := "venue").
    - intros Hd. right. left. exact (Hr c Hc Hd). }
  (* [c] belongs to the phase of the venues *)
  assert (Hin3 : forall x, In x t2 -> In x tv).
  { intros x Hx. rewrite Hb3. apply in_or_app. right. now right. }
  assert (Hc : In c tv).
  { rewrite Hb3. apply in_or_app. right. now left. }
  repeat split.
  - intros _ c' Hc'. apply Hroom_or_venue, Hin2, Hc'.
  - intros _ c' Hc'. apply Hvenue, Hin3, Hc'.
  - intros Hd. right. right. exact (Hv c Hc Hd).
Qed.

End CleanupOrder.

(** ** Replaying a trace *)

Section ReplayLemmas.

Context {W : Type} {P : Platform W}.

Lemma after_app (t1 t2 : list call) :
  forall w : W, after (t1 ++ t2) w = after t2 (after t1 w).
Proof. induction t1 as [|c t1 IH]; intros w; [reflexivity|apply IH]. Qed.

Lemma replay_app (t1 t2 : list call) :
  forall w : W,
    replay (t1 ++ t2) w = (replay t1 w ++ replay t2 (after t1 w))%list.
Proof.
  induction t1 as [|c t1 IH]; intros w; [reflexivity|].
  cbn [app replay after]. now rewrite IH.
Qed.

Lemma accepted_deletes_app (t1 t2 : list call) (w : W) :
  accepted_deletes (t1 ++ t2) w
  = accepted_deletes t1 w + accepted_deletes t2 (after t1 w).
Proof.
  unfold accepted_deletes. rewrite replay_app, filter_app, length_app. lia.
Qed.

Lemma without_pauses_app (t1 t2 : list call) :
  without_pauses (t1 ++ t2) = (without_pauses t1 ++ without_pauses t2)%list.
Proof. apply filter_app. Qed.

Lemma paused_after_accepted_nil : paused_after_accepted (W := W) [].
Proof. intros r1 url w r2 H. destruct r1; discriminate H. Qed.

Lemma paused_after_accepted_app (a b : list (call * W)) :
  paused_after_accepted a -> paused_after_accepted b ->
  paused_after_accepted (a ++ b).
Proof.
  intros Ha Hb r1 url w r2 H Hacc.
  apply app_eq_app in H as [l [[Hl Hr] | [Hl Hr]]].
  - destruct l as [|x l].
    + cbn [app] in Hr. apply (Hb [] url w r2); [now rewrite <- Hr|exact Hacc].
    + cbn [app] in Hr. injection Hr as <- ->.
      destruct (Ha r1 url w l Hl Hacc) as (w' & r3 & ->).
      exists w', (r3 ++ b)%list. reflexivity.
  - exact (Hb l url w r2 Hr Hacc).
Qed.

(** A call that is no delete request stands before a paced replay. *)
Lemma paused_after_accepted_cons (c : call) (w : W) (r : list (call * W)) :
  is_delete c = false ->
  paused_after_accepted r -> paused_after_accepted ((c, w) :: r).
Proof.
  intros Hc Hr. apply (paused_after_accepted_app [(c, w)] r); [|exact Hr].
  intros r1 url w0 r2 H _.
  destruct r1 as [|x r1]; cbn [app] in H.
  - injection H as -> _ _. discriminate Hc.
  - injection H as _ H. destruct r1; discriminate H.
Qed.

End ReplayLemmas.

(** ** The runs of the cleanup script *)

Section CleanupRuns.

Context {W : Type} {P : Platform W}.
Variable base : string.

(** What a run of the loop over the records of one type amounts to:
    the world reached is the one the calls lead to; without the pauses
    the calls are the delete requests for the ids of the records, in
    listing order; the counter goes up by the number of requests the
    server accepted, which is the number of pauses; and each accepted
    request is followed by its pause. *)
Abbreviation amounts_to ty records n0 w n wf t :=
  (wf = after t w
   /\ without_pauses t
      = cleanup_requests base ty (ids_of (ty ++ "Id") records)
   /\ n = n0 + accepted_deletes t w
   /\ accepted_deletes t w = count_calls is_sleep t
   /\ paused_after_accepted (replay t w)).

Lemma delete_one_runs (ty : string) (entity : json) (n0 n : Z)
      (w w1 : W) (t : list call) :
  DeleteAll.delete_one base ty entity n0 w = (Ok n, w1, t) ->
  amounts_to ty [entity] n0 w n w1 t.
Proof.
  unfold DeleteAll.delete_one, DeleteAll.delete_entity, try_except, bind,
    lift, do_call, raise_for_status, raise, ret, ids_of, accepts.
  cbn [flat_map]. rewrite app_nil_r.
  destruct (Py.get entity (ty ++ "Id") JNull) as [entity_id|e];
    [|discriminate].
  destruct (Py.get entity (ty ++ "Name") (JStr "Unknown")) as [inner|e];
    [|discriminate].
  destruct (Py.get entity "name" inner) as [name|e]; [|discriminate].
  destruct (Py.truthy entity_id).
  2:{ intros H. injection H as <- <- <-.
      repeat split; [cbn; lia|apply paused_after_accepted_nil]. }
  unfold accepted_deletes, paused_after_accepted, is_accepted_delete, accepts.
  cbn [replay List.filter fst snd cleanup_requests map without_pauses
       is_sleep negb app after].
  destruct (perform (SessionDelete _) w) as [[r|e] w'] eqn:Edel;
    cbn [fst snd].
  - destruct ((400 <=? status_code r) && (status_code r <? 600)) eqn:Es;
      cbn [negb is_RequestException List.filter List.length app].
    + intros H. injection H as <- <- <-.
      cbn [replay List.filter fst snd cleanup_requests map without_pauses
           is_sleep negb app after]. rewrite Edel. cbn [fst snd].
      rewrite Es. cbn [negb List.filter List.length].
      repeat split; try (cbn; lia).
      intros r1 url w0 r2 H Hacc.
      destruct r1 as [|x r1]; cbn [app] in H.
      * injection H as <- <- _. rewrite Edel in Hacc. cbn [fst] in Hacc.
        rewrite Es in Hacc. discriminate Hacc.
      * injection H as _ H. destruct r1; discriminate H.
    + destruct (perform (Sleep 100) w') as [[[]|e] w''] eqn:Esl;
        [|discriminate].
      intros H. injection H as <- <- <-.
      cbn [replay List.filter fst snd cleanup_requests map without_pauses
           is_sleep negb app after]. rewrite Edel. cbn [fst snd].
      rewrite Es, Esl. cbn [negb List.filter List.length fst snd].
      repeat split; try (cbn; lia).
      intros r1 url w0 r2 H Hacc.
      destruct r1 as [|x r1]; cbn [app] in H.
      * injection H as _ _ <-. eauto.
      * injection H as _ H. destruct r1 as [|y r1]; cbn [app] in H.
        -- discriminate H.
        -- injection H as _ H. destruct r1; discriminate H.
  - destruct (is_RequestException e); [|discriminate].
    cbn [app]. intros H. injection H as <- <- <-.
    cbn [replay List.filter fst snd cleanup_requests map without_pauses
         is_sleep negb app after]. rewrite Edel. cbn [fst snd].
    cbn [List.filter List.length].
    repeat split; try (cbn; lia).
    intros r1 url w0 r2 H Hacc.
    destruct r1 as [|x r1]; cbn [app] in H.
    + injection H as <- <- _. rewrite Edel in Hacc. discriminate Hacc.
    + injection H as _ H. destruct r1; discriminate H.
Qed.

Lemma ids_of_cons (key : string) (entity : json) (rest : list json) :
  ids_of key (entity :: rest)
  = (ids_of key [entity] ++ ids_of key rest)%list.
Proof. unfold ids_of. cbn [flat_map]. now rewrite app_nil_r. Qed.

Lemma delete_fold_runs (ty : string) (records : list json) :
  forall (n0 n : Z) (w wf : W) (t : list call),
    for_fold records n0 (DeleteAll.delete_one base ty) w = (Ok n, wf, t) ->
    amounts_to ty records n0 w n wf t.
Proof.
  induction records as [|entity rest IH]; intros n0 n w wf t H;
    cbn [for_fold] in H.
  - apply ret_inv in H as (Hn & -> & ->). injection Hn as <-.
    repeat split; [cbn; lia|apply paused_after_accepted_nil].
  - apply bind_inv_ok in H as (n1 & w1 & t1 & t2 & Hone & Hrest & ->).
    apply delete_one_runs in Hone as (-> & Hreq1 & -> & Hsl1 & Hp1).
    apply IH in Hrest as (-> & Hreq2 & -> & Hsl2 & Hp2).
    split; [now rewrite after_app|].
    split.
    { rewrite without_pauses_app, Hreq1, Hreq2, (ids_of_cons _ entity rest).
      unfold cleanup_requests. now rewrite map_app. }
    split; [rewrite accepted_deletes_app; lia|].
    split; [rewrite accepted_deletes_app, count_calls_app; lia|].
    rewrite replay_app. now apply paused_after_accepted_app.
Qed.

(** [get_all_entities] issues one request, a [GET], and ends in the
    world that request leads to. *)
Lemma get_all_entities_run (ty : string) (w : W) :
  trace_of (DeleteAll.get_all_entities base ty w)
  = [SessionGet (base ++ "/" ++ ty ++ "s") None]
  /\ world_of (DeleteAll.get_all_entities base ty w)
     = after [SessionGet (base ++ "/" ++ ty ++ "s") None] w.
Proof.
  unfold DeleteAll.get_all_entities, try_except, bind, do_call,
    raise_for_status, json_of, lift, raise, ret, trace_of, world_of.
  cbn [after].
  destruct (perform _ w) as [[r|e] w1]; crunch; split; reflexivity.
Qed.

(** A run of [delete_all_entities] that returns. *)
Lemma delete_all_entities_runs (ty : string) (n : Z) (w wf : W)
      (t : list call) :
  DeleteAll.delete_all_entities base ty w = (Ok n, wf, t) ->
  exists records,
    goes_through base ty w records
    /\ wf = after t w
    /\ without_pauses t
       = SessionGet (base ++ "/" ++ ty ++ "s") None
         :: cleanup_requests base ty (ids_of (ty ++ "Id") records)
    /\ n = accepted_deletes t w
    /\ accepted_deletes t w = count_calls is_sleep t
    /\ paused_after_accepted (replay t w).
Proof.
  unfold DeleteAll.delete_all_entities. intros H.
  apply bind_inv_ok in H as (listing & w1 & t1 & t2 & Hget & H & ->).
  destruct (get_all_entities_run ty w) as [Ht Hw].
  rewrite Hget in Ht, Hw. unfold trace_of, world_of in Ht, Hw.
  cbn [fst snd] in Ht, Hw. subst t1 w1.
  set (listing_request := SessionGet (base ++ "/" ++ ty ++ "s") None) in *.
  assert (Hhead : forall t2 : list call,
            accepted_deletes (listing_request :: t2) w
            = accepted_deletes t2 (after [listing_request] w)).
  { intros t0. reflexivity. }
  assert (Hsleep : forall t2 : list call,
            count_calls is_sleep (listing_request :: t2)
            = count_calls is_sleep t2).
  { intros t0. reflexivity. }
  destruct (Py.truthy listing) eqn:Etruthy; cbn [negb] in H.
  - apply bind_inv_ok in H as (records & w2 & t3 & t4 & Hiter & H & ->).
    apply lift_inv_ok in Hiter as (Hiter & -> & ->).
    apply delete_fold_runs in H as (-> & Hreq & -> & Hsl & Hp).
    exists records. cbn [app].
    split.
    { exists listing. unfold result_of. rewrite Hget, Etruthy. auto. }
    split; [reflexivity|].
    split; [cbn [without_pauses List.filter is_sleep negb];
            fold (without_pauses t4); now rewrite Hreq|].
    split; [rewrite Hhead; lia|].
    split; [now rewrite Hhead, Hsleep|].
    cbn [replay]. apply paused_after_accepted_cons; [reflexivity|exact Hp].
  - apply ret_inv in H as (Hn & -> & ->). injection Hn as ->.
    exists []. cbn [app].
    split.
    { exists listing. unfold result_of. rewrite Hget, Etruthy. auto. }
    split; [reflexivity|]. split; [reflexivity|].
    split; [reflexivity|]. split; [reflexivity|].
    cbn [replay]. apply paused_after_accepted_cons; [reflexivity|].
    apply paused_after_accepted_nil.
Qed.

(** The probe of the cleanup script: one request, and the world it
    leads to. *)
Lemma cleaner_check_server_run (w : W) :
  trace_of (DeleteAll.check_server base w)
  = [SessionGet (base ++ "/venues") (Some 5)]
  /\ world_of (DeleteAll.check_server base w)
     = after [SessionGet (base ++ "/venues") (Some 5)] w.
Proof.
  unfold DeleteAll.check_server, try_except, bind, do_call, ret, trace_of,
    world_of.
  cbn [after].
  destruct (perform _ w) as [[r|e] w1]; crunch; split; reflexivity.
Qed.

(** A run of [cleanup_all_data] that completes. *)
Lemma cleanup_all_data_runs (w wf : W) (t : list call) :
  DeleteAll.cleanup_all_data base w = (Ok tt, wf, t) ->
  let w1 := world_of (DeleteAll.check_server base w) in
  let w2 := world_of (DeleteAll.delete_all_entities base "event" w1) in
  let w3 := world_of (DeleteAll.delete_all_entities base "room" w2) in
  exists events rooms venues : list json,
    goes_through base "event" w1 events
    /\ goes_through base "room" w2 rooms
    /\ goes_through base "venue" w3 venues
    /\ without_pauses t
       = (SessionGet (base ++ "/venues") (Some 5)
          :: SessionGet (base ++ "/events") None
          :: cleanup_requests base "event" (ids_of "eventId" events)
          ++ SessionGet (base ++ "/rooms") None
          :: cleanup_requests base "room" (ids_of "roomId" rooms)
          ++ SessionGet (base ++ "/venues") None
          :: cleanup_requests base "venue" (ids_of "venueId" venues))%list
    /\ paused_after_accepted (replay t w).
Proof.
  unfold DeleteAll.cleanup_all_data. intros H. cbv zeta.
  apply bind_inv_ok in H as (up & w1 & t0 & ta & Hprobe & H & ->).
  destruct (cleaner_check_server_run w) as [Ht0 Hw1].
  rewrite Hprobe in Ht0, Hw1 |- *. unfold trace_of, world_of in Ht0, Hw1.
  cbn [fst snd] in Ht0, Hw1. subst t0.
  unfold world_of at 3 5 6. cbn [fst snd].
  destruct up; cbn [negb] in H; [|discriminate H].
  apply bind_inv_ok in H as (n1 & w2 & te & tb & He & H & ->).
  rewrite He. unfold world_of at 2 3. cbn [fst snd].
  apply bind_inv_ok in H as (n2 & w3 & tr & tc & Hr & H & ->).
  rewrite Hr. unfold world_of at 1. cbn [fst snd].
  apply bind_inv_ok in H as (n3 & w4 & tv & td & Hv & H & ->).
  apply ret_inv in H as (_ & _ & ->).
  apply delete_all_entities_runs in He
    as (events & Hge & Hwe & Hte & _ & _ & Hpe).
  apply delete_all_entities_runs in Hr
    as (rooms & Hgr & Hwr & Htr & _ & _ & Hpr).
  apply delete_all_entities_runs in Hv
    as (venues & Hgv & Hwv & Htv & _ & _ & Hpv).
  exists events, rooms, venues.
  split; [exact Hge|]. split; [exact Hgr|]. split; [exact Hgv|].
  split.
  - rewrite app_nil_r. cbn [app without_pauses List.filter is_sleep negb].
    fold (without_pauses (te ++ tr ++ tv)).
    rewrite !without_pauses_app, Hte, Htr, Htv. reflexivity.
  - rewrite app_nil_r. cbn [app replay].
    apply paused_after_accepted_cons; [reflexivity|].
    fold (after [SessionGet (base ++ "/venues") (Some 5)] w).
    rewrite <- Hw1.
    rewrite !replay_app, <- Hwe, <- Hwr.
    repeat apply paused_after_accepted_app; assumption.
Qed.

End CleanupRuns.

Section CleanupClaim.

Context {W : Type} {P : Platform W}.
Variable base : string.

(** C2, as the code has it: in every run of [cleanup_all_data], once a
    room or a venue has been deleted no event is deleted any more, once
    a venue has been deleted no room is deleted any more, and every
    deleting call is the delete of an event, a room or a venue.  A run
    that completes has sent, after the probe: the listing of the events
    and a delete request for every listed event that carries an id, in
    listing order; then the same for the rooms; then the same for the
    venues; with a pause after each request that the server accepted.
    The records of a type are those of the listing the script fetched:
    none when the listing failed. *)
Theorem cleanup_deletes_events_then_rooms_then_venues :
  (forall (w : W) (t1 t2 : list call) (c : call),
      trace_of (DeleteAll.cleanup_all_data base w) = (t1 ++ c :: t2)%list ->
      (deletes base "room" c \/ deletes base "venue" c ->
       forall c', In c' t2 -> ~ deletes base "event" c')
      /\ (deletes base "venue" c ->
          forall c', In c' t2 -> ~ deletes base "room" c')
      /\ (is_delete c = true ->
          deletes base "event" c \/ deletes base "room" c
          \/ deletes base "venue" c))
  /\ (forall (w wf : W) (t : list call),
        DeleteAll.cleanup_all_data base w = (Ok tt, wf, t) ->
        let w1 := world_of (DeleteAll.check_server base w) in
        let w2 := world_of (DeleteAll.delete_all_entities base "event" w1) in
        let w3 := world_of (DeleteAll.delete_all_entities base "room" w2) in
        exists events rooms venues : list json,
          goes_through base "event" w1 events
          /\ goes_through base "room" w2 rooms
          /\ goes_through base "venue" w3 venues
          /\ without_pauses t
             = (SessionGet (base ++ "/venues") (Some 5)
                :: SessionGet (base ++ "/events") None
                :: cleanup_requests base "event" (ids_of "eventId" events)
                ++ SessionGet (base ++ "/rooms") None
                :: cleanup_requests base "room" (ids_of "roomId" rooms)
                ++ SessionGet (base ++ "/venues") None
                :: cleanup_requests base "venue"
                     (ids_of "venueId" venues))%list
          /\ paused_after_accepted (replay t w)).
Proof.
  split.
  - apply cleanup_all_data_order.
  - apply cleanup_all_data_runs.
Qed.

End CleanupClaim.

Lemma cleanup_deletes_events_then_rooms_then_venues_witness :
  let c := SessionDelete "http://localhost:3001/api/rooms/u1" in
  let t1 := [SessionGet "http://localhost:3001/api/venues" (Some 5);
             SessionGet "http://localhost:3001/api/events" None;
             SessionDelete "http://localhost:3001/api/events/u11";
             Sleep 100;
             SessionGet "http://localhost:3001/api/rooms" None] in
  let t2 := [Sleep 100;
             SessionGet "http://localhost:3001/api/venues" None;
             SessionDelete "http://localhost:3001/api/venues/u";
             Sleep 100] in
  let run := DeleteAll.cleanup_all_data (P := Server.Reference) Server.base
               one_of_each in
  run = (Ok tt, world_of run, (t1 ++ c :: t2)%list)
  /\ deletes (P := Server.Reference) Server.base "room" c
  /\ (forall c', In c' t2 ->
                 ~ deletes (P := Server.Reference) Server.base "event" c')
  /\ exists events rooms venues : list json,
       without_pauses (t1 ++ c :: t2)
       = (SessionGet (Server.base ++ "/venues") (Some 5)
          :: SessionGet (Server.base ++ "/events") None
          :: cleanup_requests (P := Server.Reference) Server.base "event"
               (ids_of "eventId" events)
          ++ SessionGet (Server.base ++ "/rooms") None
          :: cleanup_requests (P := Server.Reference) Server.base "room"
               (ids_of "roomId" rooms)
          ++ SessionGet (Server.base ++ "/venues") None
          :: cleanup_requests (P := Server.Reference) Server.base "venue"
               (ids_of "venueId" venues))%list.
Proof.
  intros c t1 t2 run.
  assert (Hrun : run = (Ok tt, world_of run, (t1 ++ c :: t2)%list))
    by (vm_compute; reflexivity).
  assert (Htrace : trace_of run = (t1 ++ c :: t2)%list)
    by (rewrite Hrun; reflexivity).
  assert (Hroom : deletes (P := Server.Reference) Server.base "room" c)
    by (exists (JStr "u1"); reflexivity).
  destruct (cleanup_deletes_events_then_rooms_then_venues
              (P := Server.Reference) Server.base) as [Horder Hall].
  split; [exact Hrun|]. split; [exact Hroom|].
  split.
  - exact (proj1 (Horder one_of_each t1 t2 c Htrace) (or_introl Hroom)).
  - destruct (Hall one_of_each _ _ Hrun)
      as (events & rooms & venues & _ & _ & _ & Hreq & _).
    exists events, rooms, venues. exact Hreq.
Defined.

(** C2, as stated, fails: behind a gateway that cannot list the events,
    the cleanup of a store with one venue, one room and one event sends
    no delete for the event; the room is deleted in a store that still
    holds the event, then the venue, and the run completes with the
    event left in the store. *)
Lemma rooms_and_venues_go_while_an_event_stays :
  let run := DeleteAll.cleanup_all_data (P := EventsUnlisted) Server.base
               one_of_each in
  let event := Server.mkevent 2 "E" 0 in
  result_of run = Ok tt
  /\ trace_of run
     = [SessionGet "http://localhost:3001/api/venues" (Some 5);
        SessionGet "http://localhost:3001/api/events" None;
        SessionGet "http://localhost:3001/api/rooms" None;
        SessionDelete "http://localhost:3001/api/rooms/u1";
        Sleep 100;
        SessionGet "http://localhost:3001/api/venues" None;
        SessionDelete "http://localhost:3001/api/venues/u";
        Sleep 100]
  /\ In (SessionDelete "http://localhost:3001/api/rooms/u1", one_of_each)
        (replay (P := EventsUnlisted) (trace_of run) one_of_each)
  /\ Server.events one_of_each = [event]
  /\ Server.events (world_of run) = [event]
  /\ Server.rooms (world_of run) = []
  /\ Server.venues (world_of run) = [].
Proof.
  cbv zeta. split; [vm_compute; reflexivity|].
  split; [vm_compute; reflexivity|].
  split; [vm_compute; auto 10|].
  repeat split; vm_compute; reflexivity.
Qed.

(** ** Cleaning up and recreating an existing venue *)

Section Recreate.

Context {W : Type} {P : Platform W}.
Variable base : string.

Lemma get_all_trace (path : string) (w : W) :
  trace_of (Populate.get_all base path w)
  = [SessionGet (base ++ path) None].
Proof.
  unfold Populate.get_all, try_except, bind, do_call, raise_for_status,
    json_of, lift, raise, ret, trace_of.
  destruct (perform _ w) as [[r|e] w1]; crunch; reflexivity.
Qed.

Lemma delete_entity_trace (ty : string) (id : json) (w : W) :
  trace_of (Populate.delete_entity base ty id w)
  = [SessionDelete (Populate.entity_url base ty id)].
Proof.
  unfold Populate.delete_entity, try_except, bind, do_call,
    raise_for_status, raise, ret, trace_of.
  destruct (perform _ w) as [[r|e] w1]; crunch; reflexivity.
Qed.

Lemma delete_entity_inv (ty : string) (id : json) (w : W) r wf tf :
  Populate.delete_entity base ty id w = (r, wf, tf) ->
  tf = [SessionDelete (Populate.entity_url base ty id)].
Proof.
  intros H. pose proof (delete_entity_trace ty id w) as Ht. rewrite H in Ht.
  exact Ht.
Qed.

(** Each create method issues its one request, whatever comes of it. *)
Lemma create_venue_trace (data : json) (w : W) :
  trace_of (Populate.create_venue base data w)
  = [SessionPost (base ++ "/venues") data].
Proof.
  unfold Populate.create_venue, try_except, bind, do_call, raise_for_status,
    json_of, lift, raise, ret, trace_of.
  destruct (perform _ w) as [[r|e] w1]; crunch; reflexivity.
Qed.

Lemma create_room_trace (data : json) (w : W) :
  trace_of (Populate.create_room base data w)
  = [SessionPost (base ++ "/rooms") data].
Proof.
  unfold Populate.create_room, try_except, bind, do_call, raise_for_status,
    json_of, lift, raise, ret, trace_of.
  destruct (perform _ w) as [[r|e] w1]; crunch; reflexivity.
Qed.

Lemma create_event_trace (data : json) (w : W) :
  trace_of (Populate.create_event base data w)
  = [SessionPost (base ++ "/events") data].
Proof.
  unfold Populate.create_event, try_except, bind, do_call, raise_for_status,
    json_of, lift, raise, ret, trace_of.
  destruct (perform _ w) as [[r|e] w1]; crunch; reflexivity.
Qed.

(** A loop of [cleanup_venue_data] that runs to its end has issued one
    delete request for each listed record that references the venue and
    carries an id, in listing order. *)
Lemma delete_referencing_trace (ty key : string) (venue_id : json) :
  forall (entities : list json) (w wf : W) (t : list call),
    Populate.delete_referencing base ty key venue_id entities w
    = (Ok tt, wf, t) ->
    t = delete_requests base ty (ids_referencing key venue_id entities).
Proof.
  unfold Populate.delete_referencing.
  induction entities as [|entity rest IH]; intros w wf t H.
  - simpl in H. apply ret_inv in H as (_ & _ & ->). reflexivity.
  - simpl in H.
    apply bind_inv_ok in H as ([] & w1 & t1 & t2 & Hbody & Hrest & ->).
    rewrite (IH _ _ _ Hrest).
    apply bind_inv_ok in Hbody as (ref & w2 & t3 & t4 & Href & Hbody & ->).
    apply lift_inv_ok in Href as (Href & -> & ->).
    unfold ids_referencing. simpl. rewrite Href.
    fold (ids_referencing key venue_id rest).
    destruct (Py.eq ref venue_id); simpl.
    + apply bind_inv_ok in Hbody as (id & w3 & t5 & t6 & Hid & Hbody & ->).
      apply lift_inv_ok in Hid as (Hid & -> & ->).
      rewrite Hid. destruct (Py.truthy id); simpl.
      * apply bind_inv_ok in Hbody as (b & w4 & t7 & t8 & Hdel & Hret & ->).
        apply ret_inv in Hret as (_ & _ & ->).
        rewrite (delete_entity_inv _ _ _ _ _ _ Hdel). reflexivity.
      * apply ret_inv in Hbody as (_ & _ & ->). reflexivity.
    + apply ret_inv in Hbody as (_ & _ & ->).
      destruct (Py.get entity key JNull); reflexivity.
Qed.

Lemma do_call_inv_ok (c : call) (w : W) r wf tf :
  do_call c w = (Ok r, wf, tf) -> tf = [c].
Proof.
  intros H. pose proof (do_call_trace c w) as Ht. rewrite H in Ht.
  exact Ht.
Qed.

Lemma get_all_inv (path : string) (w : W) r wf tf :
  Populate.get_all base path w = (r, wf, tf) ->
  tf = [SessionGet (base ++ path) None].
Proof.
  intros H. pose proof (get_all_trace path w) as Ht. rewrite H in Ht.
  exact Ht.
Qed.

Lemma create_venue_inv (data : json) (w : W) r wf tf :
  Populate.create_venue base data w = (r, wf, tf) ->
  tf = [SessionPost (base ++ "/venues") data].
Proof.
  intros H. pose proof (create_venue_trace data w) as Ht. rewrite H in Ht.
  exact Ht.
Qed.

(** The calls of a [cleanup_venue_data] that runs to its end. *)
Lemma cleanup_venue_data_trace (venue_id : json) (venue_name : string)
      (w wf : W) (t : list call) :
  Populate.cleanup_venue_data base venue_id venue_name w = (Ok tt, wf, t) ->
  exists (listed_events listed_rooms : json) (events rooms : list json),
    let w' :=
      world_of (Populate.delete_referencing base "event" "eventId"
                  venue_id events
                  (world_of (Populate.get_all_events base w))) in
    result_of (Populate.get_all_events base w) = Ok listed_events
    /\ Py.iter listed_events = Ok events
    /\ result_of (Populate.get_all_rooms base w') = Ok listed_rooms
    /\ Py.iter listed_rooms = Ok rooms
    /\ t = ([SessionGet (base ++ "/events") None]
            ++ delete_requests base "event"
                 (ids_referencing "eventId" venue_id events)
            ++ [SessionGet (base ++ "/rooms") None]
            ++ delete_requests base "room"
                 (ids_referencing "roomId" venue_id rooms)
            ++ [SessionDelete (Populate.entity_url base "venue" venue_id);
                Sleep 500])%list.
Proof.
  unfold Populate.cleanup_venue_data. intros H.
  apply bind_inv_ok in H as (ej & w1 & t1 & r1 & Hev & H & ->).
  apply bind_inv_ok in H as (events & w2 & t2 & r2 & Hiter & H & ->).
  apply lift_inv_ok in Hiter as (Hiter & -> & ->).
  apply bind_inv_ok in H as ([] & w3 & t3 & r3 & Hde & H & ->).
  apply bind_inv_ok in H as (rj & w4 & t4 & r4 & Hro & H & ->).
  apply bind_inv_ok in H as (rooms & w5 & t5 & r5 & Hiter' & H & ->).
  apply lift_inv_ok in Hiter' as (Hiter' & -> & ->).
  apply bind_inv_ok in H as ([] & w6 & t6 & r6 & Hdr & H & ->).
  apply bind_inv_ok in H as (b & w7 & t7 & r7 & Hdv & H & ->).
  apply bind_inv_ok in H as ([] & w8 & t8 & r8 & Hsl & H & ->).
  apply ret_inv in H as (_ & _ & ->).
  exists ej, rj, events, rooms.
  unfold Populate.get_all_events, Populate.get_all_rooms in *.
  rewrite (get_all_inv _ _ _ _ _ Hev), (get_all_inv _ _ _ _ _ Hro).
  rewrite (delete_referencing_trace _ _ _ _ _ _ _ Hde).
  rewrite (delete_referencing_trace _ _ _ _ _ _ _ Hdr).
  rewrite (do_call_inv_ok _ _ _ _ _ Hsl).
  rewrite (delete_entity_inv _ _ _ _ _ _ Hdv).
  rewrite Hev. unfold world_of at 2. simpl. rewrite Hde.
  unfold world_of. simpl. rewrite Hro. unfold result_of. simpl.
  repeat split; try assumption.
Qed.


End Recreate.


(** ** The table readers *)

Section Readers.

Context {W : Type} {P : Platform W}.

Lemma follow_pages_serves (table : string) (filter : option (string * dict)) :
  forall (start : option dict) (w : W) (rest : list scan_output) (w' : W)
         (t : list call),
    pages_from table filter start w rest w' t ->
    forall (key : dict) (fuel : nat) (p : scan_output) (acc : list dict),
      start = Some key ->
      LastEvaluatedKey p = Some key ->
      (List.length rest <= fuel)%nat ->
      ListVenues.follow_pages fuel table filter p acc w
      = (Ok (Some (acc ++ all_items rest)%list), w', t).
Proof.
  induction 1 as [start w w' q Hq Hlast
                 | start w w1 w' q key' rest t Hq Hnext Hrest IH];
    intros key fuel p acc -> Hp Hfuel.
  - destruct fuel as [|fuel]; [simpl in Hfuel; lia|].
    simpl. rewrite Hp. unfold bind, do_call. rewrite Hq.
    destruct fuel; simpl; rewrite Hlast; unfold ret, all_items; simpl;
      rewrite !app_nil_r; reflexivity.
  - destruct fuel as [|fuel]; [simpl in Hfuel; lia|].
    simpl. rewrite Hp. unfold bind, do_call. rewrite Hq.
    simpl in Hfuel.
    rewrite (IH key' fuel q (acc ++ ListVenues.items_of q)%list
               eq_refl Hnext ltac:(lia)).
    unfold all_items. simpl. rewrite <- app_assoc. reflexivity.
Qed.

(** Following the continuation keys gathers the items of all pages, in
    page order. *)
Lemma scan_all_serves (table : string) (filter : option (string * dict))
      (w w' : W) (pages : list scan_output) (t : list call) (fuel : nat) :
  pages_from table filter None w pages w' t ->
  (List.length pages <= S fuel)%nat ->
  ListVenues.scan_all fuel table filter w
  = (Ok (Some (all_items pages)), w', t).
Proof.
  intros Hpages Hfuel. unfold ListVenues.scan_all, bind, do_call.
  inversion Hpages as [start w0 w0' p Hp Hlast
                      | start w0 w1 w0' p key rest t' Hp Hnext Hrest]; subst.
  - rewrite Hp. destruct fuel; simpl; rewrite Hlast; unfold ret, all_items;
      simpl; rewrite app_nil_r; reflexivity.
  - rewrite Hp. simpl in Hfuel.
    rewrite (follow_pages_serves table filter _ _ _ _ _ Hrest key fuel p
               (ListVenues.items_of p) eq_refl Hnext ltac:(lia)).
    reflexivity.
Qed.

Lemma eq_refl_hashable (k : json) : Py.hashable k = true -> Py.eq k k = true.
Proof.
  destruct k; simpl; try discriminate; intros _.
  - reflexivity.
  - apply Bool.eqb_reflx.
  - apply Z.eqb_refl.
  - apply String.eqb_refl.
Qed.

Lemma kset_entries {V} (k : json) (v : V) :
  forall (d : list (json * V)) (k' : json) (v' : V),
    In (k', v') (Py.kset k v d) ->
    In (k', v') d
    \/ (v' = v /\ k' = k)
    \/ (v' = v /\ Py.eq k k' = true /\ exists v0, In (k', v0) d).
Proof.
  induction d as [|[k1 v1] d IH]; intros k' v' Hin; simpl in Hin.
  - destruct Hin as [Heq | []]. injection Heq as <- <-. auto.
  - destruct (Py.eq k k1) eqn:E; simpl in Hin.
    + destruct Hin as [Heq | Hin].
      * injection Heq as <- <-. right. right.
        split; [reflexivity|]. split; [exact E|]. exists v1. now left.
      * left. now right.
    + destruct Hin as [Heq | Hin].
      * left. now left.
      * destruct (IH _ _ Hin) as [H | [H | (Hv & He & v0 & H)]].
        -- left. now right.
        -- auto.
        -- right. right. split; [exact Hv|]. split; [exact He|].
           exists v0. now right.
Qed.

Lemma kset_keeps_keys {V} (k : json) (v : V) :
  forall (d : list (json * V)) (k' : json) (v' : V),
    In (k', v') d -> exists v'', In (k', v'') (Py.kset k v d).
Proof.
  induction d as [|[k1 v1] d IH]; intros k' v' Hin; simpl in Hin; [easy|].
  simpl. destruct (Py.eq k k1) eqn:E.
  - destruct Hin as [Heq | Hin].
    + injection Heq as <- <-. exists v. now left.
    + exists v'. now right.
  - destruct Hin as [Heq | Hin].
    + exists v'. now left.
    + destruct (IH _ _ Hin) as [v'' H]. exists v''. now right.
Qed.

Lemma kset_holds_key {V} (k : json) (v : V) :
  Py.hashable k = true ->
  forall d : list (json * V),
    exists k', In (k', v) (Py.kset k v d) /\ Py.eq k k' = true.
Proof.
  intros Hk. induction d as [|[k1 v1] d IH]; simpl.
  - exists k. split; [now left | now apply eq_refl_hashable].
  - destruct (Py.eq k k1) eqn:E.
    + exists k1. split; [now left | exact E].
    + destruct IH as (k' & Hin & Heq). exists k'. split; [now right | exact Heq].
Qed.

Lemma kset_distinct_keys {V} (k : json) (v : V) :
  forall d : list (json * V),
    distinct_keys d -> distinct_keys (Py.kset k v d).
Proof.
  induction d as [|[k1 v1] d IH]; simpl.
  - intros _. split; [constructor | exact I].
  - intros [Hall Hd]. destruct (Py.eq k k1) eqn:E; simpl.
    + split; assumption.
    + split; [|exact (IH Hd)].
      rewrite Forall_forall in *. intros [k' v'] Hin.
      destruct (kset_entries _ _ _ _ _ Hin)
        as [H | [[_ ->] | (_ & _ & v0 & H)]].
      * exact (Hall _ H).
      * exact E.
      * exact (Hall _ H).
Qed.

(** What the loop of [get_all_users] builds, starting from the dict
    [acc]. *)
Lemma index_users_entries :
  forall (users : list dict) (acc d : list (json * dict)),
    ListVenues.index_users users acc = Ok d ->
    (forall k u, In (k, u) d ->
       In (k, u) acc
       \/ (In u users
           /\ exists k0, Py.lookup "userId" u = Some k0
                         /\ Py.eq k0 k = true))
    /\ (forall k u, In (k, u) acc -> exists u', In (k, u') d)
    /\ (forall u k0, In u users -> Py.lookup "userId" u = Some k0 ->
          exists k u', In (k, u') d /\ Py.eq k0 k = true)
    /\ (distinct_keys acc -> distinct_keys d).
Proof.
  induction users as [|user rest IH]; intros acc d H; simpl in H.
  - injection H as <-. repeat split; eauto. intros u k0 [].
  - destruct (Py.lookup "userId" user) as [uid|] eqn:Eid.
    + destruct (Py.hashable uid) eqn:Eh; [|discriminate].
      destruct (IH _ _ H) as (H1 & H2 & H3 & H4). repeat split.
      * intros k u Hin.
        destruct (H1 k u Hin) as [Hacc | (Hu & k0 & Hk & He)].
        -- destruct (kset_entries _ _ _ _ _ Hacc)
             as [Ha | [[-> ->] | (-> & He & _)]].
           ++ now left.
           ++ right. split; [now left|]. exists uid.
              split; [exact Eid | now apply eq_refl_hashable].
           ++ right. split; [now left|]. exists uid. auto.
        -- right. split; [now right|]. eauto.
      * intros k u Hin.
        destruct (kset_keeps_keys uid user _ _ _ Hin) as [v'' Hk].
        exact (H2 _ _ Hk).
      * intros u k0 [<- | Hu] Hk.
        -- rewrite Eid in Hk. injection Hk as <-.
           destruct (kset_holds_key uid user Eh acc) as (k' & Hin & Heq).
           destruct (H2 _ _ Hin) as [u' Hd]. eauto.
        -- exact (H3 u k0 Hu Hk).
      * intros Hacc. apply H4. now apply kset_distinct_keys.
    + destruct (IH _ _ H) as (H1 & H2 & H3 & H4). repeat split.
      * intros k u Hin.
        destruct (H1 k u Hin) as [Hacc | (Hu & k0 & Hk & He)];
          [now left|].
        right. split; [now right|]. eauto.
      * exact H2.
      * intros u k0 [<- | Hu] Hk; [congruence | exact (H3 u k0 Hu Hk)].
      * exact H4.
Qed.

Lemma users_dict_of_entries (users : list dict) :
  distinct_keys (users_dict_of users)
  /\ (forall k u, In (k, u) (users_dict_of users) ->
        In u users
        /\ exists k0, Py.lookup "userId" u = Some k0 /\ Py.eq k0 k = true)
  /\ ((exists d, ListVenues.index_users users [] = Ok d) ->
      forall u k0, In u users -> Py.lookup "userId" u = Some k0 ->
        exists k u', In (k, u') (users_dict_of users) /\ Py.eq k0 k = true).
Proof.
  unfold users_dict_of.
  destruct (ListVenues.index_users users []) as [d|e] eqn:E.
  - destruct (index_users_entries _ _ _ E) as (H1 & _ & H3 & H4).
    repeat split.
    + apply H4. exact I.
    + destruct (H1 k u H) as [[] | [Hu _]]. exact Hu.
    + destruct (H1 k u H) as [[] | [_ Hk]]. exact Hk.
    + intros _. exact H3.
  - repeat split; try easy. intros [d Hd]. discriminate Hd.
Qed.

(** C6, as the code has it: when the table serves its pages one after
    the other, each continuation key starting the next scan, the readers of
    venues and events return the items of all pages in page order, every
    page once; the reader of users returns the dict that its loop builds
    from these items: no two keys are equal, every entry is a scanned item
    filed under its ["userId"], items without a ["userId"] are left out,
    and every ["userId"] scanned has an entry unless an unhashable id
    makes the loop fail. *)
Theorem table_readers_follow_continuation_keys :
  forall (pages : list scan_output) (w w' : W) (t : list call) (fuel : nat),
    (List.length pages <= S fuel)%nat ->
    (pages_from ListVenues.venues_table (ListVenues.entity_filter "VENUE")
                None w pages w' t ->
     ListVenues.get_all_venues fuel w = (Ok (Some (all_items pages)), w', t))
    /\ (pages_from ListVenues.events_table (ListVenues.entity_filter "EVENT")
                   None w pages w' t ->
        ListVenues.get_all_events fuel w
        = (Ok (Some (all_items pages)), w', t))
    /\ (pages_from ListVenues.users_table ListVenues.profile_filter
                   None w pages w' t ->
        ListVenues.get_all_users fuel w
        = (Ok (Some (users_dict_of (all_items pages))), w', t))
    /\ distinct_keys (users_dict_of (all_items pages))
    /\ (forall k u, In (k, u) (users_dict_of (all_items pages)) ->
          In u (all_items pages)
          /\ exists k0, Py.lookup "userId" u = Some k0
                        /\ Py.eq k0 k = true)
    /\ ((exists d, ListVenues.index_users (all_items pages) [] = Ok d) ->
        forall u k0, In u (all_items pages) ->
          Py.lookup "userId" u = Some k0 ->
          exists k u', In (k, u') (users_dict_of (all_items pages))
                       /\ Py.eq k0 k = true).
Proof.
  intros pages w w' t fuel Hfuel.
  split; [|split; [|split]].
  - intros Hp. unfold ListVenues.get_all_venues, try_except2.
    apply try_except_ok. now apply scan_all_serves.
  - intros Hp. unfold ListVenues.get_all_events, try_except2.
    apply try_except_ok. now apply scan_all_serves.
  - intros Hp. unfold ListVenues.get_all_users, try_except2, try_except.
    rewrite (bind_ok _ _ _ _ _ _ (scan_all_serves _ _ _ _ _ _ _ Hp Hfuel)).
    unfold users_dict_of, result_of, world_of, trace_of, bind, lift, ret.
    destruct (ListVenues.index_users (all_items pages) []) as [d|e] eqn:E;
      simpl.
    + now rewrite app_nil_r.
    + assert (He : e = TypeError).
      { clear -E. revert E. generalize (@nil (json * dict)).
        induction (all_items pages) as [|u l IH]; intros acc E; simpl in E.
        - discriminate E.
        - destruct (Py.lookup "userId" u); [|eauto].
          destruct (Py.hashable j); [eauto|]. now injection E as <-. }
      subst e. simpl. now rewrite !app_nil_r.
  - apply users_dict_of_entries.
Qed.

End Readers.

Lemma table_readers_follow_continuation_keys_witness :
  let a : dict := [("venueId", JStr "v1"); ("userId", JStr "u1")] in
  let b : dict := [("venueId", JStr "v2"); ("userId", JStr "u2")] in
  let key : dict := [("PK", JStr "VENUE#v1")] in
  let p1 := mkscan (Some [a]) (Some key) in
  let p2 := mkscan (Some [b]) None in
  let table : paged_table := [(None, p1); (Some key, p2)] in
  let filter := ListVenues.entity_filter "VENUE" in
  pages_from (P := Paged) ListVenues.venues_table filter None table
             [p1; p2] table
             [TableScan ListVenues.venues_table filter None;
              TableScan ListVenues.venues_table filter (Some key)]
  /\ (List.length [p1; p2] <= 2)%nat
  /\ result_of (ListVenues.get_all_venues (P := Paged) 1 table)
     = Ok (Some [a; b]).
Proof.
  intros a b key p1 p2 table filter.
  assert (Hpages :
    pages_from (P := Paged) ListVenues.venues_table filter None table
               [p1; p2] table
               [TableScan ListVenues.venues_table filter None;
                TableScan ListVenues.venues_table filter (Some key)]).
  { eapply next_page; [reflexivity | reflexivity |].
    apply last_page; reflexivity. }
  split; [exact Hpages|]. split; [apply le_n|].
  rewrite (proj1 (table_readers_follow_continuation_keys (P := Paged)
                    [p1; p2] table table _ 1%nat (le_n 2)) Hpages).
  reflexivity.
Defined.

(** C6, as stated, fails: a table serves the same item on two pages, and
    the reader of venues returns it twice; the item has no ["userId"], and
    the reader of users returns the empty dict although items were
    scanned. *)
Lemma readers_do_not_return_a_duplicate_free_union :
  (exists items,
      result_of (ListVenues.get_all_venues (P := Paged) 1 repeating_table)
      = Ok (Some items)
      /\ ~ NoDup items)
  /\ result_of (ListVenues.get_all_users (P := Paged) 1 repeating_table)
     = Ok (Some [])
  /\ all_items (map snd repeating_table) <> [].
Proof.
  split; [|split].
  - eexists. split; [reflexivity|].
    intros H. inversion H as [|x l Hnotin _]; subst.
    apply Hnotin. now left.
  - reflexivity.
  - discriminate.
Qed.

(** ** Calendar dates *)

Module DateFacts.

Import Date.

Lemma month_day_checked :
  forallb (month_day_ok false) (map Z.of_nat (seq 0 365)) = true
  /\ forallb (month_day_ok true) (map Z.of_nat (seq 0 366)) = true.
Proof. split; vm_compute; reflexivity. Qed.

Lemma month_day_spec (leap : bool) (n : Z) :
  0 <= n < (if leap then 366 else 365) ->
  month_day_ok leap n = true.
Proof.
  intros Hn. destruct month_day_checked as [Hf Ht].
  assert (Hin : forall k, In n (map Z.of_nat (seq 0 k)) <-> 0 <= n < Z.of_nat k).
  { intros k. rewrite in_map_iff. split.
    - intros (x & <- & Hx). apply in_seq in Hx. lia.
    - intros H. exists (Z.to_nat n). split; [lia|]. apply in_seq. lia. }
  destruct leap.
  - rewrite forallb_forall in Ht. apply Ht, Hin. lia.
  - rewrite forallb_forall in Hf. apply Hf, Hin. lia.
Qed.

Lemma days_before_year_cycles (n400 n100 n4 n1 : Z) :
  0 <= n100 <= 3 -> 0 <= n4 <= 24 -> 0 <= n1 <= 3 ->
  days_before_year (n400 * 400 + 1 + n100 * 100 + n4 * 4 + n1)
  = 146097 * n400 + 36524 * n100 + 1461 * n4 + 365 * n1.
Proof.
  intros H100 H4 H1. unfold days_before_year.
  Z.div_mod_to_equations. lia.
Qed.

Lemma is_leap_cycles (n400 n100 n4 n1 : Z) :
  0 <= n100 <= 3 -> 0 <= n4 <= 24 -> 0 <= n1 <= 3 ->
  is_leap (n400 * 400 + 1 + n100 * 100 + n4 * 4 + n1)
  = (n1 =? 3) && (negb (n4 =? 24) || (n100 =? 3)).
Proof.
  intros H100 H4 H1. unfold is_leap.
  destruct (Z.eqb_spec n1 3), (Z.eqb_spec n4 24), (Z.eqb_spec n100 3);
    destruct (Z.eqb_spec ((n400 * 400 + 1 + n100 * 100 + n4 * 4 + n1) mod 4) 0);
    destruct (Z.eqb_spec ((n400 * 400 + 1 + n100 * 100 + n4 * 4 + n1) mod 100) 0);
    destruct (Z.eqb_spec ((n400 * 400 + 1 + n100 * 100 + n4 * 4 + n1) mod 400) 0);
    simpl; try reflexivity; exfalso; Z.div_mod_to_equations; lia.
Qed.

(** The date of an ordinal is a calendar day, and its ordinal is the one
    it was made from. *)
Lemma ord2ymd_spec (n : Z) :
  calendar_day (ord2ymd n) /\ toordinal (ord2ymd n) = n.
Proof.
  unfold ord2ymd, DI400Y, DI100Y, DI4Y. cbv zeta.
  set (n0 := n - 1).
  pose proof (Z.div_mod n0 146097 ltac:(lia)) as E400.
  pose proof (Z.mod_pos_bound n0 146097 ltac:(lia)) as B400.
  set (n400 := n0 / 146097) in *. set (r400 := n0 mod 146097) in *.
  pose proof (Z.div_mod r400 36524 ltac:(lia)) as E100.
  pose proof (Z.mod_pos_bound r400 36524 ltac:(lia)) as B100.
  set (n100 := r400 / 36524) in *. set (r100 := r400 mod 36524) in *.
  pose proof (Z.div_mod r100 1461 ltac:(lia)) as E4.
  pose proof (Z.mod_pos_bound r100 1461 ltac:(lia)) as B4.
  set (n4 := r100 / 1461) in *. set (r4 := r100 mod 1461) in *.
  pose proof (Z.div_mod r4 365 ltac:(lia)) as E1.
  pose proof (Z.mod_pos_bound r4 365 ltac:(lia)) as B1.
  set (n1 := r4 / 365) in *. set (r1 := r4 mod 365) in *.
  assert (H100 : 0 <= n100 <= 4) by lia.
  assert (H4 : 0 <= n4 <= 24) by lia.
  assert (H1 : 0 <= n1 <= 4) by lia.
  destruct (Z.eqb_spec n1 4) as [En1|En1]; simpl.
  { (* the last day of a leap year *)
    unfold calendar_day, toordinal, ymd2ord, days_before_month, days_in_month,
      days_before_year, is_leap. simpl.
    split; [lia|].
    set (y := n400 * 400 + 1 + n100 * 100 + n4 * 4 + n1 - 1).
    assert (Hy : y = 400 * n400 + 100 * n100 + 4 * n4 + 4) by (unfold y; lia).
    assert (Hn4 : n4 <= 23) by lia.
    assert (Hn100 : n100 <= 3) by lia.
    destruct (Z.eqb_spec (y mod 4) 0);
      destruct (Z.eqb_spec (y mod 100) 0);
      destruct (Z.eqb_spec (y mod 400) 0); simpl;
      Z.div_mod_to_equations; lia. }
  destruct (Z.eqb_spec n100 4) as [En100|En100]; simpl.
  { unfold calendar_day, toordinal, ymd2ord, days_before_month, days_in_month,
      days_before_year, is_leap. simpl.
    split; [lia|].
    set (y := n400 * 400 + 1 + n100 * 100 + n4 * 4 + n1 - 1).
    assert (Hy : y = 400 * n400 + 400) by (unfold y; lia).
    destruct (Z.eqb_spec (y mod 4) 0);
      destruct (Z.eqb_spec (y mod 100) 0);
      destruct (Z.eqb_spec (y mod 400) 0); simpl;
      Z.div_mod_to_equations; lia. }
  assert (H100' : 0 <= n100 <= 3) by lia.
  assert (H1' : 0 <= n1 <= 3) by lia.
  pose proof (days_before_year_cycles n400 n100 n4 n1 H100' H4 H1') as Hdby.
  pose proof (is_leap_cycles n400 n100 n4 n1 H100' H4 H1') as Hleap.
  set (leap := (n1 =? 3) && (negb (n4 =? 24) || (n100 =? 3))) in *.
  assert (Hr1 : 0 <= r1 < (if leap then 366 else 365))
    by (destruct leap; lia).
  pose proof (month_day_spec leap r1 Hr1) as Hmd.
  unfold month_day_ok in Hmd.
  destruct (month_day r1 leap) as [m d].
  apply andb_prop in Hmd as [Hmd Hsum].
  apply andb_prop in Hmd as [Hmd Hdim].
  apply andb_prop in Hmd as [Hmd Hd1].
  apply andb_prop in Hmd as [Hm1 Hm12].
  apply Z.leb_le in Hm1, Hm12, Hd1, Hdim. apply Z.eqb_eq in Hsum.
  unfold calendar_day, toordinal, ymd2ord, days_before_month, days_in_month. simpl.
  rewrite Hdby, Hleap.
  split; [split; [lia|split; [lia|exact Hdim]]|]. lia.
Qed.

Lemma days_before_year_step (y : Z) :
  days_before_year (y + 1) = days_before_year y + 365 + (if is_leap y then 1 else 0).
Proof.
  unfold days_before_year, is_leap.
  replace (y + 1 - 1) with y by lia.
  destruct (Z.eqb_spec (y mod 4) 0);
    destruct (Z.eqb_spec (y mod 100) 0);
    destruct (Z.eqb_spec (y mod 400) 0); simpl;
    Z.div_mod_to_equations; lia.
Qed.

Lemma days_before_year_mono (x z : Z) :
  x <= z -> days_before_year x <= days_before_year z.
Proof.
  intros H. unfold days_before_year. Z.div_mod_to_equations. lia.
Qed.

Lemma month_cases (m : Z) :
  1 <= m <= 12 ->
  m = 1 \/ m = 2 \/ m = 3 \/ m = 4 \/ m = 5 \/ m = 6
  \/ m = 7 \/ m = 8 \/ m = 9 \/ m = 10 \/ m = 11 \/ m = 12.
Proof. lia. Qed.

Lemma day_of_year_bounds (y m d : Z) :
  calendar_day (mkdate y m d) ->
  1 <= days_before_month y m + d <= 365 + (if is_leap y then 1 else 0).
Proof.
  unfold calendar_day, days_before_month, days_in_month. simpl.
  destruct (is_leap y); intros [Hm Hd];
    destruct (month_cases m Hm) as [->|[->|[->|[->|[->|[->|[->|[->|[->|[->|[->| ->]]]]]]]]]]];
    cbv [DAYS_BEFORE_MONTH DAYS_IN_MONTH Z.eqb Z.ltb Z.compare Pos.compare
         Pos.compare_cont Pos.eqb andb] in *; lia.
Qed.

Lemma day_of_year_inj (y m d m' d' : Z) :
  calendar_day (mkdate y m d) -> calendar_day (mkdate y m' d') ->
  days_before_month y m + d = days_before_month y m' + d' ->
  m = m' /\ d = d'.
Proof.
  unfold calendar_day, days_before_month, days_in_month. simpl.
  destruct (is_leap y); intros [Hm Hd] [Hm' Hd'];
    destruct (month_cases m Hm) as [->|[->|[->|[->|[->|[->|[->|[->|[->|[->|[->| ->]]]]]]]]]]];
    destruct (month_cases m' Hm') as [->|[->|[->|[->|[->|[->|[->|[->|[->|[->|[->| ->]]]]]]]]]]];
    cbv [DAYS_BEFORE_MONTH DAYS_IN_MONTH Z.eqb Z.ltb Z.compare Pos.compare
         Pos.compare_cont Pos.eqb andb] in *; lia.
Qed.

Lemma toordinal_inj (a b : date) :
  calendar_day a -> calendar_day b -> toordinal a = toordinal b -> a = b.
Proof.
  destruct a as [y m d], b as [y' m' d']. intros Ha Hb.
  unfold toordinal, ymd2ord. simpl. intros H.
  pose proof (day_of_year_bounds _ _ _ Ha) as Ba.
  pose proof (day_of_year_bounds _ _ _ Hb) as Bb.
  pose proof (days_before_year_step y) as Sa.
  pose proof (days_before_year_step y') as Sb.
  assert (Hy : y = y').
  { destruct (Z.lt_trichotomy y y') as [Hlt | [Heq | Hgt]]; [|exact Heq|].
    - pose proof (days_before_year_mono (y + 1) y' ltac:(lia)). lia.
    - pose proof (days_before_year_mono (y' + 1) y ltac:(lia)). lia. }
  subst y'.
  destruct (day_of_year_inj y m d m' d' Ha Hb ltac:(lia)) as [-> ->].
  reflexivity.
Qed.

(** A calendar day is the date of its ordinal. *)
Lemma fromordinal_toordinal (d : date) :
  calendar_day d -> fromordinal (toordinal d) = d.
Proof.
  intros Hd. destruct (ord2ymd_spec (toordinal d)) as [Hv Ho].
  apply toordinal_inj; assumption.
Qed.

Lemma days_in_month_ge_28 (y m : Z) : 1 <= m <= 12 -> 28 <= days_in_month y m.
Proof.
  intros Hm. unfold days_in_month.
  destruct (is_leap y);
    destruct (month_cases m Hm) as [->|[->|[->|[->|[->|[->|[->|[->|[->|[->|[->| ->]]]]]]]]]]];
    cbv [DAYS_IN_MONTH Z.eqb Pos.eqb andb]; lia.
Qed.

Lemma fromordinal_calendar_day (n : Z) : calendar_day (fromordinal n).
Proof. apply ord2ymd_spec. Qed.

Lemma toordinal_fromordinal (n : Z) : toordinal (fromordinal n) = n.
Proof. apply ord2ymd_spec. Qed.

(** The years 1 to 9999 are the ordinals 1 to [MAXORDINAL]. *)
Lemma toordinal_bounds (d : date) :
  valid d -> 0 < toordinal d <= MAXORDINAL.
Proof.
  destruct d as [y m d]. intros [Hy Hc].
  unfold MINYEAR, MAXYEAR in Hy. cbn [year] in Hy.
  pose proof (day_of_year_bounds y m d Hc) as Hb.
  pose proof (days_before_year_step y) as Hs.
  pose proof (days_before_year_mono 1 y ltac:(lia)) as Hlo.
  pose proof (days_before_year_mono (y + 1) 10000 ltac:(lia)) as Hhi.
  assert (H1 : days_before_year 1 = 0) by reflexivity.
  assert (H2 : days_before_year 10000 = 3652059) by (vm_compute; reflexivity).
  assert (H3 : MAXORDINAL = 3652059) by (vm_compute; reflexivity).
  unfold toordinal, ymd2ord. cbn [year month day]. lia.
Qed.

Lemma fromordinal_valid (o : Z) :
  0 < o <= MAXORDINAL -> valid (fromordinal o).
Proof.
  intros Ho. destruct (ord2ymd_spec o) as [Hc Hto].
  split; [|exact Hc]. unfold fromordinal.
  destruct (ord2ymd o) as [y m d].
  pose proof (day_of_year_bounds y m d Hc) as Hb.
  pose proof (days_before_year_step y) as Hs.
  unfold toordinal, ymd2ord in Hto. cbn [year month day] in Hto.
  assert (H1 : days_before_year 1 = 0) by reflexivity.
  assert (H2 : days_before_year 10000 = 3652059) by (vm_compute; reflexivity).
  assert (H3 : MAXORDINAL = 3652059) by (vm_compute; reflexivity).
  unfold MINYEAR, MAXYEAR. cbn [year].
  destruct (Z_lt_le_dec y 1) as [Hlt|Hge].
  { pose proof (days_before_year_mono (y + 1) 1 ltac:(lia)). lia. }
  destruct (Z_lt_le_dec 9999 y) as [Hgt|Hle]; [|lia].
  pose proof (days_before_year_mono 10000 y ltac:(lia)). lia.
Qed.

(** [date(y, m, d)] succeeds on the valid dates and on no others. *)
Lemma check_date_fields_spec (y m d : Z) :
  check_date_fields y m d = true <-> valid (mkdate y m d).
Proof.
  unfold check_date_fields, valid, calendar_day. cbn [year month day].
  rewrite !andb_true_iff, !Z.leb_le. tauto.
Qed.

Lemma make_valid (y m d : Z) :
  valid (mkdate y m d) -> make y m d = Ok (mkdate y m d).
Proof.
  intros H. unfold make.
  now rewrite (proj2 (check_date_fields_spec y m d) H).
Qed.

Lemma make_out_of_range (y m d : Z) :
  ~ MINYEAR <= y <= MAXYEAR -> make y m d = Raise ValueError.
Proof.
  intros H. unfold make.
  destruct (check_date_fields y m d) eqn:E; [|reflexivity].
  apply check_date_fields_spec in E. destruct E as [Hy _]. contradiction.
Qed.

(** Moving by days inside the years 1 to 9999. *)
Lemma add_days_in_range (d : date) (n : Z) :
  0 < toordinal d + n <= MAXORDINAL ->
  add_days d n = Ok (fromordinal (toordinal d + n)).
Proof.
  intros H. unfold add_days. cbv zeta.
  destruct (Z.ltb_spec 0 (toordinal d + n)); [|lia].
  destruct (Z.leb_spec (toordinal d + n) MAXORDINAL); [reflexivity|lia].
Qed.

(** Moving inside a month. *)
Lemma add_days_within_month (y m d k : Z) :
  MINYEAR <= y <= MAXYEAR ->
  1 <= m <= 12 -> 1 <= d -> 0 <= k -> d + k <= 28 ->
  add_days (mkdate y m d) k = Ok (mkdate y m (d + k)).
Proof.
  intros Hy Hm Hd Hk Hdk.
  pose proof (days_in_month_ge_28 y m Hm) as H28.
  assert (Hv : valid (mkdate y m (d + k))).
  { split; [exact Hy|]. split; cbn [year month day]; lia. }
  assert (Ho : toordinal (mkdate y m d) + k = toordinal (mkdate y m (d + k)))
    by (unfold toordinal, ymd2ord; cbn [year month day]; lia).
  rewrite add_days_in_range; rewrite Ho.
  - f_equal. apply fromordinal_toordinal, Hv.
  - apply toordinal_bounds, Hv.
Qed.

(** Adding days only, to a date of the first four weeks of a month. *)
Lemma add_days_only (y m d n : Z) :
  MINYEAR <= y <= MAXYEAR ->
  1 <= m <= 12 -> 1 <= d -> 0 <= n -> d + n <= 28 ->
  add (mkdate y m d) (mkrd 0 n None) = Ok (mkdate y m (d + n)).
Proof.
  intros Hy Hm Hd Hk Hdk. unfold add.
  cbn [rd_months rd_days rd_day year month day Z.eqb].
  pose proof (days_in_month_ge_28 y m Hm).
  rewrite Z.min_r by lia.
  rewrite make_valid.
  - cbn [res_bind]. now apply add_days_within_month.
  - split; [exact Hy|]. split; cbn [year month day]; lia.
Qed.

(** [p] is [today] moved by [k] months: the month index moves by [k],
    the day is today's, cut down to the length of the month reached. *)
Abbreviation moved_by today k p :=
  (valid p
   /\ 12 * year p + month p = 12 * year today + month today + k
   /\ day p = Z.min (days_in_month (year p) (month p)) (day today)).

(** [today + relativedelta(months=k)]: the date moved by [k] months, or
    [ValueError] when its year is not one of 1 to 9999. *)
Lemma shift_months (today : date) (k : Z) :
  valid today -> k <> 0 -> -12 <= k <= 12 ->
  exists y m,
    1 <= m <= 12
    /\ 12 * y + m = 12 * year today + month today + k
    /\ (MINYEAR <= y <= MAXYEAR ->
        exists p, add today (mkrd k 0 None) = Ok p
                  /\ year p = y /\ moved_by today k p)
    /\ (~ MINYEAR <= y <= MAXYEAR ->
        add today (mkrd k 0 None) = Raise ValueError).
Proof.
  intros [Hyt [Hm Hd]] Hk Hrange.
  assert (Hstep : forall y m,
            1 <= m <= 12 ->
            12 * y + m = 12 * year today + month today + k ->
            (MINYEAR <= y <= MAXYEAR ->
             exists p,
               res_bind
                 (make y m (Z.min (days_in_month y m) (day today)))
                 (fun replaced => add_days replaced 0) = Ok p
               /\ year p = y /\ moved_by today k p)
            /\ (~ MINYEAR <= y <= MAXYEAR ->
                res_bind
                  (make y m (Z.min (days_in_month y m) (day today)))
                  (fun replaced => add_days replaced 0)
                = Raise ValueError)).
  { intros y m Hm' Hi. split.
    - intros Hy.
      assert (Hv : valid (mkdate y m (Z.min (days_in_month y m) (day today)))).
      { pose proof (days_in_month_ge_28 y m Hm').
        split; [exact Hy|]. split; cbn [year month day]; lia. }
      exists (mkdate y m (Z.min (days_in_month y m) (day today))).
      rewrite (make_valid _ _ _ Hv). cbn [res_bind].
      rewrite add_days_in_range; rewrite Z.add_0_r.
      + rewrite (fromordinal_toordinal _ (proj2 Hv)).
        cbn [year month day]. auto.
      + apply toordinal_bounds, Hv.
    - intros Hy. now rewrite (make_out_of_range _ _ _ Hy). }
  unfold add. cbn [rd_months rd_days rd_day].
  destruct (Z.eqb_spec k 0) as [|_]; [contradiction|].
  destruct (Z.ltb_spec 12 (month today + k)) as [H12|H12].
  - exists (year today + 1), (month today + k - 12).
    assert (H1 : 1 <= month today + k - 12 <= 12) by lia.
    assert (H2 : 12 * (year today + 1) + (month today + k - 12)
                 = 12 * year today + month today + k) by lia.
    destruct (Hstep _ _ H1 H2). auto.
  - destruct (Z.ltb_spec (month today + k) 1) as [H1|H1].
    + exists (year today - 1), (month today + k + 12).
      assert (H3 : 1 <= month today + k + 12 <= 12) by lia.
      assert (H2 : 12 * (year today - 1) + (month today + k + 12)
                   = 12 * year today + month today + k) by lia.
      destruct (Hstep _ _ H3 H2). auto.
    + exists (year today), (month today + k).
      assert (H3 : 1 <= month today + k <= 12) by lia.
      assert (H2 : 12 * year today + (month today + k)
                   = 12 * year today + month today + k) by lia.
      destruct (Hstep _ _ H3 H2). auto.
Qed.

(** [today + relativedelta(months=1, day=1)]: the first day of the month
    after today's, or [ValueError] in December 9999. *)
Lemma first_of_next_month (today : date) :
  valid today ->
  exists y m,
    1 <= m <= 12
    /\ (y, m) = (if month today =? 12 then (year today + 1, 1)
                 else (year today, month today + 1))
    /\ add today (rd 1 0 0 (Some 1))
       = (if y <=? MAXYEAR then Ok (mkdate y m 1) else Raise ValueError).
Proof.
  intros [Hy [Hm Hd]]. unfold add, rd.
  cbn [rd_months rd_days rd_day Z.eqb Z.add Z.mul].
  assert (Hfirst : forall y m,
            1 <= m <= 12 -> MINYEAR <= y ->
            res_bind (make y m (Z.min (days_in_month y m) 1))
                     (fun replaced => add_days replaced 0)
            = (if y <=? MAXYEAR then Ok (mkdate y m 1)
               else Raise ValueError)).
  { intros y m Hm' Hy'.
    pose proof (days_in_month_ge_28 y m Hm').
    rewrite Z.min_r by lia.
    destruct (Z.leb_spec y MAXYEAR) as [Hle|Hgt].
    - rewrite make_valid.
      + cbn [res_bind]. rewrite (add_days_within_month y m 1 0) by lia.
        now rewrite Z.add_0_r.
      + split; [cbn [year]; lia|]. split; cbn [year month day]; lia.
    - rewrite make_out_of_range by lia. reflexivity. }
  unfold MINYEAR in *.
  destruct (Z.ltb_spec 12 (month today + 1)) as [H12|H12].
  - exists (year today + 1), (month today + 1 - 12).
    assert (month today = 12) as -> by lia. cbn [Z.eqb Pos.eqb Z.add Z.sub].
    split; [cbn; lia|]. split; [reflexivity|].
    apply (Hfirst (year today + 1) 1); lia.
  - destruct (Z.ltb_spec (month today + 1) 1) as [H1|H1]; [lia|].
    exists (year today), (month today + 1).
    destruct (Z.eqb_spec (month today) 12) as [E|E]; [lia|].
    split; [lia|]. split; [reflexivity|].
    apply Hfirst; lia.
Qed.

(** The dates that the seed script computes on a day from 0001-05-01 to
    9999-08-31: the four dates moved by months, the first day of the
    month after today's and, in that month, the first Tuesday (on one of
    the days 1 to 7) and the Tuesdays one and three weeks later. *)
Lemma dates_of_a_seedable_day (today : date) :
  valid today -> seedable today ->
  exists p1 p2 f1 f2 y m k,
    Populate.dates today
    = Ok (Populate.mkdates p1 p2 f1 f2 (mkdate y m 1) (mkdate y m (1 + k))
            (mkdate y m (8 + k)) (mkdate y m (22 + k)))
    /\ moved_by today (-2) p1 /\ moved_by today (-4) p2
    /\ moved_by today 3 f1 /\ moved_by today 4 f2
    /\ MINYEAR <= y <= MAXYEAR /\ 1 <= m <= 12
    /\ (y, m) = (if month today =? 12 then (year today + 1, 1)
                 else (year today, month today + 1))
    /\ k = (1 - weekday (mkdate y m 1)) mod 7.
Proof.
  intros Hv [Hlo Hhi]. pose proof Hv as [Hyt [Hmt Hdt]].
  unfold MINYEAR, MAXYEAR in *.
  unfold Populate.dates, sub, rd_neg, rd.
  cbn [rd_months rd_days rd_day Z.opp Z.add Z.mul].
  destruct (shift_months today (-2) Hv ltac:(lia) ltac:(lia))
    as (y1 & m1 & Hm1 & Hi1 & Hok1 & _).
  destruct (Hok1 ltac:(unfold MINYEAR, MAXYEAR; lia))
    as (p1 & -> & _ & Hp1).
  destruct (shift_months today (-4) Hv ltac:(lia) ltac:(lia))
    as (y2 & m2 & Hm2 & Hi2 & Hok2 & _).
  destruct (Hok2 ltac:(unfold MINYEAR, MAXYEAR; lia))
    as (p2 & -> & _ & Hp2).
  destruct (shift_months today 3 Hv ltac:(lia) ltac:(lia))
    as (y3 & m3 & Hm3 & Hi3 & Hok3 & _).
  destruct (Hok3 ltac:(unfold MINYEAR, MAXYEAR; lia))
    as (f1 & -> & _ & Hf1).
  destruct (shift_months today 4 Hv ltac:(lia) ltac:(lia))
    as (y4 & m4 & Hm4 & Hi4 & Hok4 & _).
  destruct (Hok4 ltac:(unfold MINYEAR, MAXYEAR; lia))
    as (f2 & -> & _ & Hf2).
  cbn [res_bind].
  destruct (first_of_next_month today Hv) as (y & m & Hm & Hym & Hnm).
  unfold rd in Hnm. cbn [Z.add Z.mul] in Hnm. rewrite Hnm. clear Hnm.
  assert (Hy : 1 <= y <= 9999).
  { destruct (Z.eqb_spec (month today) 12); injection Hym as -> ->; lia. }
  unfold MAXYEAR. destruct (Z.leb_spec y 9999) as [_|]; [|lia].
  cbn [res_bind].
  set (k := (1 - weekday (mkdate y m 1)) mod 7).
  assert (Hk : 0 <= k < 7) by (apply Z.mod_pos_bound; lia).
  rewrite (add_days_only y m 1 _) by (unfold MINYEAR, MAXYEAR; lia).
  cbn [res_bind].
  rewrite (add_days_only y m _ 7) by (unfold MINYEAR, MAXYEAR; lia).
  cbn [res_bind].
  rewrite (add_days_only y m _ 21) by (unfold MINYEAR, MAXYEAR; lia).
  cbn [res_bind].
  exists p1, p2, f1, f2, y, m, k.
  replace (1 + (k + 0)) with (1 + k) by lia.
  replace (1 + k + 7) with (8 + k) by lia.
  replace (1 + k + 21) with (22 + k) by lia.
  repeat (split; [first [reflexivity | assumption | lia]|]).
  reflexivity.
Qed.

(** Outside these days one of the dates moved by months leaves the
    years 1 to 9999 and the computation stops with [ValueError]. *)
Lemma dates_of_another_day (today : date) :
  valid today -> ~ seedable today ->
  Populate.dates today = Raise ValueError.
Proof.
  intros Hv Hout. pose proof Hv as [Hyt [Hmt Hdt]].
  unfold seedable, MINYEAR, MAXYEAR in *.
  unfold Populate.dates, sub, rd_neg, rd.
  cbn [rd_months rd_days rd_day Z.opp Z.add Z.mul].
  destruct (shift_months today (-2) Hv ltac:(lia) ltac:(lia))
    as (y1 & m1 & Hm1 & Hi1 & Hok1 & Hbad1).
  destruct (Z_lt_le_dec y1 1) as [Hlt1|Hge1].
  { rewrite Hbad1 by (unfold MINYEAR, MAXYEAR; lia). reflexivity. }
  destruct (Hok1 ltac:(unfold MINYEAR, MAXYEAR; lia))
    as (p1 & -> & _ & _).
  cbn [res_bind].
  destruct (shift_months today (-4) Hv ltac:(lia) ltac:(lia))
    as (y2 & m2 & Hm2 & Hi2 & Hok2 & Hbad2).
  destruct (Z_lt_le_dec y2 1) as [Hlt2|Hge2].
  { rewrite Hbad2 by (unfold MINYEAR, MAXYEAR; lia). reflexivity. }
  destruct (Hok2 ltac:(unfold MINYEAR, MAXYEAR; lia))
    as (p2 & -> & _ & _).
  cbn [res_bind].
  destruct (shift_months today 3 Hv ltac:(lia) ltac:(lia))
    as (y3 & m3 & Hm3 & Hi3 & Hok3 & Hbad3).
  destruct (Z_lt_le_dec 9999 y3) as [Hgt3|Hle3].
  { rewrite Hbad3 by (unfold MINYEAR, MAXYEAR; lia). reflexivity. }
  destruct (Hok3 ltac:(unfold MINYEAR, MAXYEAR; lia))
    as (f1 & -> & _ & _).
  cbn [res_bind].
  destruct (shift_months today 4 Hv ltac:(lia) ltac:(lia))
    as (y4 & m4 & Hm4 & Hi4 & Hok4 & Hbad4).
  rewrite Hbad4 by (unfold MINYEAR, MAXYEAR; lia). reflexivity.
Qed.

(** C3, as the code has it: on every day from 0001-05-01 to 9999-08-31
    the two dates computed as the 2nd and the 4th Tuesday of next month
    are Tuesdays, lie in the month after today's on days 8 to 14 and 22
    to 28, come 7 and 21 days after the first Tuesday computed, and are
    exactly 14 days apart; on the other days the computation of the
    dates ends with [ValueError]. *)
Theorem tuesdays_of_next_month (today : date) :
  valid today ->
  (seedable today ->
   exists d,
     Populate.dates today = Ok d
     /\ let first := Populate.first_tuesday d in
        let second := Populate.future_next_month_2nd_tuesday d in
        let fourth := Populate.future_next_month_4th_tuesday d in
        let following :=
          if month today =? 12 then (year today + 1, 1)
          else (year today, month today + 1) in
        weekday second = 1 /\ weekday fourth = 1
        /\ toordinal fourth - toordinal second = 14
        /\ toordinal second - toordinal first = 7
        /\ toordinal fourth - toordinal first = 21
        /\ (year second, month second) = following
        /\ 8 <= day second <= 14
        /\ (year fourth, month fourth) = following
        /\ 22 <= day fourth <= 28)
  /\ (~ seedable today -> Populate.dates today = Raise ValueError).
Proof.
  intros Hv. split; [|apply dates_of_another_day, Hv].
  intros Hs.
  destruct (dates_of_a_seedable_day today Hv Hs)
    as (p1 & p2 & f1 & f2 & y & m & k & -> & _ & _ & _ & _ & Hy & Hm
        & Hym & Hk).
  eexists. split; [reflexivity|].
  cbn [Populate.first_tuesday Populate.future_next_month_2nd_tuesday
       Populate.future_next_month_4th_tuesday].
  cbv zeta. rewrite <- Hym. clear Hym.
  assert (Hk' : 0 <= k < 7) by (subst k; apply Z.mod_pos_bound; lia).
  unfold weekday, toordinal, ymd2ord in *. cbn [year month day] in *.
  set (o := days_before_year y + days_before_month y m) in *.
  repeat split; try lia; subst k; Z.div_mod_to_equations; lia.
Qed.

(** C3, as stated, fails: on 2025-01-15 the two dates are 2025-02-11 and
    2025-02-25; they are 14 days apart, and no two of the dates that the
    script computes on the way (today, the first of next month, the first,
    second and fourth Tuesday) are 28 days apart. *)
Lemma nothing_is_28_days_apart :
  let today := mkdate 2025 1 15 in
  exists d,
    Populate.dates today = Ok d
    /\ let second := Populate.future_next_month_2nd_tuesday d in
       let fourth := Populate.future_next_month_4th_tuesday d in
       let dates := [today; Populate.next_month d;
                     Populate.first_tuesday d; second; fourth] in
       second = mkdate 2025 2 11 /\ fourth = mkdate 2025 2 25
       /\ toordinal fourth - toordinal second <> 28
       /\ forallb (fun a =>
                     forallb (fun b => negb (toordinal b - toordinal a =? 28))
                             dates) dates = true.
Proof.
  eexists. split; [vm_compute; reflexivity|].
  cbv zeta. split; [reflexivity|]. split; [reflexivity|].
  split; [vm_compute; discriminate|vm_compute; reflexivity].
Qed.

Lemma tuesdays_of_next_month_witness :
  valid (mkdate 2025 1 15) /\ seedable (mkdate 2025 1 15)
  /\ exists d,
       Populate.dates (mkdate 2025 1 15) = Ok d
       /\ weekday (Populate.future_next_month_2nd_tuesday d) = 1
       /\ weekday (Populate.future_next_month_4th_tuesday d) = 1
       /\ toordinal (Populate.future_next_month_4th_tuesday d)
          - toordinal (Populate.future_next_month_2nd_tuesday d) = 14
       /\ (year (Populate.future_next_month_2nd_tuesday d),
           month (Populate.future_next_month_2nd_tuesday d)) = (2025, 2).
Proof.
  assert (Hv : valid (mkdate 2025 1 15)).
  { unfold valid, calendar_day, MINYEAR, MAXYEAR.
    cbv [year month day days_in_month DAYS_IN_MONTH Z.eqb Pos.eqb andb].
    lia. }
  assert (Hs : seedable (mkdate 2025 1 15)).
  { unfold seedable. cbn [year month]. lia. }
  split; [exact Hv|]. split; [exact Hs|].
  destruct (proj1 (tuesdays_of_next_month (mkdate 2025 1 15) Hv) Hs)
    as (d & Hd & H2 & H4 & H14 & _ & _ & Hin & _).
  exists d. auto.
Defined.

End DateFacts.

(* ===================================================================== *)
(** * Further properties of the scripts *)
(* ===================================================================== *)

(** ** Deleting listed events from the table *)

Section TableDeletes.

Context {W : Type} {P : Platform W}.

Abbreviation get_of id :=
  (TableGetItem DeleteSpecificEvents.events_table
     (DeleteSpecificEvents.event_key id)).
Abbreviation del_of id :=
  (TableDeleteItem DeleteSpecificEvents.events_table
     (DeleteSpecificEvents.event_key id)).

(** The runs of [delete_event], by what the table answers. *)
Lemma delete_event_runs (event_id : string) (w : W) :
  let run := DeleteSpecificEvents.delete_event event_id w in
  match perform (get_of event_id) w with
  | (Raise e, w1) =>
      run = (if is_Exception e then Ok false else Raise e, w1,
             [get_of event_id])
  | (Ok r, w1) =>
      match Item r with
      | None => run = (Ok false, w1, [get_of event_id])
      | Some _ =>
          match perform (del_of event_id) w1 with
          | (Ok _, w2) =>
              run = (Ok true, w2, [get_of event_id; del_of event_id])
          | (Raise e, w2) =>
              run = (if is_Exception e then Ok false else Raise e, w2,
                     [get_of event_id; del_of event_id])
          end
      end
  end.
Proof.
  unfold DeleteSpecificEvents.delete_event, try_except2, try_except, bind,
    do_call, ret.
  destruct (perform (get_of event_id) w) as [[r|e] w1].
  - destruct (Item r) as [item|].
    + destruct (perform (del_of event_id) w1) as [[[]|e] w2]; [reflexivity|].
      destruct e; reflexivity.
    + reflexivity.
  - destruct e; reflexivity.
Qed.

(** [delete_event] looks the event up before it deletes: it issues a
    [get_item] and, only when that returned an item, a [delete_item] with
    the same key; it answers [True] only when both calls succeeded, and
    no [Exception] leaves it. *)
Theorem delete_event_checks_before_deleting (event_id : string) (w : W) :
  let run := DeleteSpecificEvents.delete_event event_id w in
  (forall e, result_of run = Raise e -> is_Exception e = false)
  /\ (trace_of run = [get_of event_id]
      \/ trace_of run = [get_of event_id; del_of event_id])
  /\ (Exists (fun c => is_delete c = true) (trace_of run) ->
      exists r w1 item,
        perform (get_of event_id) w = (Ok r, w1) /\ Item r = Some item)
  /\ (result_of run = Ok true ->
      exists r w1 item w2,
        perform (get_of event_id) w = (Ok r, w1) /\ Item r = Some item
        /\ perform (del_of event_id) w1 = (Ok tt, w2)
        /\ world_of run = w2).
Proof.
  intros run. pose proof (delete_event_runs event_id w) as H.
  fold run in H. cbv zeta in H.
  assert (Hno : forall c : call, is_delete c = true ->
                  ~ Exists (fun c => is_delete c = true) [get_of event_id]).
  { intros _ _ Hex. inversion Hex as [? ? Hd|? ? Hd]; [discriminate Hd|].
    inversion Hd. }
  destruct (perform (get_of event_id) w) as [[r|e] w1] eqn:Eget.
  - destruct (Item r) as [item|] eqn:Eitem.
    + destruct (perform (del_of event_id) w1) as [[[]|e] w2] eqn:Edel;
        rewrite H; unfold result_of, trace_of, world_of; simpl.
      * split; [discriminate|]. split; [now right|].
        split; [intros _; now exists r, w1, item|].
        intros _. now exists r, w1, item, w2.
      * split.
        { intros e0 He0. destruct (is_Exception e) eqn:Ee;
            [discriminate|]. now injection He0 as <-. }
        split; [now right|].
        split; [intros _; now exists r, w1, item|].
        destruct (is_Exception e); discriminate.
    + rewrite H; unfold result_of, trace_of, world_of; simpl.
      split; [discriminate|]. split; [now left|].
      split; [|discriminate].
      intros Hex. now apply (Hno (del_of event_id) eq_refl) in Hex.
  - rewrite H; unfold result_of, trace_of, world_of; simpl.
    split.
    { intros e0 He0. destruct (is_Exception e) eqn:Ee;
        [discriminate|]. now injection He0 as <-. }
    split; [now left|].
    split.
    { intros Hex. now apply (Hno (del_of event_id) eq_refl) in Hex. }
    destruct (is_Exception e); discriminate.
Qed.

(** One [delete_event]: one [get_item], at most one [delete_item], and
    [True] only after a [delete_item]. *)
Lemma delete_event_summary (event_id : string) (w : W) :
  exists r w1 t,
    DeleteSpecificEvents.delete_event event_id w = (r, w1, t)
    /\ count_calls is_get_item t = 1
    /\ match r with
       | Ok true => count_calls is_delete t = 1
       | Ok false => True
       | Raise e => is_Exception e = false
       end.
Proof.
  pose proof (delete_event_runs event_id w) as H. cbv zeta in H.
  destruct (perform (get_of event_id) w) as [[r|e] w1].
  - destruct (Item r) as [item|].
    + destruct (perform (del_of event_id) w1) as [[[]|e] w2];
        rewrite H.
      * eexists _, _, _. split; [reflexivity|]. split; reflexivity.
      * eexists _, _, _. split; [reflexivity|]. split; [reflexivity|].
        destruct (is_Exception e) eqn:Ee; [exact I|exact Ee].
    + rewrite H. eexists _, _, _. split; [reflexivity|].
      split; [reflexivity|exact I].
  - rewrite H. eexists _, _, _. split; [reflexivity|].
    split; [reflexivity|].
    destruct (is_Exception e) eqn:Ee; [exact I|exact Ee].
Qed.

Abbreviation tally :=
  (fun (event_id : string) '(successful, failed) =>
     deleted <- DeleteSpecificEvents.delete_event event_id ;;
     if deleted then ret (successful + 1, failed)
     else ret (successful, failed + 1)).

(** One turn of the loop of [delete_events] moves one of the two
    counters up by one. *)
Lemma delete_events_step (event_id : string) (successful0 failed0 : Z)
      (w : W) :
  exists r w1 t,
    tally event_id (successful0, failed0) w = (r, w1, t)
    /\ count_calls is_get_item t = 1
    /\ match r with
       | Ok (successful, failed) =>
           successful + failed = successful0 + failed0 + 1
           /\ successful0 <= successful
              <= successful0 + count_calls is_delete t
           /\ failed0 <= failed
       | Raise e => is_Exception e = false
       end.
Proof.
  destruct (delete_event_summary event_id w) as (r & w1 & t & E & Hg & Hr).
  pose proof (count_calls_nonneg is_delete t) as Hd.
  unfold bind. rewrite E. destruct r as [[|]|e]; cbn [ret].
  - eexists _, _, _. split; [reflexivity|]. rewrite app_nil_r.
    split; [exact Hg|]. lia.
  - eexists _, _, _. split; [reflexivity|]. rewrite app_nil_r.
    split; [exact Hg|]. lia.
  - eexists _, _, _. split; [reflexivity|]. split; [exact Hg|exact Hr].
Qed.

Lemma delete_events_from (event_ids : list string) :
  forall (successful0 failed0 : Z) (w : W),
    let run := for_fold event_ids (successful0, failed0) tally w in
    match result_of run with
    | Ok (successful, failed) =>
        successful + failed
        = successful0 + failed0 + Z.of_nat (List.length event_ids)
        /\ successful0 <= successful
           <= successful0 + count_calls is_delete (trace_of run)
        /\ failed0 <= failed
        /\ count_calls is_get_item (trace_of run)
           = Z.of_nat (List.length event_ids)
    | Raise e => is_Exception e = false
    end.
Proof.
  induction event_ids as [|event_id rest IH]; intros s0 f0 w.
  - simpl. unfold count_calls. simpl. lia.
  - cbv zeta. cbn [for_fold].
    destruct (delete_events_step event_id s0 f0 w)
      as (r & w1 & t & E & Hg & Hr).
    destruct r as [[s1 f1]|e].
    + rewrite (bind_ok _ _ _ _ _ _ E).
      specialize (IH s1 f1 w1). cbv zeta in IH.
      unfold result_of, trace_of in IH |- *. cbn [fst snd].
      destruct (for_fold rest (s1, f1) tally w1) as [[r2 w2] t2].
      cbn [fst snd] in IH |- *.
      destruct r2 as [[s f]|e]; [|exact IH].
      rewrite !count_calls_app, Hg.
      change (List.length (event_id :: rest)) with (S (List.length rest)).
      lia.
    + rewrite (bind_raise _ _ _ _ _ _ E). exact Hr.
Qed.

(** [delete_events] counts every id once: when it returns, the two
    counters add up to the number of ids, one [get_item] was issued per
    id, and no more events are counted as deleted than [delete_item]
    calls were issued.  It ends early only on an exception that
    [except Exception] does not catch. *)
Theorem delete_events_counts_every_id (event_ids : list string) (w : W) :
  let run := DeleteSpecificEvents.delete_events event_ids w in
  match result_of run with
  | Ok (successful, failed) =>
      successful + failed = Z.of_nat (List.length event_ids)
      /\ 0 <= successful <= count_calls is_delete (trace_of run)
      /\ 0 <= failed
      /\ count_calls is_get_item (trace_of run)
         = Z.of_nat (List.length event_ids)
  | Raise e => is_Exception e = false
  end.
Proof.
  exact (delete_events_from event_ids 0 0 w).
Qed.

Lemma emits_for_fold_in {A S} (Q : call -> Prop) (body : A -> S -> M W S)
      (l : list A) :
  (forall x, In x l -> forall s, emits Q (body x s)) ->
  forall s, emits Q (for_fold l s body).
Proof.
  induction l as [|x l IH]; intros Hbody s; cbn [for_fold].
  - apply emits_ret.
  - apply emits_bind.
    + apply Hbody. now left.
    + intros s'. apply IH. intros y Hy. apply Hbody. now right.
Qed.

Lemma emits_weaken {A} (Q Q' : call -> Prop) (m : M W A) :
  (forall c, Q c -> Q' c) -> emits Q m -> emits Q' m.
Proof.
  intros HQ Hm w. eapply Forall_impl; [exact HQ|apply Hm].
Qed.

(** A call that [delete_events] may issue for the ids [event_ids]: a
    [get_item] or a [delete_item] on the events table, with the key of
    one of the ids. *)
Abbreviation touches event_ids :=
  (fun c : call =>
     exists event_id,
       In event_id event_ids
       /\ (c = get_of event_id \/ c = del_of event_id)).

Lemma delete_event_touches (event_ids : list string) (event_id : string) :
  In event_id event_ids ->
  emits (touches event_ids) (DeleteSpecificEvents.delete_event event_id).
Proof.
  intros Hin w.
  pose proof (delete_event_runs event_id w) as H. cbv zeta in H.
  assert (Hg : touches event_ids (get_of event_id))
    by (exists event_id; auto).
  assert (Hd : touches event_ids (del_of event_id))
    by (exists event_id; auto).
  destruct (perform (get_of event_id) w) as [[r|e] w1].
  - destruct (Item r) as [item|].
    + destruct (perform (del_of event_id) w1) as [[[]|e] w2];
        rewrite H; unfold trace_of; cbn [snd]; repeat constructor; assumption.
    + rewrite H; unfold trace_of; cbn [snd]; repeat constructor; assumption.
  - rewrite H; unfold trace_of; cbn [snd]; repeat constructor; assumption.
Qed.

Lemma delete_events_touches (event_ids : list string) :
  emits (touches event_ids) (DeleteSpecificEvents.delete_events event_ids).
Proof.
  unfold DeleteSpecificEvents.delete_events.
  apply emits_for_fold_in. intros event_id Hin [successful failed].
  apply emits_bind; [now apply delete_event_touches|].
  intros []; apply emits_ret.
Qed.

(** Whatever the table and the user answer, the script
    delete-specific-events only scans the events table, prompts, and
    reads or deletes items of the events table under the keys of the ids
    listed in [event_ids_to_delete]. *)
Theorem delete_specific_events_touches_only_the_listed_events :
  emits
    (fun c =>
       c = TableScan DeleteSpecificEvents.events_table None None
       \/ c = Input DeleteSpecificEvents.prompt
       \/ touches DeleteSpecificEvents.event_ids_to_delete c)
    DeleteSpecificEvents.main.
Proof.
  assert (Hlist :
    emits
      (fun c =>
         c = TableScan DeleteSpecificEvents.events_table None None
         \/ c = Input DeleteSpecificEvents.prompt
         \/ touches DeleteSpecificEvents.event_ids_to_delete c)
      DeleteSpecificEvents.list_events).
  { unfold DeleteSpecificEvents.list_events.
    repeat emits_step. now left. }
  unfold DeleteSpecificEvents.main.
  apply emits_bind; [exact Hlist|]. intros _.
  apply emits_bind; [apply emits_do_call; right; now left|]. intros answer.
  destruct (negb _); [apply emits_ret|].
  apply emits_bind; [|intros _; exact Hlist].
  eapply emits_weaken; [|apply delete_events_touches].
  intros c Hc. right. right. exact Hc.
Qed.

End TableDeletes.

(** ** What the cleanup script reports *)

Section CleanupCount.

Context {W : Type} {P : Platform W}.
Variable base : string.

(** One turn of the loop of [delete_all_entities]: the counter goes up by
    one exactly when the turn pauses, and it pauses only after a delete
    request. *)
Lemma delete_one_step (ty : string) (entity : json) (deleted_count : Z)
      (w : W) :
  exists r w1 t,
    DeleteAll.delete_one base ty entity deleted_count w = (r, w1, t)
    /\ count_calls is_sleep t <= count_calls is_http_delete t <= 1
    /\ match r with
       | Ok n => n = deleted_count + count_calls is_sleep t
       | Raise _ => True
       end.
Proof.
  assert (Hnil : count_calls is_sleep [] <= count_calls is_http_delete [] <= 1)
    by (unfold count_calls; cbn; lia).
  unfold DeleteAll.delete_one, DeleteAll.delete_entity, try_except, bind,
    lift, do_call, raise_for_status, raise, ret.
  destruct (Py.get entity (ty ++ "Id") JNull) as [entity_id|e];
    [|eexists _, _, _; split; [reflexivity|]; split; [exact Hnil|exact I]].
  destruct (Py.get entity (ty ++ "Name") (JStr "Unknown")) as [inner|e];
    [|eexists _, _, _; split; [reflexivity|]; split; [exact Hnil|exact I]].
  destruct (Py.get entity "name" inner) as [name|e];
    [|eexists _, _, _; split; [reflexivity|]; split; [exact Hnil|exact I]].
  destruct (Py.truthy entity_id);
    [|eexists _, _, _; split; [reflexivity|]; split;
      [exact Hnil|unfold count_calls; cbn; lia]].
  destruct (perform (SessionDelete _) w) as [[r|e] w1].
  - destruct ((400 <=? status_code r) && (status_code r <? 600)).
    + cbn. eexists _, _, _. split; [reflexivity|].
      unfold count_calls; cbn; lia.
    + cbn. destruct (perform (Sleep 100) w1) as [[[]|e] w2].
      * eexists _, _, _. split; [reflexivity|].
        unfold count_calls. cbn. lia.
      * eexists _, _, _. split; [reflexivity|].
        unfold count_calls. cbn. lia.
  - destruct e; cbn; eexists _, _, _; (split; [reflexivity|]);
      unfold count_calls; cbn; lia.
Qed.

(** [get_all_entities] issues one request, a [GET]. *)
Lemma get_all_entities_trace (ty : string) (w : W) :
  trace_of (DeleteAll.get_all_entities base ty w)
  = [SessionGet (base ++ "/" ++ ty ++ "s") None].
Proof.
  unfold DeleteAll.get_all_entities, try_except, bind, do_call,
    raise_for_status, json_of, lift, raise, ret, trace_of.
  destruct (perform _ w) as [[r|e] w1]; crunch; reflexivity.
Qed.

Lemma delete_one_fold (ty : string) (items : list json) :
  forall (deleted_count : Z) (w : W),
    let run := for_fold items deleted_count (DeleteAll.delete_one base ty) w in
    count_calls is_sleep (trace_of run)
    <= count_calls is_http_delete (trace_of run)
    <= Z.of_nat (List.length items)
    /\ match result_of run with
       | Ok n => n = deleted_count + count_calls is_sleep (trace_of run)
       | Raise _ => True
       end.
Proof.
  induction items as [|entity rest IH]; intros n0 w.
  - cbn. unfold count_calls. cbn. lia.
  - cbv zeta. cbn [for_fold].
    destruct (delete_one_step ty entity n0 w) as (r & w1 & t & E & Hc & Hr).
    change (List.length (entity :: rest)) with (S (List.length rest)).
    destruct r as [n1|e].
    + rewrite (bind_ok _ _ _ _ _ _ E).
      specialize (IH n1 w1). cbv zeta in IH.
      unfold result_of, trace_of in IH |- *. cbn [fst snd].
      destruct (for_fold rest n1 (DeleteAll.delete_one base ty) w1)
        as [[r2 w2] t2].
      cbn [fst snd] in IH |- *. rewrite !count_calls_app.
      destruct r2 as [n|e]; lia.
    + rewrite (bind_raise _ _ _ _ _ _ E).
      unfold result_of, trace_of. cbn [fst snd]. lia.
Qed.

(** Every run of [delete_all_entities] starts with the listing request
    and pauses no more often than it sends delete requests. *)
Lemma delete_all_entities_pauses (ty : string) (w : W) :
  let run := DeleteAll.delete_all_entities base ty w in
  count_calls is_sleep (trace_of run)
  <= count_calls is_http_delete (trace_of run)
  /\ (exists rest,
        trace_of run
        = SessionGet (base ++ "/" ++ ty ++ "s") None :: rest)
  /\ match result_of run with
     | Ok n => n = count_calls is_sleep (trace_of run)
     | Raise _ => True
     end.
Proof.
  cbv zeta. unfold DeleteAll.delete_all_entities.
  pose proof (get_all_entities_trace ty w) as Hget.
  destruct (DeleteAll.get_all_entities base ty w) as [[r w1] t] eqn:E.
  unfold trace_of in Hget. cbn [snd] in Hget. subst t.
  destruct r as [entities|e].
  - rewrite (bind_ok _ _ _ _ _ _ E).
    unfold result_of, trace_of. cbn [fst snd].
    destruct (negb (Py.truthy entities)).
    + cbn. unfold count_calls. cbn. split; [lia|]. split; [eauto|reflexivity].
    + destruct (Py.iter entities) as [items|e].
      * assert (El : lift (W := W) (Ok items) w1 = (Ok items, w1, []))
          by reflexivity.
        rewrite (bind_ok _ _ _ _ _ _ El).
        pose proof (delete_one_fold ty items 0 w1) as H. cbv zeta in H.
        unfold result_of, trace_of in H |- *.
        destruct (for_fold items 0 (DeleteAll.delete_one base ty) w1)
          as [[r2 w2] t2].
        cbn [fst snd app] in H |- *.
        change (SessionGet (base ++ "/" ++ ty ++ "s") None :: t2)
          with ([SessionGet (base ++ "/" ++ ty ++ "s") None] ++ t2)%list.
        rewrite !count_calls_app.
        split; [unfold count_calls at 1 3; cbn; lia|].
        split; [now exists t2|].
        destruct r2 as [n|e]; [|exact I].
        unfold count_calls at 1. cbn. lia.
      * assert (El : lift (W := W) (A := list json) (Raise e) w1
                     = (Raise e, w1, [])) by reflexivity.
        rewrite (bind_raise _ _ _ _ _ _ El).
        cbn. unfold count_calls. cbn. split; [lia|]. split; [eauto|exact I].
  - rewrite (bind_raise _ _ _ _ _ _ E).
    unfold result_of, trace_of. cbn [fst snd]. unfold count_calls. cbn.
    split; [lia|]. split; [eauto|exact I].
Qed.

(** Every run of [delete_all_entities] starts with the listing request
    and pauses no more often than it sends delete requests.  When it
    returns, the number it reports is the number of delete requests that
    the server accepted, which is the number of pauses it made; each
    accepted request is directly followed by its pause of a tenth of a
    second; and, the pauses put aside, its calls are the listing request
    and one delete request for each record of the fetched listing that
    carries an id, in listing order. *)
Theorem delete_all_entities_reports_accepted_deletes (ty : string) (w : W) :
  let run := DeleteAll.delete_all_entities base ty w in
  (exists rest,
      trace_of run = SessionGet (base ++ "/" ++ ty ++ "s") None :: rest)
  /\ count_calls is_sleep (trace_of run)
     <= count_calls is_http_delete (trace_of run)
  /\ forall n : Z,
       result_of run = Ok n ->
       n = accepted_deletes (trace_of run) w
       /\ n = count_calls is_sleep (trace_of run)
       /\ paused_after_accepted (replay (trace_of run) w)
       /\ exists records,
            goes_through base ty w records
            /\ without_pauses (trace_of run)
               = SessionGet (base ++ "/" ++ ty ++ "s") None
                 :: cleanup_requests base ty (ids_of (ty ++ "Id") records).
Proof.
  cbv zeta.
  destruct (delete_all_entities_pauses ty w) as (Hle & Hget & _).
  split; [exact Hget|]. split; [exact Hle|].
  intros n Hn.
  destruct (DeleteAll.delete_all_entities base ty w) as [[r wf] t] eqn:E.
  unfold result_of in Hn. cbn [fst snd] in Hn. subst r.
  unfold trace_of. cbn [snd].
  destruct (delete_all_entities_runs base ty n w wf t E)
    as (records & Hrec & _ & Hreq & Hacc & Hsleep & Hpaused).
  split; [exact Hacc|]. split; [congruence|]. split; [exact Hpaused|].
  exists records. split; [exact Hrec|exact Hreq].
Qed.

(** A listing that cannot be fetched counts as an empty one: when the
    listing request fails in transport, or is answered with a 4xx or 5xx
    status, [delete_all_entities] returns 0 after that one request. *)
Theorem delete_all_entities_takes_a_failed_listing_for_empty
        (ty : string) (w : W) :
  let listing := SessionGet (base ++ "/" ++ ty ++ "s") None in
  (fst (perform listing w) = Raise RequestException
   \/ exists r, fst (perform listing w) = Ok r
                /\ 400 <= status_code r < 600) ->
  DeleteAll.delete_all_entities base ty w
  = (Ok 0, snd (perform listing w), [listing]).
Proof.
  cbv zeta. intros H.
  unfold DeleteAll.delete_all_entities, DeleteAll.get_all_entities,
    try_except, bind, do_call, raise_for_status.
  destruct (perform (SessionGet (base ++ "/" ++ ty ++ "s") None) w)
    as [r w1].
  cbn [fst snd] in H |- *. destruct H as [-> | (r0 & -> & Hs)].
  - reflexivity.
  - replace ((400 <=? status_code r0) && (status_code r0 <? 600)) with true
      by (symmetry; apply andb_true_iff; split;
          [apply Z.leb_le|apply Z.ltb_lt]; lia).
    reflexivity.
Qed.

End CleanupCount.

Lemma delete_all_entities_reports_accepted_deletes_witness :
  let run := DeleteAll.delete_all_entities (P := Server.Reference)
               Server.base "event" one_of_each in
  result_of run = Ok 1
  /\ trace_of run
     = [SessionGet "http://localhost:3001/api/events" None;
        SessionDelete "http://localhost:3001/api/events/u11";
        Sleep 100]
  /\ 1 = accepted_deletes (P := Server.Reference) (trace_of run) one_of_each
  /\ paused_after_accepted (P := Server.Reference)
       (replay (P := Server.Reference) (trace_of run) one_of_each).
Proof.
  intros run.
  assert (H : result_of run = Ok 1) by (vm_compute; reflexivity).
  split; [exact H|]. split; [vm_compute; reflexivity|].
  destruct (proj2 (proj2 (delete_all_entities_reports_accepted_deletes
                            (P := Server.Reference) Server.base "event"
                            one_of_each)) 1 H)
    as (Hacc & _ & Hpaused & _).
  split; [exact Hacc|exact Hpaused].
Defined.

Lemma delete_all_entities_takes_a_failed_listing_for_empty_witness :
  DeleteAll.delete_all_entities (P := Offline)
    DeleteAll.default_api_base_url "event" tt
  = (Ok 0, tt,
     [SessionGet (DeleteAll.default_api_base_url ++ "/event" ++ "s") None]).
Proof.
  apply (delete_all_entities_takes_a_failed_listing_for_empty
           (P := Offline) DeleteAll.default_api_base_url "event" tt).
  left. reflexivity.
Defined.

(** ** The table readers when a scan fails *)

Section BrokenReaders.

Context {W : Type} {P : Platform W}.

Lemma follow_pages_breaks (table : string)
      (filter : option (string * dict)) :
  forall (key : dict) (w : W) (n : nat) (e : exn) (w' : W) (t : list call),
    pages_break table filter (Some key) w n e w' t ->
    forall (fuel : nat) (response : scan_output) (items : list dict),
      (n < fuel)%nat ->
      LastEvaluatedKey response = Some key ->
      ListVenues.follow_pages fuel table filter response items w
      = (Raise e, w', t).
Proof.
  intros key w n e w' t H.
  remember (Some key) as start eqn:Estart. revert key Estart.
  induction H as [start w w' e Hp | start w w1 w' p key' n e t Hp Hk H IH];
    intros key -> fuel response items Hfuel Hresp;
    (destruct fuel as [|fuel]; [lia|]);
    cbn [ListVenues.follow_pages]; rewrite Hresp;
    unfold bind, do_call; rewrite Hp.
  - reflexivity.
  - rewrite (IH key' eq_refl fuel p _ ltac:(lia) Hk). reflexivity.
Qed.

Lemma scan_all_breaks (table : string) (filter : option (string * dict))
      (w : W) (n : nat) (e : exn) (w' : W) (t : list call) (fuel : nat) :
  pages_break table filter None w n e w' t ->
  (n <= fuel)%nat ->
  ListVenues.scan_all fuel table filter w = (Raise e, w', t).
Proof.
  intros H Hfuel. unfold ListVenues.scan_all.
  inversion H as [start w0 w0' e0 Hp | start w0 w1 w0' p key n0 e0 t0 Hp Hk H0];
    subst; unfold bind, do_call; rewrite Hp.
  - reflexivity.
  - rewrite (follow_pages_breaks table filter key w1 n0 e w' t0 H0
               fuel p _ ltac:(lia) Hk).
    reflexivity.
Qed.

(** What the two [except] clauses of a reader make of a failed scan. *)
Lemma reader_gives_up {A} (m : M W A) (a : A) (w w' : W) (e : exn)
      (t : list call) :
  m w = (Raise e, w', t) -> is_Exception e = true ->
  try_except2 m is_ClientError (fun _ => ret a)
    is_Exception (fun _ => ret a) w
  = (Ok a, w', t).
Proof.
  intros Hm He. unfold try_except2, try_except. rewrite Hm, He.
  rewrite orb_true_r. destruct (is_ClientError e); cbn;
    now rewrite app_nil_r.
Qed.

(** The readers return all pages or nothing: when the table has served
    [n] pages and the next scan raises an [Exception], [get_all_venues]
    and [get_all_events] return the empty list and [get_all_users] the
    empty dict, whatever the pages read so far held. *)
Theorem readers_drop_the_pages_read_when_a_scan_fails
        (w w' : W) (n fuel : nat) (e : exn) (t : list call) :
  is_Exception e = true -> (n <= fuel)%nat ->
  (pages_break ListVenues.venues_table (ListVenues.entity_filter "VENUE")
     None w n e w' t ->
   ListVenues.get_all_venues fuel w = (Ok (Some []), w', t))
  /\ (pages_break ListVenues.events_table (ListVenues.entity_filter "EVENT")
        None w n e w' t ->
      ListVenues.get_all_events fuel w = (Ok (Some []), w', t))
  /\ (pages_break ListVenues.users_table ListVenues.profile_filter
        None w n e w' t ->
      ListVenues.get_all_users fuel w = (Ok (Some []), w', t)).
Proof.
  intros He Hfuel. repeat split; intros H.
  - apply reader_gives_up with (e := e); [|exact He]. now apply scan_all_breaks with n.
  - apply reader_gives_up with (e := e); [|exact He]. now apply scan_all_breaks with n.
  - apply reader_gives_up with (e := e); [|exact He].
    apply bind_raise. now apply scan_all_breaks with n.
Qed.

End BrokenReaders.

Lemma readers_drop_the_pages_read_when_a_scan_fails_witness :
  ListVenues.get_all_venues (P := Paged) 5 broken_table
  = (Ok (Some []), broken_table,
     [TableScan ListVenues.venues_table (ListVenues.entity_filter "VENUE")
        None;
      TableScan ListVenues.venues_table (ListVenues.entity_filter "VENUE")
        (Some [("PK", JStr "VENUE#1")])]).
Proof.
  apply (readers_drop_the_pages_read_when_a_scan_fails (P := Paged)
           broken_table broken_table 1 5 ClientError).
  - reflexivity.
  - lia.
  - eapply breaks_later; [reflexivity|reflexivity|].
    apply breaks_here. reflexivity.
Defined.

(** ** The exceptions that leave a script *)

Section Raises.

Context {W : Type} {P : Platform W}.

Lemma raises_only_ret {A} (Q : exn -> Prop) (a : A) :
  raises_only (W := W) Q (ret a).
Proof. intros w e H. discriminate H. Qed.

Lemma raises_only_raise {A} (Q : exn -> Prop) (e : exn) :
  Q e -> raises_only (W := W) (A := A) Q (raise e).
Proof. intros HQ w e' H. injection H as <-. exact HQ. Qed.

Lemma raises_only_lift {A} (Q : exn -> Prop) (r : res A) :
  (forall e, r = Raise e -> Q e) -> raises_only (W := W) Q (lift r).
Proof. intros HQ w e H. apply HQ. exact H. Qed.

Lemma raises_only_bind {A B} (Q : exn -> Prop) (m : M W A)
      (f : A -> M W B) :
  raises_only Q m -> (forall a, raises_only Q (f a)) ->
  raises_only Q (bind m f).
Proof.
  intros Hm Hf w e.
  destruct (bind_trace_cases m f w)
    as [(e0 & Hr & _ & Hres & _) | (a & _ & _ & Hres & _)]; rewrite Hres.
  - intros H. injection H as <-. now apply (Hm w).
  - apply Hf.
Qed.

(** A [try] statement lets through what its body raises and no clause
    catches, and what its handlers raise. *)
Lemma raises_only_try_except {A} (Q : exn -> Prop) (m : M W A)
      (c : exn -> bool) (h : exn -> M W A) :
  (forall w e, result_of (m w) = Raise e -> c e = false -> Q e) ->
  (forall e, raises_only Q (h e)) ->
  raises_only Q (try_except m c h).
Proof.
  intros Hm Hh w e. unfold try_except, result_of.
  specialize (Hm w). unfold result_of in Hm.
  destruct (m w) as [[[a|e0] w1] t1]; cbn [fst] in *; [discriminate|].
  destruct (c e0) eqn:Ec.
  - specialize (Hh e0 w1 e). unfold result_of in Hh.
    destruct (h e0 w1) as [[r2 w2] t2]. exact Hh.
  - intros H. injection H as <-. now apply Hm.
Qed.

Lemma raises_only_try {A} (Q : exn -> Prop) (m : M W A)
      (c : exn -> bool) (h : exn -> M W A) :
  raises_only Q m -> (forall e, raises_only Q (h e)) ->
  raises_only Q (try_except m c h).
Proof.
  intros Hm Hh. apply raises_only_try_except; [|exact Hh].
  intros w e H _. now apply (Hm w).
Qed.

Lemma raises_only_for_fold {A S} (Q : exn -> Prop)
      (body : A -> S -> M W S) :
  (forall x s, raises_only Q (body x s)) ->
  forall l s, raises_only Q (for_fold l s body).
Proof.
  intros Hbody. induction l as [|x l IH]; intros s; cbn [for_fold].
  - apply raises_only_ret.
  - apply raises_only_bind; [apply Hbody|intros s'; apply IH].
Qed.

Lemma raises_only_for_each {A} (Q : exn -> Prop) (body : A -> M W unit) :
  (forall x, raises_only Q (body x)) ->
  forall l, raises_only Q (for_each l body).
Proof.
  intros Hbody. induction l as [|x l IH]; cbn [for_each].
  - apply raises_only_ret.
  - apply raises_only_bind; [apply Hbody|intros _; apply IH].
Qed.

(** The two [except] clauses of a table reader leave nothing that
    [except Exception] catches. *)
Lemma reader_swallows {A} (m : M W A) (a b : A) :
  raises_only is_BaseException_only
    (try_except2 m is_ClientError (fun _ => ret a)
       is_Exception (fun _ => ret b)).
Proof.
  unfold try_except2. apply raises_only_try_except.
  - intros w e _ H. apply orb_false_iff in H as [_ H]. exact H.
  - intros e. destruct (is_ClientError e); apply raises_only_ret.
Qed.

(** The table readers of the listing script only read: every call of
    [get_all_venues], [get_all_events] and [get_all_users] is a scan of
    its own table under its own filter, [get_user_by_id] issues one
    [get_item] under the key of the user, and none of the four lets an
    [Exception] through. *)
Theorem table_readers_only_read (fuel : nat) (user_id : string) :
  emits (fun c => exists start,
           c = TableScan ListVenues.venues_table
                 (ListVenues.entity_filter "VENUE") start)
        (ListVenues.get_all_venues fuel)
  /\ emits (fun c => exists start,
              c = TableScan ListVenues.events_table
                    (ListVenues.entity_filter "EVENT") start)
           (ListVenues.get_all_events fuel)
  /\ emits (fun c => exists start,
              c = TableScan ListVenues.users_table
                    ListVenues.profile_filter start)
           (ListVenues.get_all_users fuel)
  /\ (forall w, trace_of (ListVenues.get_user_by_id user_id w)
                = [TableGetItem ListVenues.users_table
                     (ListVenues.user_key user_id)])
  /\ raises_only is_BaseException_only (ListVenues.get_all_venues fuel)
  /\ raises_only is_BaseException_only (ListVenues.get_all_events fuel)
  /\ raises_only is_BaseException_only (ListVenues.get_all_users fuel)
  /\ raises_only is_BaseException_only
       (ListVenues.get_user_by_id user_id).
Proof.
  assert (Hscan : forall table filter,
            emits (fun c => exists start, c = TableScan table filter start)
                  (ListVenues.scan_all fuel table filter)).
  { intros table filter. unfold ListVenues.scan_all.
    apply emits_bind; [apply emits_do_call; eauto|]. intros response.
    generalize (ListVenues.items_of response) as items.
    revert response. induction fuel as [|n IH]; intros response items;
      cbn [ListVenues.follow_pages];
      destruct (LastEvaluatedKey response) as [key|];
      try apply emits_ret.
    apply emits_bind; [apply emits_do_call; eauto|].
    intros response'. apply IH. }
  repeat split.
  - unfold ListVenues.get_all_venues, try_except2.
    apply emits_try_except; [apply Hscan|].
    intros e; destruct (is_ClientError e); apply emits_ret.
  - unfold ListVenues.get_all_events, try_except2.
    apply emits_try_except; [apply Hscan|].
    intros e; destruct (is_ClientError e); apply emits_ret.
  - unfold ListVenues.get_all_users, try_except2.
    apply emits_try_except.
    + apply emits_bind; [apply Hscan|].
      intros [users|]; [|apply emits_ret].
      apply emits_bind; [apply emits_lift|intros ?; apply emits_ret].
    + intros e; destruct (is_ClientError e); apply emits_ret.
  - intros w. unfold ListVenues.get_user_by_id, try_except2, try_except,
      bind, do_call, ret, trace_of.
    destruct (perform _ w) as [[r|e] w1]; [reflexivity|].
    destruct e; reflexivity.
  - apply reader_swallows.
  - apply reader_swallows.
  - apply reader_swallows.
  - apply reader_swallows.
Qed.

End Raises.

(** ** The exit status of the seed script and of the cleanup script *)

Section ExitStatus.

Context {W : Type} {P : Platform W}.

(** The surroundings raise no [SystemExit]. *)
Hypothesis outside : never_exits P.

(** An exception that is no [SystemExit] with a code other than 0 or
    1. *)
Abbreviation tame :=
  (fun e : exn => forall code, e = SystemExit code -> code = 0 \/ code = 1).

Lemma tame_other (e : exn) : is_SystemExit e = false -> tame e.
Proof. intros H code ->. discriminate H. Qed.

Lemma tame_exit_0 : tame (SystemExit 0).
Proof. intros code H. injection H as <-. now left. Qed.

Lemma tame_exit_1 : tame (SystemExit 1).
Proof. intros code H. injection H as <-. now right. Qed.

Lemma raises_do_call (c : call) : raises_only tame (do_call c).
Proof.
  intros w e H. unfold do_call, result_of in H.
  pose proof (outside c w) as Ho.
  destruct (perform c w) as [[r|e0] w1]; cbn [fst] in *; [discriminate|].
  injection H as <-. now apply tame_other.
Qed.

(** A request, followed by what is done with its answer: the body of
    the answer decodes or raises no [SystemExit]. *)
Lemma raises_request {B} (c : call) (f : reply c -> M W B) :
  (forall r,
      (forall e, decoding_error c r = Some e -> is_SystemExit e = false) ->
      raises_only tame (f r)) ->
  raises_only tame (bind (do_call c) f).
Proof.
  intros Hf w e. unfold bind, do_call, result_of.
  pose proof (outside c w) as Ho.
  destruct (perform c w) as [[r|e0] w1]; cbn [fst] in Ho.
  - assert (Hr : forall e1, decoding_error c r = Some e1 ->
                            is_SystemExit e1 = false).
    { intros e1 He1. rewrite He1 in Ho. exact Ho. }
    specialize (Hf r Hr w1 e). unfold result_of in Hf.
    destruct (f r w1) as [[r2 w2] t2]. exact Hf.
  - cbn. intros H. injection H as <-. now apply tame_other.
Qed.

Lemma raises_get {B} (url : string) (timeout : option Z)
      (f : response -> M W B) :
  (forall r, (forall e, json_body r = Raise e -> is_SystemExit e = false) ->
             raises_only tame (f r)) ->
  raises_only tame (bind (do_call (SessionGet url timeout)) f).
Proof.
  intros Hf. apply raises_request. intros r Hr. apply Hf.
  intros e He. apply Hr. cbn. now rewrite He.
Qed.

Lemma raises_post {B} (url : string) (body : json)
      (f : response -> M W B) :
  (forall r, (forall e, json_body r = Raise e -> is_SystemExit e = false) ->
             raises_only tame (f r)) ->
  raises_only tame (bind (do_call (SessionPost url body)) f).
Proof.
  intros Hf. apply raises_request. intros r Hr. apply Hf.
  intros e He. apply Hr. cbn. now rewrite He.
Qed.

Lemma raises_delete {B} (url : string) (f : response -> M W B) :
  (forall r, (forall e, json_body r = Raise e -> is_SystemExit e = false) ->
             raises_only tame (f r)) ->
  raises_only tame (bind (do_call (SessionDelete url)) f).
Proof.
  intros Hf. apply raises_request. intros r Hr. apply Hf.
  intros e He. apply Hr. cbn. now rewrite He.
Qed.

Lemma raises_json_of (r : response) :
  (forall e, json_body r = Raise e -> is_SystemExit e = false) ->
  raises_only (W := W) tame (json_of r).
Proof.
  intros Hr. apply raises_only_lift. intros e He. apply tame_other. auto.
Qed.

Lemma raises_raise_for_status (r : response) :
  raises_only (W := W) tame (raise_for_status r).
Proof.
  unfold raise_for_status. destruct (_ && _).
  - apply raises_only_raise, tame_other. reflexivity.
  - apply raises_only_ret.
Qed.

Lemma py_get_raises (x : json) (k : string) (d : json) (e : exn) :
  Py.get x k d = Raise e -> is_SystemExit e = false.
Proof. destruct x; cbn; intros H; inversion H; reflexivity. Qed.

Lemma py_getitem_raises (x : json) (k : string) (e : exn) :
  Py.getitem x k = Raise e -> is_SystemExit e = false.
Proof.
  destruct x; cbn; try (intros H; inversion H; reflexivity).
  destruct (Py.lookup k d); intros H; inversion H; reflexivity.
Qed.

Lemma py_iter_raises (x : json) (e : exn) :
  Py.iter x = Raise e -> is_SystemExit e = false.
Proof. destruct x; cbn; intros H; inversion H; reflexivity. Qed.

Lemma py_add_raises (a b : json) (e : exn) :
  Py.add a b = Raise e -> is_SystemExit e = false.
Proof. destruct a, b; cbn; intros H; inversion H; reflexivity. Qed.

Ltac tame_step :=
  match goal with
  | |- raises_only _ (bind (do_call (SessionGet _ _)) _) =>
      apply raises_get; intros ? ?
  | |- raises_only _ (bind (do_call (SessionPost _ _)) _) =>
      apply raises_post; intros ? ?
  | |- raises_only _ (bind (do_call (SessionDelete _)) _) =>
      apply raises_delete; intros ? ?
  | |- raises_only _ (bind _ _) => apply raises_only_bind; [|intros ?]
  | |- raises_only _ (try_except _ _ _) => apply raises_only_try; [|intros ?]
  | |- raises_only _ (for_fold _ _ _) =>
      apply raises_only_for_fold; intros ? ?
  | |- raises_only _ (for_each _ _) => apply raises_only_for_each; intros ?
  | |- raises_only _ (ret _) => apply raises_only_ret
  | |- raises_only _ (sys_exit 1) => apply raises_only_raise, tame_exit_1
  | |- raises_only _ (sys_exit 0) => apply raises_only_raise, tame_exit_0
  | |- raises_only _ (raise _) =>
      apply raises_only_raise, tame_other; reflexivity
  | |- raises_only _ (do_call _) => apply raises_do_call
  | |- raises_only _ (json_of _) => apply raises_json_of; assumption
  | |- raises_only _ (raise_for_status _) => apply raises_raise_for_status
  | |- raises_only _ (lift _) =>
      apply raises_only_lift; intros ? ?; apply tame_other;
      eauto using py_get_raises, py_getitem_raises, py_iter_raises,
        py_add_raises
  | |- raises_only _ (if ?b then _ else _) => destruct b
  | |- raises_only _ (match ?x with _ => _ end) => destruct x
  end.

Lemma populate_get_all_tame (base path : string) :
  raises_only tame (Populate.get_all base path).
Proof. unfold Populate.get_all. repeat tame_step. Qed.

Lemma populate_delete_entity_tame (base ty : string) (id : json) :
  raises_only tame (Populate.delete_entity base ty id).
Proof. unfold Populate.delete_entity. repeat tame_step. Qed.

Lemma populate_create_venue_tame (base : string) (data : json) :
  raises_only tame (Populate.create_venue base data).
Proof. unfold Populate.create_venue. repeat tame_step. Qed.

Lemma populate_create_room_tame (base : string) (data : json) :
  raises_only tame (Populate.create_room base data).
Proof. unfold Populate.create_room. repeat tame_step. Qed.

Lemma populate_create_event_tame (base : string) (data : json) :
  raises_only tame (Populate.create_event base data).
Proof. unfold Populate.create_event. repeat tame_step. Qed.

(** The date computations raise [ValueError] or [OverflowError]. *)
Lemma date_add_raises (dt : Date.date) (r : Date.relativedelta) (e : exn) :
  Date.add dt r = Raise e -> is_SystemExit e = false.
Proof.
  unfold Date.add, Date.make, Date.add_days.
  destruct (if Date.rd_months r =? 0 then _ else _) as [y m].
  destruct (Date.check_date_fields _ _ _); cbn [res_bind].
  - destruct (_ && _); intros H; inversion H; reflexivity.
  - intros H; inversion H; reflexivity.
Qed.

Lemma dates_raises (today : Date.date) (e : exn) :
  Populate.dates today = Raise e -> is_SystemExit e = false.
Proof.
  unfold Populate.dates, Date.sub.
  repeat match goal with
         | |- res_bind (Date.add ?dt ?r) _ = Raise e -> _ =>
             let E := fresh "E" in
             destruct (Date.add dt r) eqn:E; cbn [res_bind];
             [|intros H; injection H as <-;
               exact (date_add_raises _ _ _ E)]
         end.
  discriminate.
Qed.

Lemma find_venue_loop_tame (name : string) (venues : list json) :
  raises_only tame (Populate.find_venue_loop (W := W) venues name).
Proof.
  induction venues as [|venue rest IH]; cbn [Populate.find_venue_loop].
  - apply raises_only_ret.
  - tame_step; [tame_step|]. destruct (Py.eq _ _); [tame_step|exact IH].
Qed.

Lemma cleanup_venue_data_tame (base : string) (venue_id : json)
      (venue_name : string) :
  raises_only tame (Populate.cleanup_venue_data base venue_id venue_name).
Proof.
  unfold Populate.cleanup_venue_data, Populate.get_all_events,
    Populate.get_all_rooms, Populate.delete_referencing.
  repeat first [ apply populate_get_all_tame
               | apply populate_delete_entity_tame
               | tame_step ].
Qed.

Lemma assign_room_to_event_tame (base : string) (event_id room_id data : json) :
  raises_only tame (Populate.assign_room_to_event base event_id room_id data).
Proof. unfold Populate.assign_room_to_event. repeat tame_step. Qed.

Lemma populate_data_tame (base : string) :
  raises_only tame (Populate.populate_data base).
Proof.
  unfold Populate.populate_data.
  tame_step.
  { unfold Populate.check_server. repeat tame_step. }
  tame_step; [tame_step|].
  tame_step.
  { unfold Populate.authenticate. repeat tame_step. }
  tame_step; [tame_step|].
  tame_step; [tame_step|].
  tame_step.
  { apply raises_only_lift. intros e He. apply tame_other.
    exact (dates_raises _ _ He). }
  tame_step.
  { tame_step. unfold Populate.process_venue, Populate.find_venue_by_name,
      Populate.get_all_venues.
    repeat first [ apply populate_get_all_tame
                 | apply find_venue_loop_tame
                 | apply cleanup_venue_data_tame
                 | apply populate_create_venue_tame
                 | tame_step ]. }
  tame_step.
  { apply raises_only_for_fold. intros [venue_name rooms] created_rooms.
    destruct (Py.lookup venue_name _); [|tame_step].
    tame_step. unfold Populate.process_room.
    repeat first [ apply populate_create_room_tame | tame_step ]. }
  tame_step.
  { tame_step. unfold Populate.process_event.
    tame_step; [tame_step|].
    destruct (Py.lookup _ _); [|repeat tame_step].
    tame_step; [apply populate_create_event_tame|].
    destruct (Py.truthy _); [|tame_step].
    tame_step; [|tame_step].
    destruct (String.eqb _ _); [|tame_step].
    tame_step; [tame_step|].
    apply raises_only_for_each. intros [room_id room_info].
    repeat first [ apply assign_room_to_event_tame | tame_step ]. }
  unfold Populate.print_created_rooms.
  apply raises_only_for_each. intros [room_id room_info].
  repeat tame_step.
Qed.

Lemma cleanup_all_data_tame (base : string) :
  raises_only tame (DeleteAll.cleanup_all_data base).
Proof.
  unfold DeleteAll.cleanup_all_data, DeleteAll.check_server,
    DeleteAll.delete_all_entities, DeleteAll.get_all_entities,
    DeleteAll.delete_one, DeleteAll.delete_entity.
  repeat tame_step.
Qed.

(** What the two [except] clauses of a [main] make of its body. *)
Lemma main_status {A} (m : M W A) (w : W) :
  raises_only tame m ->
  let status :=
    exit_status
      (result_of
         (try_except2 m
            is_KeyboardInterrupt (fun _ => sys_exit 1)
            is_Exception (fun _ => sys_exit 1) w)) in
  status = 0 \/ status = 1.
Proof.
  intros Hm. cbv zeta. specialize (Hm w).
  unfold try_except2, try_except, result_of in *.
  destruct (m w) as [[[a|e] w1] t1]; cbn [fst] in *; [now left|].
  destruct e; cbn; try (now right).
  exact (Hm _ eq_refl code eq_refl).
Qed.

(** A [main] that builds its client and then runs its [try]
    statement. *)
Lemma built_main_status (init body : M W unit) (w : W) :
  raises_only tame init ->
  raises_only tame body ->
  let status :=
    exit_status
      (result_of
         ((init ;;
           try_except2 body
             is_KeyboardInterrupt (fun _ => sys_exit 1)
             is_Exception (fun _ => sys_exit 1)) w)) in
  status = 0 \/ status = 1
  \/ (status = 130 /\ result_of (init w) = Raise KeyboardInterrupt).
Proof.
  intros Hinit Hbody. cbv zeta. specialize (Hinit w).
  match goal with
  | |- context [bind ?m ?f w] =>
      destruct (bind_trace_cases m f w)
        as [(e & He & _ & Hr & _) | ([] & _ & _ & Hr & _)]
  end; rewrite Hr.
  - specialize (Hinit e He). rewrite He.
    destruct e; cbn; auto.
    destruct (Hinit code eq_refl) as [-> | ->]; auto.
  - pose proof (main_status body (world_of (init w)) Hbody) as Hs.
    cbv zeta in Hs. tauto.
Qed.

(** When the surroundings raise no [SystemExit], the seed script and
    the cleanup script end with exit status 0 or 1, whatever the server
    and the user answer: an interrupt or an unexpected error inside the
    [try] statement is turned into status 1.  The one other status is
    130, when the interrupt arrives while the client is built, before
    the [try] statement. *)
Theorem seed_and_cleanup_exit_with_status_0_1_or_130 (w : W) :
  let seed := exit_status (result_of (Populate.main w)) in
  let cleanup := exit_status (result_of (DeleteAll.main w)) in
  (seed = 0 \/ seed = 1
   \/ (seed = 130
       /\ result_of (Populate.init w) = Raise KeyboardInterrupt))
  /\ (cleanup = 0 \/ cleanup = 1
      \/ (cleanup = 130
          /\ result_of (DeleteAll.init w) = Raise KeyboardInterrupt)).
Proof.
  cbv zeta. split.
  - apply (built_main_status Populate.init
             (Populate.populate_data Populate.default_api_base_url)).
    + exact (raises_do_call
               (SessionHeadersUpdate "Content-Type" "application/json")).
    + apply populate_data_tame.
  - apply (built_main_status DeleteAll.init
             (answer <- do_call (Input DeleteAll.prompt) ;;
              if negb (DeleteAll.confirmed answer) then sys_exit 0
              else DeleteAll.cleanup_all_data DeleteAll.default_api_base_url)).
    + exact (raises_do_call
               (SessionHeadersUpdate "Content-Type" "application/json")).
    + tame_step; [tame_step|].
      destruct (negb _); [tame_step|apply cleanup_all_data_tame].
Qed.

End ExitStatus.

(** The script delete-specific-events has no handler around its
    prompt: what [input] raises (an interrupt, an end of input) leaves
    [main] as it is, after the listing and before any delete. *)
Theorem delete_specific_events_lets_a_failed_prompt_through
        {W : Type} {P : Platform W} (w w' : W) (e : exn) :
  let listed := DeleteSpecificEvents.list_events w in
  result_of listed = Ok tt ->
  perform (Input DeleteSpecificEvents.prompt) (world_of listed)
  = (Raise e, w') ->
  DeleteSpecificEvents.main w
  = (Raise e, w',
     (trace_of listed ++ [Input DeleteSpecificEvents.prompt])%list)
  /\ exit_status (result_of (DeleteSpecificEvents.main w))
     = exit_status (A := unit) (Raise e).
Proof.
  cbv zeta. intros Hok H.
  assert (Hmain : DeleteSpecificEvents.main w
                  = (Raise e, w',
                     (trace_of (DeleteSpecificEvents.list_events w)
                      ++ [Input DeleteSpecificEvents.prompt])%list)).
  { unfold DeleteSpecificEvents.main.
    destruct (DeleteSpecificEvents.list_events w) as [[r w1] t1] eqn:E.
    unfold result_of, world_of, trace_of in *. cbn [fst snd] in *. subst r.
    rewrite (bind_ok _ _ _ _ _ _ E).
    unfold result_of, world_of, trace_of, bind, do_call. rewrite H.
    reflexivity. }
  split; [exact Hmain|]. now rewrite Hmain.
Qed.

Lemma delete_specific_events_lets_a_failed_prompt_through_witness :
  DeleteSpecificEvents.main (P := Terminal) []
  = (Raise (OtherError "EOFError"), [],
     [TableScan DeleteSpecificEvents.events_table None None;
      Input DeleteSpecificEvents.prompt])
  /\ exit_status (result_of (DeleteSpecificEvents.main (P := Terminal) []))
     = 1.
Proof.
  apply (delete_specific_events_lets_a_failed_prompt_through
           (P := Terminal) [] [] (OtherError "EOFError")).
  - reflexivity.
  - reflexivity.
Defined.

Lemma offline_never_exits : never_exits Offline.
Proof. intros c w. destruct c; cbn; trivial. Qed.

(** An interrupt on the first call, nothing after it. *)
Lemma interrupted_never_exits : never_exits Interrupted.
Proof. intros c w. destruct c; cbn; trivial. Qed.

Lemma seed_and_cleanup_exit_with_status_0_1_or_130_witness :
  never_exits Interrupted
  /\ let seed :=
       exit_status (result_of (Populate.main (P := Interrupted) tt)) in
     let cleanup :=
       exit_status (result_of (DeleteAll.main (P := Interrupted) tt)) in
     (seed = 0 \/ seed = 1
      \/ (seed = 130
          /\ result_of (Populate.init (P := Interrupted) tt)
             = Raise KeyboardInterrupt))
     /\ (cleanup = 0 \/ cleanup = 1
         \/ (cleanup = 130
             /\ result_of (DeleteAll.init (P := Interrupted) tt)
                = Raise KeyboardInterrupt)).
Proof.
  split; [exact interrupted_never_exits|].
  exact (seed_and_cleanup_exit_with_status_0_1_or_130 (P := Interrupted)
           interrupted_never_exits tt).
Defined.

(** ** Authentication of the seed script *)

Section Authentication.

Context {W : Type} {P : Platform W}.
Variable base : string.

Abbreviation signup :=
  (SessionPost (base ++ "/auth/signup") Populate.signup_data).
Abbreviation login :=
  (SessionPost (base ++ "/auth/login") Populate.login_data).

(** [authenticate] answers [True] only when the login was answered
    with status 200 and a body that holds a session token under
    ["data"]["sessionToken"], and after it has installed that very token
    as bearer token; it logs in whatever the status of the answer to the
    signup request; and it lets no [RequestException] through. *)
Theorem authenticate_succeeds_only_with_a_token (w : W) :
  let run := Populate.authenticate base w in
  (result_of run = Ok true ->
   exists signup_response w1 login_response w2 data inner session_token,
     perform signup w = (Ok signup_response, w1)
     /\ perform login w1 = (Ok login_response, w2)
     /\ status_code login_response = 200
     /\ json_body login_response = Ok data
     /\ Py.get data "data" (JDict []) = Ok inner
     /\ Py.get inner "sessionToken" JNull = Ok session_token
     /\ Py.truthy session_token = true
     /\ trace_of run
        = [signup; login;
           SessionHeadersUpdate "Authorization"
             ("Bearer " ++ py_str session_token)])
  /\ (forall r w1,
        perform signup w = (Ok r, w1) ->
        exists rest, trace_of run = signup :: login :: rest)
  /\ result_of run <> Raise RequestException.
Proof.
  cbv zeta.
  unfold Populate.authenticate, try_except, bind, do_call, json_of, lift,
    ret, result_of, trace_of.
  destruct (perform signup w) as [[r1|e1] w1] eqn:Esignup.
  - destruct (perform login w1) as [[r2|e2] w2] eqn:Elogin.
    + destruct (Z.eqb_spec (status_code r2) 200) as [E200|_].
      * destruct (json_body r2) as [data|e3] eqn:Edata.
        -- destruct (Py.get data "data" (JDict [])) as [inner|e4] eqn:Einner.
           ++ destruct (Py.get inner "sessionToken" JNull) as [token|e5]
                eqn:Etoken.
              ** destruct (Py.truthy token) eqn:Et.
                 --- destruct (perform (SessionHeadersUpdate _ _) w2)
                       as [[[]|e6] w3].
                     +++ cbn. split.
                         { intros _.
                           exists r1, w1, r2, w2, data, inner, token.
                           auto 10. }
                         split; [intros r w0 H; eauto|discriminate].
                     +++ destruct e6; cbn;
                           (split; [discriminate|]);
                           (split; [intros r w0 H; eauto|discriminate]).
                 --- cbn. split; [discriminate|].
                     split; [intros r w0 H; eauto|discriminate].
              ** destruct e5; cbn; (split; [discriminate|]);
                   (split; [intros r w0 H; eauto|discriminate]).
           ++ destruct e4; cbn; (split; [discriminate|]);
                (split; [intros r w0 H; eauto|discriminate]).
        -- destruct e3; cbn; (split; [discriminate|]);
             (split; [intros r w0 H; eauto|discriminate]).
      * cbn. split; [discriminate|].
        split; [intros r w0 H; eauto|discriminate].
    + destruct e2; cbn; (split; [discriminate|]);
        (split; [intros r w0 H; eauto|discriminate]).
  - destruct e1; cbn; (split; [discriminate|]);
      (split; [intros r w0 H; discriminate H|discriminate]).
Qed.

End Authentication.

(** Steps over the first part of a [bind] whose result is known to be
    [Ok]. *)
Ltac through a Ha :=
  match goal with
  | |- result_of (bind ?m ?f ?w0) = Ok _ -> _ =>
      let e := fresh "e" in
      let Hr := fresh "Hr" in
      let X := fresh "X" in
      destruct (bind_trace_cases m f w0)
        as [(e & _ & _ & Hr & _) | (a & Ha & _ & Hr & _)];
      rewrite Hr; [intros X; discriminate X|]; clear Hr; cbv zeta
  end.

(** ** What the seed script does not do when a step fails *)

Section SeedGuards.

Context {W : Type} {P : Platform W}.
Variable base : string.

(** A call that deletes nothing and, when it is a [POST], is one of the
    two requests of [authenticate]. *)
Abbreviation harmless :=
  (fun c : call =>
     is_delete c = false
     /\ forall url body,
          c = SessionPost url body ->
          url = base ++ "/auth/signup" \/ url = base ++ "/auth/login").

Lemma check_server_harmless : emits harmless (Populate.check_server base).
Proof.
  unfold Populate.check_server.
  repeat emits_step; (split; [reflexivity|intros url body H; discriminate H]).
Qed.

Lemma authenticate_harmless : emits harmless (Populate.authenticate base).
Proof.
  unfold Populate.authenticate.
  repeat emits_step;
    (split; [reflexivity|intros url body H; try discriminate H;
                         injection H as <- _; auto]).
Qed.

(** When the server is up but the login does not yield a session token,
    [populate_data] exits with status 1 right after [authenticate]: it
    has sent the probe and the two authentication requests and nothing
    else, so it has deleted and created nothing. *)
Theorem failed_authentication_exits_before_creating (w : W) :
  let probe := Populate.check_server base w in
  let auth := Populate.authenticate base (world_of probe) in
  result_of probe = Ok true -> result_of auth = Ok false ->
  Populate.populate_data base w
  = (Raise (SystemExit 1), world_of auth,
     (trace_of probe ++ trace_of auth)%list)
  /\ Forall harmless (trace_of (Populate.populate_data base w)).
Proof.
  cbv zeta. intros Hprobe Hauth.
  assert (Hrun : Populate.populate_data base w
                 = (Raise (SystemExit 1),
                    world_of (Populate.authenticate base
                                (world_of (Populate.check_server base w))),
                    (trace_of (Populate.check_server base w)
                     ++ trace_of (Populate.authenticate base
                                    (world_of (Populate.check_server base w))))%list)).
  { pose proof Hprobe as Hp. pose proof Hauth as Ha.
    destruct (Populate.check_server base w) as [[r1 w1] t1] eqn:E1.
    unfold result_of, world_of, trace_of in *. cbn [fst snd] in *. subst r1.
    destruct (Populate.authenticate base w1) as [[r2 w2] t2] eqn:E2.
    cbn [fst snd] in *. subst r2.
    unfold Populate.populate_data.
    rewrite (bind_ok _ _ _ _ _ _ E1). cbn [negb].
    rewrite (bind_ok _ _ _ _ _ _ E2). cbn [negb].
    unfold result_of, world_of, trace_of, sys_exit, raise. cbn [fst snd].
    now rewrite app_nil_r. }
  split; [exact Hrun|].
  rewrite Hrun. unfold trace_of at 1. cbn [snd].
  apply Forall_app. split.
  - apply check_server_harmless.
  - apply authenticate_harmless.
Qed.

(** [emits] through a [bind] whose second part relies on a property of
    the value of the first. *)
Lemma emits_bind_knowing {A B} (Q : call -> Prop) (R : A -> Prop)
      (m : M W A) (f : A -> M W B) :
  emits Q m ->
  (forall w a, result_of (m w) = Ok a -> R a) ->
  (forall a, R a -> emits Q (f a)) ->
  emits Q (bind m f).
Proof.
  intros Hm HR Hf w.
  destruct (bind_trace_cases m f w) as [(e & _ & H & _) | (a & Ha & H & _)];
    rewrite H.
  - apply Hm.
  - apply Forall_app. split; [apply Hm|]. apply Hf. now apply (HR w).
Qed.

(** A request that creates no room, no event and no room assignment. *)
Abbreviation creates_nothing_below_a_venue :=
  (fun c : call =>
     ~ posts_to (base ++ "/rooms") c
     /\ ~ posts_to (base ++ "/events") c
     /\ ~ posts_to (base ++ "/event-rooms") c).

Lemma not_a_post (c : call) :
  (forall url body, c <> SessionPost url body) ->
  creates_nothing_below_a_venue c.
Proof.
  intros H. repeat split; intros [body Hc]; exact (H _ _ Hc).
Qed.

Lemma post_elsewhere (path : string) (body : json) :
  path <> "/rooms" -> path <> "/events" -> path <> "/event-rooms" ->
  creates_nothing_below_a_venue (SessionPost (base ++ path) body).
Proof.
  intros H1 H2 H3. repeat split; intros [body' Hc]; injection Hc as Hc _;
    apply append_cancel_l in Hc; congruence.
Qed.

Ltac quiet_call :=
  first [ apply not_a_post; intros ? ? ?; discriminate
        | apply post_elsewhere; discriminate ].

Lemma get_all_quiet (path : string) :
  emits creates_nothing_below_a_venue (Populate.get_all base path).
Proof. unfold Populate.get_all. repeat emits_step; quiet_call. Qed.

Lemma delete_entity_quiet (ty : string) (id : json) :
  emits creates_nothing_below_a_venue (Populate.delete_entity base ty id).
Proof. unfold Populate.delete_entity. repeat emits_step; quiet_call. Qed.

Lemma find_venue_loop_quiet (name : string) (venues : list json) :
  emits creates_nothing_below_a_venue
    (Populate.find_venue_loop (W := W) venues name).
Proof.
  induction venues as [|venue rest IH]; cbn [Populate.find_venue_loop].
  - apply emits_ret.
  - apply emits_bind; [apply emits_lift|]. intros name0.
    destruct (Py.eq _ _); [apply emits_ret|exact IH].
Qed.

Lemma process_venue_quiet (venue_data created_venues : dict) :
  emits creates_nothing_below_a_venue
    (Populate.process_venue base venue_data created_venues).
Proof.
  unfold Populate.process_venue, Populate.find_venue_by_name,
    Populate.get_all_venues, Populate.cleanup_venue_data,
    Populate.get_all_events, Populate.get_all_rooms,
    Populate.delete_referencing, Populate.create_venue.
  repeat first [ apply get_all_quiet
               | apply delete_entity_quiet
               | apply find_venue_loop_quiet
               | emits_step ];
    quiet_call.
Qed.

(** No venue is recorded as created when [create_venue] never yields an
    id. *)
Hypothesis no_venue :
  forall (data : json) (w : W) (venue_id : json),
    result_of (Populate.create_venue base data w) = Ok venue_id ->
    Py.truthy venue_id = false.

Lemma process_venue_records_nothing (venue_data created_venues : dict)
      (w : W) (created : dict) :
  result_of (Populate.process_venue base venue_data created_venues w)
  = Ok created ->
  created = created_venues.
Proof.
  unfold Populate.process_venue.
  through name Hname. through existing Hexisting. through u Hu.
  through venue_id Hid.
  rewrite (no_venue _ _ _ Hid).
  intros H. now injection H as <-.
Qed.

Lemma venues_loop_records_nothing (venues : list dict) :
  forall (created_venues : dict) (w : W) (created : dict),
    result_of (for_fold venues created_venues (Populate.process_venue base) w)
    = Ok created ->
    created = created_venues.
Proof.
  induction venues as [|venue_data rest IH]; intros cv w created;
    cbn [for_fold].
  - intros H. now injection H as <-.
  - destruct (bind_trace_cases
                (Populate.process_venue base venue_data cv)
                (fun s' => for_fold rest s' (Populate.process_venue base)) w)
      as [(e & _ & _ & Hr & _) | (cv' & Hcv & _ & Hr & _)]; rewrite Hr;
      [discriminate|].
    apply process_venue_records_nothing in Hcv. subst cv'. apply IH.
Qed.

(** Rooms and events hang on the id of a created venue: when no venue
    can be created, [populate_data] posts no room, no event and no room
    assignment. *)
Theorem nothing_is_created_below_a_venue_that_was_not_created :
  emits creates_nothing_below_a_venue (Populate.populate_data base).
Proof.
  unfold Populate.populate_data.
  apply emits_bind.
  { unfold Populate.check_server. repeat emits_step; quiet_call. }
  intros up. destruct (negb up); [apply emits_raise|].
  apply emits_bind.
  { unfold Populate.authenticate. repeat emits_step; quiet_call. }
  intros authenticated. destruct (negb authenticated); [apply emits_raise|].
  apply emits_bind; [apply emits_do_call; quiet_call|]. intros today.
  apply emits_bind; [apply emits_lift|]. intros d.
  apply emits_bind_knowing with (R := fun created => created = []).
  - apply emits_for_fold. intros. apply process_venue_quiet.
  - intros w created H. now apply venues_loop_records_nothing in H.
  - intros created ->.
    apply emits_bind.
    { apply emits_for_fold. intros [venue_name rooms] created_rooms.
      apply emits_ret. }
    intros created_rooms.
    apply emits_bind.
    + apply emits_for_fold. intros event_data created_events.
      unfold Populate.process_event.
      apply emits_bind; [apply emits_lift|]. intros name.
      cbn [Py.lookup]. repeat emits_step.
    + intros created_events. unfold Populate.print_created_rooms.
      apply emits_for_each. intros [room_id room_info].
      repeat emits_step.
Qed.

End SeedGuards.

Lemma nothing_is_created_below_a_venue_that_was_not_created_witness :
  Forall
    (fun c =>
       ~ posts_to (Populate.default_api_base_url ++ "/rooms") c
       /\ ~ posts_to (Populate.default_api_base_url ++ "/events") c
       /\ ~ posts_to (Populate.default_api_base_url ++ "/event-rooms") c)
    (trace_of (Populate.populate_data (P := Refusing)
                 Populate.default_api_base_url tt)).
Proof.
  apply (nothing_is_created_below_a_venue_that_was_not_created
           (P := Refusing) Populate.default_api_base_url).
  intros data w venue_id.
  unfold Populate.create_venue, try_except, bind, do_call, lift, ret,
    result_of.
  cbn. destruct (Py.getitem data "name"); cbn; intros H;
    [now injection H as <-|discriminate H].
Defined.

Lemma failed_authentication_exits_before_creating_witness :
  Populate.populate_data (P := Locked) Populate.default_api_base_url tt
  = (Raise (SystemExit 1), tt,
     [SessionGet "http://localhost:3001/" (Some 5);
      SessionPost "http://localhost:3001/api/auth/signup"
        Populate.signup_data;
      SessionPost "http://localhost:3001/api/auth/login"
        Populate.login_data])
  /\ Forall
       (fun c =>
          is_delete c = false
          /\ forall url body,
               c = SessionPost url body ->
               url = Populate.default_api_base_url ++ "/auth/signup"
               \/ url = Populate.default_api_base_url ++ "/auth/login")
       (trace_of (Populate.populate_data (P := Locked)
                    Populate.default_api_base_url tt)).
Proof.
  apply (failed_authentication_exits_before_creating (P := Locked)
           Populate.default_api_base_url tt).
  - reflexivity.
  - reflexivity.
Defined.

(** ** The creator statistics of the listing script *)

Module CreatorCounts.

Import ListVenues.

Ltac to_props :=
  repeat match goal with
         | H : (_ =? _) = true |- _ => apply Z.eqb_eq in H
         | H : String.eqb _ _ = true |- _ => apply String.eqb_eq in H
         | H : Bool.eqb _ _ = true |- _ => apply Bool.eqb_prop in H
         end.

(** On hashable values [==] is symmetric and transitive. *)
Lemma eq_sym_hashable (a b : json) :
  Py.hashable a = true -> Py.hashable b = true -> Py.eq a b = Py.eq b a.
Proof.
  destruct a, b; cbn; try discriminate; intros _ _; try reflexivity.
  - destruct b, b0; reflexivity.
  - apply Z.eqb_sym.
  - apply Z.eqb_sym.
  - apply Z.eqb_sym.
  - apply String.eqb_sym.
Qed.

Lemma eq_trans_hashable (a b c : json) :
  Py.hashable a = true -> Py.hashable b = true -> Py.hashable c = true ->
  Py.eq a b = true -> Py.eq b c = true -> Py.eq a c = true.
Proof.
  destruct a, b, c; cbn; try discriminate; intros _ _ _ H1 H2;
    to_props; subst;
    rewrite ?Z.eqb_refl, ?String.eqb_refl, ?Bool.eqb_reflx;
    try reflexivity;
    repeat match goal with
           | x : bool |- _ => destruct x
           end;
    cbn in *; try reflexivity; try discriminate; try lia.
Qed.

Lemma eq_left_hashable (a b c : json) :
  Py.hashable a = true -> Py.hashable b = true -> Py.hashable c = true ->
  Py.eq a b = true -> Py.eq a c = Py.eq b c.
Proof.
  intros Ha Hb Hc Hab.
  destruct (Py.eq b c) eqn:Ebc.
  - now apply eq_trans_hashable with b.
  - destruct (Py.eq a c) eqn:Eac; [|reflexivity].
    rewrite <- Ebc. symmetry.
    apply eq_trans_hashable with a; auto.
    now rewrite eq_sym_hashable.
Qed.

(** The keys of a [creator_counts] dict are hashable. *)
Abbreviation keyed counts :=
  (Forall (fun entry : json * Z => Py.hashable (fst entry) = true) counts).

Lemma kset_keyed (k : json) (v : Z) (counts : list (json * Z)) :
  Py.hashable k = true -> keyed counts -> keyed (Py.kset k v counts).
Proof.
  intros Hk. induction counts as [|[k1 v1] counts IH]; cbn [Py.kset].
  - intros _. now constructor.
  - intros H. inversion H as [|? ? H1 H2]; subst.
    destruct (Py.eq k k1); constructor; auto.
Qed.

Lemma total_kset (k : json) (v : Z) (counts : list (json * Z)) :
  total (Py.kset k v counts) = total counts + v - Py.kget k 0 counts.
Proof.
  induction counts as [|[k1 v1] counts IH]; cbn [Py.kset Py.kget].
  - unfold total. cbn. lia.
  - destruct (Py.eq k k1).
    + unfold total. cbn. lia.
    + unfold total in *. cbn in *. lia.
Qed.

Lemma kget_kset (k k' : json) (v : Z) (counts : list (json * Z)) :
  Py.hashable k = true -> Py.hashable k' = true -> keyed counts ->
  Py.kget k' 0 (Py.kset k v counts)
  = if Py.eq k k' then v else Py.kget k' 0 counts.
Proof.
  intros Hk Hk'. induction counts as [|[k1 v1] counts IH];
    cbn [Py.kset Py.kget]; intros Hkeys.
  - rewrite (eq_sym_hashable k' k) by assumption.
    destruct (Py.eq k k'); reflexivity.
  - inversion Hkeys as [|? ? H1 H2]; subst. cbn [fst] in H1.
    destruct (Py.eq k k1) eqn:E; cbn [Py.kget].
    + rewrite (eq_sym_hashable k' k1) by assumption.
      rewrite (eq_left_hashable k k1 k') by assumption.
      destruct (Py.eq k1 k'); reflexivity.
    + destruct (Py.eq k' k1) eqn:E1.
      * assert (Hd : Py.eq k k' = false).
        { destruct (Py.eq k k') eqn:E2; [|reflexivity].
          rewrite <- E. symmetry.
          now apply eq_trans_hashable with k'. }
        now rewrite Hd.
      * now apply IH.
Qed.

Lemma attributed_cons (creator : json) (record : dict) (rest : list dict) :
  attributed_to creator (record :: rest)
  = (if Py.eq (created_by record) creator then 1 else 0)
    + attributed_to creator rest.
Proof.
  unfold attributed_to. cbn [List.filter].
  destruct (Py.eq (created_by record) creator); cbn [List.length]; lia.
Qed.

(** The loop, started from the counts [counts0]. *)
Lemma creator_counts_from (records : list dict) :
  forall counts0 : list (json * Z),
    Forall (fun record => Py.hashable (created_by record) = true) records ->
    keyed counts0 -> distinct_keys counts0 ->
    exists counts,
      creator_counts records counts0 = Ok counts
      /\ keyed counts /\ distinct_keys counts
      /\ total counts = total counts0 + Z.of_nat (List.length records)
      /\ forall creator,
           Py.hashable creator = true ->
           Py.kget creator 0 counts
           = Py.kget creator 0 counts0 + attributed_to creator records.
Proof.
  induction records as [|record rest IH]; intros counts0 Hrec Hkeys Hdist.
  - exists counts0. split; [reflexivity|]. split; [exact Hkeys|].
    split; [exact Hdist|]. split; [cbn; lia|].
    intros creator _. unfold attributed_to. cbn. lia.
  - inversion Hrec as [|? ? Hr Hrest]; subst.
    cbn [creator_counts]. rewrite Hr.
    destruct (IH (Py.kset (created_by record)
                    (Py.kget (created_by record) 0 counts0 + 1) counts0)
                Hrest
                (kset_keyed _ _ _ Hr Hkeys)
                (kset_distinct_keys _ _ _ Hdist))
      as (counts & Hrun & Hk & Hd & Htotal & Hget).
    exists counts. split; [exact Hrun|]. split; [exact Hk|].
    split; [exact Hd|]. split.
    + rewrite Htotal, total_kset.
      change (List.length (record :: rest)) with (S (List.length rest)).
      lia.
    + intros creator Hc. rewrite (Hget creator Hc), attributed_cons.
      rewrite (kget_kset _ _ _ _ Hr Hc Hkeys).
      destruct (Py.eq (created_by record) creator) eqn:E; [|lia].
      rewrite (eq_sym_hashable _ _ Hr Hc) in E.
      assert (Hsame : Py.kget creator 0 counts0
                      = Py.kget (created_by record) 0 counts0).
      { clear - E Hr Hc Hkeys.
        induction counts0 as [|[k1 v1] counts0 IH]; cbn [Py.kget];
          [reflexivity|].
        inversion Hkeys as [|? ? H1 H2]; subst. cbn [fst] in H1.
        rewrite (eq_left_hashable creator (created_by record) k1)
          by assumption.
        destruct (Py.eq (created_by record) k1); auto. }
      lia.
Qed.

(** The creator statistics account for every record: when every
    [createdBy] value is hashable the loop ends, the counts add up to
    the number of records, no creator is listed twice, and the count
    under a creator is the number of records attributed to it (records
    without a [createdBy] count under ["Unknown"]). *)
Theorem creator_counts_account_for_every_record (records : list dict) :
  Forall (fun record => Py.hashable (created_by record) = true) records ->
  exists counts,
    creator_counts records [] = Ok counts
    /\ total counts = Z.of_nat (List.length records)
    /\ distinct_keys counts
    /\ forall creator,
         Py.hashable creator = true ->
         Py.kget creator 0 counts = attributed_to creator records.
Proof.
  intros Hrec.
  destruct (creator_counts_from records [] Hrec (Forall_nil _) I)
    as (counts & Hrun & _ & Hd & Htotal & Hget).
  exists counts. split; [exact Hrun|]. split; [exact Htotal|].
  split; [exact Hd|]. intros creator Hc. now rewrite (Hget creator Hc).
Qed.

Lemma creator_counts_account_for_every_record_witness :
  exists counts,
    creator_counts
      [[("venueName", JStr "A"); ("createdBy", JStr "u1")];
       [("venueName", JStr "B")];
       [("venueName", JStr "C"); ("createdBy", JStr "u1")];
       [("venueName", JStr "D"); ("createdBy", JStr "Unknown")]] []
    = Ok counts
    /\ total counts = 4
    /\ distinct_keys counts
    /\ forall creator,
         Py.hashable creator = true ->
         Py.kget creator 0 counts
         = attributed_to creator
             [[("venueName", JStr "A"); ("createdBy", JStr "u1")];
              [("venueName", JStr "B")];
              [("venueName", JStr "C"); ("createdBy", JStr "u1")];
              [("venueName", JStr "D"); ("createdBy", JStr "Unknown")]].
Proof.
  apply (creator_counts_account_for_every_record
           [[("venueName", JStr "A"); ("createdBy", JStr "u1")];
            [("venueName", JStr "B")];
            [("venueName", JStr "C"); ("createdBy", JStr "u1")];
            [("venueName", JStr "D"); ("createdBy", JStr "Unknown")]]).
  repeat constructor.
Defined.

End CreatorCounts.

(** ** The dates of the seeded events *)

Module EventDates.

Import Date DateFacts.

(** Inside a year, a date of an earlier month comes first. *)
Lemma earlier_month_same_year (y m d m' d' : Z) :
  calendar_day (mkdate y m d) -> calendar_day (mkdate y m' d') -> m < m' ->
  days_before_month y m + d < days_before_month y m' + d'.
Proof.
  intros [Hm Hd] [Hm' Hd'] Hlt. simpl in *.
  unfold days_before_month, days_in_month in *.
  destruct (is_leap y);
    destruct (month_cases m Hm) as [->|[->|[->|[->|[->|[->|[->|[->|[->|[->|[->| ->]]]]]]]]]]];
    destruct (month_cases m' Hm') as [->|[->|[->|[->|[->|[->|[->|[->|[->|[->|[->| ->]]]]]]]]]]];
    cbv [DAYS_BEFORE_MONTH DAYS_IN_MONTH Z.eqb Z.ltb Z.compare Pos.compare
         Pos.compare_cont Pos.eqb andb] in *; lia.
Qed.

(** A date of an earlier month comes first. *)
Lemma earlier_month (a b : date) :
  valid a -> valid b ->
  12 * year a + month a < 12 * year b + month b ->
  earlier a b.
Proof.
  destruct a as [y m d], b as [y' m' d']. intros [_ Ha] [_ Hb] Hlt.
  pose proof Ha as [Hm _]. pose proof Hb as [Hm' _].
  cbn [year month day] in *.
  unfold earlier, toordinal, ymd2ord. cbn [year month day].
  pose proof (day_of_year_bounds _ _ _ Ha) as Hba.
  pose proof (day_of_year_bounds _ _ _ Hb) as Hbb.
  destruct (Z.eq_dec y y') as [<-|Hne].
  - pose proof (earlier_month_same_year y m d m' d' Ha Hb ltac:(lia)). lia.
  - assert (Hy : y + 1 <= y') by lia.
    pose proof (days_before_year_mono _ _ Hy) as Hmono.
    rewrite days_before_year_step in Hmono. lia.
Qed.

(** On every day from 0001-05-01 to 9999-08-31 the dates the seed script
    computes for its events are valid dates in this order: four months
    ago, two months ago, today, the 2nd and the 4th Tuesday of next
    month, in three months, in four months.  The dates moved by months
    lie that many months from today's month and keep today's day of the
    month, cut down to the length of their month. *)
Theorem seed_event_dates_are_ordered (today : date) :
  valid today -> seedable today ->
  exists d,
    Populate.dates today = Ok d
    /\ let p2 := Populate.past_date_2 d in
       let p1 := Populate.past_date_1 d in
       let second := Populate.future_next_month_2nd_tuesday d in
       let fourth := Populate.future_next_month_4th_tuesday d in
       let f1 := Populate.future_date_1 d in
       let f2 := Populate.future_date_2 d in
       (valid p2 /\ valid p1 /\ valid second /\ valid fourth
        /\ valid f1 /\ valid f2)
       /\ (earlier p2 p1 /\ earlier p1 today /\ earlier today second
           /\ earlier second fourth /\ earlier fourth f1 /\ earlier f1 f2)
       /\ Forall
            (fun '(months, moved) =>
               12 * year moved + month moved
               = 12 * year today + month today + months
               /\ day moved
                  = Z.min (days_in_month (year moved) (month moved))
                          (day today))
            [(-4, p2); (-2, p1); (3, f1); (4, f2)].
Proof.
  intros Hv Hs.
  destruct (dates_of_a_seedable_day today Hv Hs)
    as (p1 & p2 & f1 & f2 & y & m & k & -> & Hp1 & Hp2 & Hf1 & Hf2 & Hy & Hm
        & Hym & Hk).
  eexists. split; [reflexivity|].
  cbn [Populate.past_date_1 Populate.past_date_2 Populate.future_date_1
       Populate.future_date_2 Populate.future_next_month_2nd_tuesday
       Populate.future_next_month_4th_tuesday].
  cbv zeta.
  destruct Hp1 as (Hv1 & Hi1 & Hd1), Hp2 as (Hv2 & Hi2 & Hd2),
    Hf1 as (Hv3 & Hi3 & Hd3), Hf2 as (Hv4 & Hi4 & Hd4).
  assert (Hi : 12 * y + m = 12 * year today + month today + 1).
  { destruct Hv as [_ [Hmt _]].
    destruct (Z.eqb_spec (month today) 12); injection Hym as -> ->; lia. }
  assert (Hk' : 0 <= k < 7) by (subst k; apply Z.mod_pos_bound; lia).
  pose proof (days_in_month_ge_28 y m Hm) as H28.
  assert (Hsecond : valid (mkdate y m (8 + k)))
    by (split; [exact Hy|]; split; cbn [year month day]; lia).
  assert (Hfourth : valid (mkdate y m (22 + k)))
    by (split; [exact Hy|]; split; cbn [year month day]; lia).
  split; [tauto|]. split.
  - split; [apply earlier_month; auto; lia|].
    split; [apply earlier_month; auto; lia|].
    split; [apply earlier_month; cbn [year month]; auto; lia|].
    split.
    { unfold earlier, toordinal, ymd2ord. cbn [year month day]. lia. }
    split; apply earlier_month; cbn [year month]; auto; lia.
  - repeat constructor; assumption.
Qed.

Lemma seed_event_dates_are_ordered_witness :
  let today := mkdate 2024 12 31 in
  valid today /\ seedable today
  /\ exists d,
       Populate.dates today = Ok d
       /\ Populate.past_date_2 d = mkdate 2024 8 31
       /\ Populate.past_date_1 d = mkdate 2024 10 31
       /\ Populate.future_date_1 d = mkdate 2025 3 31
       /\ Populate.future_date_2 d = mkdate 2025 4 30
       /\ earlier (Populate.past_date_2 d) (Populate.past_date_1 d)
       /\ earlier (Populate.future_next_month_4th_tuesday d)
                  (Populate.future_date_1 d).
Proof.
  intros today.
  assert (Hv : valid today).
  { unfold valid, calendar_day, MINYEAR, MAXYEAR.
    cbv [today year month day days_in_month DAYS_IN_MONTH Z.eqb Pos.eqb
         andb]. lia. }
  assert (Hs : seedable today) by (unfold seedable; cbn; lia).
  split; [exact Hv|]. split; [exact Hs|].
  destruct (seed_event_dates_are_ordered today Hv Hs)
    as (d & Hd & _ & (H1 & _ & _ & _ & H5 & _) & _).
  exists d. split; [exact Hd|].
  assert (Hd' : Populate.dates today
                = Ok (Populate.mkdates
                        (mkdate 2024 10 31) (mkdate 2024 8 31)
                        (mkdate 2025 3 31) (mkdate 2025 4 30)
                        (mkdate 2025 1 1) (mkdate 2025 1 7)
                        (mkdate 2025 1 14) (mkdate 2025 1 28)))
    by (vm_compute; reflexivity).
  rewrite Hd' in Hd. injection Hd as <-.
  repeat (split; [reflexivity|]). split; assumption.
Defined.

End EventDates.

(** ** The answers the cleanup script takes for a yes *)

Module Answers.

(** The characters that lower to one of the letters of ["yes"]. *)
Lemma lowers_to_y (c : ascii) :
  Str.lower_ascii c = "y"%char -> c = "y"%char \/ c = "Y"%char.
Proof.
  destruct c as [[] [] [] [] [] [] [] []]; intros H; vm_compute in H;
    try discriminate H; auto.
Qed.

Lemma lowers_to_e (c : ascii) :
  Str.lower_ascii c = "e"%char -> c = "e"%char \/ c = "E"%char.
Proof.
  destruct c as [[] [] [] [] [] [] [] []]; intros H; vm_compute in H;
    try discriminate H; auto.
Qed.

Lemma lowers_to_s (c : ascii) :
  Str.lower_ascii c = "s"%char -> c = "s"%char \/ c = "S"%char.
Proof.
  destruct c as [[] [] [] [] [] [] [] []]; intros H; vm_compute in H;
    try discriminate H; auto.
Qed.

(** The prompt of the cleanup script takes exactly ten answers for a
    yes: ["yes"] and ["y"] in any letter case.  An answer with a space
    before or after is not one of them; the script does not strip its
    input. *)
Theorem cleanup_prompt_accepts_exactly_ten_answers (answer : string) :
  DeleteAll.confirmed answer = true
  <-> In answer ["yes"; "yeS"; "yEs"; "yES"; "Yes"; "YeS"; "YEs"; "YES";
                 "y"; "Y"].
Proof.
  split.
  - unfold DeleteAll.confirmed. cbv zeta. intros H.
    apply orb_true_iff in H as [H | H]; apply String.eqb_eq in H.
    + destruct answer as [|c1 [|c2 [|c3 [|c4 rest]]]]; cbn [Str.lower] in H;
        try discriminate H.
      injection H as H1 H2 H3.
      destruct (lowers_to_y _ H1) as [-> | ->];
        destruct (lowers_to_e _ H2) as [-> | ->];
        destruct (lowers_to_s _ H3) as [-> | ->];
        cbn; tauto.
    + destruct answer as [|c1 [|c2 rest]]; cbn [Str.lower] in H;
        try discriminate H.
      injection H as H1.
      destruct (lowers_to_y _ H1) as [-> | ->]; cbn; tauto.
  - intros H.
    repeat (destruct H as [<- | H]; [reflexivity|]). destruct H.
Qed.

End Answers.

(** ** The request that creates a room *)

Module DictFacts.

Lemma lookup_set_same (k : string) (v : json) (d : dict) :
  Py.lookup k (Py.set k v d) = Some v.
Proof.
  induction d as [|[k1 v1] d IH]; cbn [Py.set Py.lookup].
  - now rewrite String.eqb_refl.
  - destruct (String.eqb k k1) eqn:E; cbn [Py.lookup].
    + now rewrite String.eqb_refl.
    + now rewrite E.
Qed.

Lemma lookup_set_other (k k' : string) (v : json) (d : dict) :
  k' <> k -> Py.lookup k' (Py.set k v d) = Py.lookup k' d.
Proof.
  intros Hne. apply String.eqb_neq in Hne.
  induction d as [|[k1 v1] d IH]; cbn [Py.set Py.lookup].
  - now rewrite Hne.
  - destruct (String.eqb k k1) eqn:E; cbn [Py.lookup].
    + apply String.eqb_eq in E. subst k1. now rewrite Hne.
    + now rewrite IH.
Qed.

Lemma lookup_del_other (k k' : string) (d : dict) :
  k' <> k -> Py.lookup k' (Py.del k d) = Py.lookup k' d.
Proof.
  intros Hne. apply String.eqb_neq in Hne.
  induction d as [|[k1 v1] d IH]; cbn [Py.del Py.lookup]; [reflexivity|].
  destruct (String.eqb k k1) eqn:E; cbn [Py.lookup].
  - apply String.eqb_eq in E. subst k1. now rewrite Hne.
  - now rewrite IH.
Qed.

Lemma lookup_absent (k : string) (d : dict) :
  ~ In k (map fst d) -> Py.lookup k d = None.
Proof.
  induction d as [|[k1 v1] d IH]; cbn [Py.lookup map fst]; [reflexivity|].
  intros Hn. destruct (String.eqb_spec k k1) as [->|_].
  - exfalso. apply Hn. now left.
  - apply IH. intros Hin. apply Hn. now right.
Qed.

(** Deleting a key of a dict removes it. *)
Lemma lookup_del_same (k : string) (d : dict) :
  NoDup (map fst d) -> Py.lookup k (Py.del k d) = None.
Proof.
  induction d as [|[k1 v1] d IH]; cbn [Py.del Py.lookup map fst];
    [reflexivity|].
  intros Hnd. inversion Hnd as [|? ? Hn Hd]; subst.
  destruct (String.eqb_spec k k1) as [->|Hne]; cbn [Py.lookup].
  - now apply lookup_absent.
  - apply String.eqb_neq in Hne. rewrite Hne. now apply IH.
Qed.

Lemma keys_of_set (k : string) (v : json) (d : dict) (k' : string) :
  In k' (map fst (Py.set k v d)) -> k' = k \/ In k' (map fst d).
Proof.
  induction d as [|[k1 v1] d IH]; cbn [Py.set map fst].
  - intros [<- | []]. now left.
  - destruct (String.eqb_spec k k1) as [->|Hne]; cbn [map fst].
    + intros [<- | H]; [now left|]. right. now right.
    + intros [<- | H]; [right; now left|].
      destruct (IH H) as [-> | H']; [now left|]. right. now right.
Qed.

(** Assigning to a key keeps the keys of a dict distinct. *)
Lemma set_keeps_keys_distinct (k : string) (v : json) (d : dict) :
  NoDup (map fst d) -> NoDup (map fst (Py.set k v d)).
Proof.
  induction d as [|[k1 v1] d IH]; cbn [Py.set map fst].
  - intros _. constructor; [intros []|constructor].
  - intros Hnd. inversion Hnd as [|? ? Hn Hd]; subst.
    destruct (String.eqb_spec k k1) as [->|Hne]; cbn [map fst].
    + now constructor.
    + constructor; [|now apply IH].
      intros Hin. destruct (keys_of_set _ _ _ _ Hin) as [-> | H];
        [now apply Hne|now apply Hn].
Qed.

End DictFacts.

Section RoomRequest.

Context {W : Type} {P : Platform W}.
Variable base : string.

Lemma bind_lift_ok {A B} (a : A) (f : A -> M W B) (w : W) :
  bind (lift (Ok a)) f w = f a w.
Proof.
  unfold bind, lift. destruct (f a w) as [[r w1] t]. reflexivity.
Qed.

(** The request [process_room] sends for a room of the catalog: the
    room's entry with the venue id added and with its ["roomName"] moved
    to ["name"]; every other field is sent as it is.  An entry without a
    ["roomName"] raises [KeyError] before anything is sent. *)
Theorem room_request_renames_the_room_name
        (venue_name : string) (venue_id : json) (room_data : dict)
        (created_rooms : list (json * json)) (w : W) :
  NoDup (map fst room_data) ->
  let run := Populate.process_room base venue_name venue_id room_data
               created_rooms w in
  match Py.lookup "roomName" room_data with
  | None => run = (Raise KeyError, w, [])
  | Some room_name =>
      exists body,
        trace_of run = [SessionPost (base ++ "/rooms") (JDict body)]
        /\ Py.lookup "name" body = Some room_name
        /\ Py.lookup "venueId" body = Some venue_id
        /\ Py.lookup "roomName" body = None
        /\ forall k,
             k <> "name" -> k <> "venueId" -> k <> "roomName" ->
             Py.lookup k body = Py.lookup k room_data
  end.
Proof.
  intros Hnd. cbv zeta. unfold Populate.process_room.
  cbn [Py.getitem].
  destruct (Py.lookup "roomName" room_data) as [room_name|]; [|reflexivity].
  rewrite bind_lift_ok. cbv beta zeta.
  set (body := Py.del "roomName"
                 (Py.set "name" room_name
                    (Py.set "venueId" venue_id room_data))).
  exists body. split.
  - pose proof (create_room_trace base (JDict body) w) as Ht.
    unfold bind.
    destruct (Populate.create_room base (JDict body) w)
      as [[r w1] t].
    unfold trace_of in Ht |- *. cbn [snd] in Ht |- *. subst t.
    destruct r as [room_id|e]; [|reflexivity].
    destruct (Py.truthy room_id); [|reflexivity].
    destruct (Py.hashable room_id); reflexivity.
  - subst body. split.
    + rewrite DictFacts.lookup_del_other by discriminate.
      apply DictFacts.lookup_set_same.
    + split.
      * rewrite DictFacts.lookup_del_other by discriminate.
        rewrite DictFacts.lookup_set_other by discriminate.
        apply DictFacts.lookup_set_same.
      * split.
        -- apply DictFacts.lookup_del_same.
           now repeat apply DictFacts.set_keeps_keys_distinct.
        -- intros k H1 H2 H3.
           rewrite DictFacts.lookup_del_other by assumption.
           rewrite DictFacts.lookup_set_other by assumption.
           now rewrite DictFacts.lookup_set_other by assumption.
Qed.

End RoomRequest.

Lemma room_request_renames_the_room_name_witness :
  exists body,
    trace_of (Populate.process_room (P := Offline)
                Populate.default_api_base_url
                Populate.MONKEY_PUZZLE_VENUE (JStr "v1")
                (Populate.room "Main Area" 30
                   "Large open area with tables and chairs") [] tt)
    = [SessionPost (Populate.default_api_base_url ++ "/rooms") (JDict body)]
    /\ Py.lookup "name" body = Some (JStr "Main Area")
    /\ Py.lookup "venueId" body = Some (JStr "v1")
    /\ Py.lookup "roomName" body = None
    /\ forall k,
         k <> "name" -> k <> "venueId" -> k <> "roomName" ->
         Py.lookup k body
         = Py.lookup k (Populate.room "Main Area" 30
                          "Large open area with tables and chairs").
Proof.
  apply (room_request_renames_the_room_name (P := Offline)
           Populate.default_api_base_url Populate.MONKEY_PUZZLE_VENUE
           (JStr "v1")
           (Populate.room "Main Area" 30
              "Large open area with tables and chairs") [] tt).
  repeat constructor; cbn; intuition discriminate.
Defined.

(** ** Which events get their rooms assigned *)

Section Assignments.

Context {W : Type} {P : Platform W}.
Variable base : string.

Abbreviation assigns := (is_post_to (base ++ "/event-rooms")).

(** The calls of the body of [assign_room_to_event]: nothing when the
    event lacks a field, and otherwise the one request. *)
Lemma assign_room_to_event_trace (event_id room_id event_data : json)
      (w : W) :
  (exists e,
      Populate.assign_room_to_event base event_id room_id event_data w
      = (Raise e, w, []))
  \/ exists body,
       trace_of (Populate.assign_room_to_event base event_id room_id
                   event_data w)
       = [SessionPost (base ++ "/event-rooms") body].
Proof.
  unfold Populate.assign_room_to_event, try_except, bind, lift.
  repeat match goal with
         | |- context [match Py.getitem ?x ?k with _ => _ end] =>
             let E := fresh "E" in
             destruct (Py.getitem x k) as [?|?] eqn:E;
             [|left; eexists; rewrite (getitem_not_request _ _ _ E);
               reflexivity]
         | |- context [match Py.add ?x ?y with _ => _ end] =>
             let E := fresh "E" in
             destruct (Py.add x y) as [?|?] eqn:E;
             [|left; eexists; rewrite (add_not_request _ _ _ E);
               reflexivity]
         end.
  right. eexists. unfold do_call, raise_for_status, raise, ret, trace_of.
  destruct (perform _ w) as [[r|e] w1].
  - destruct (_ && _); reflexivity.
  - destruct (is_RequestException e); reflexivity.
Qed.

Lemma assign_room_to_event_posts_once (event_id room_id event_data : json)
      (w wf : W) (b : bool) (t : list call) :
  Populate.assign_room_to_event base event_id room_id event_data w
  = (Ok b, wf, t) ->
  count_calls assigns t = 1.
Proof.
  intros H.
  destruct (assign_room_to_event_trace event_id room_id event_data w)
    as [(e & He) | (body & Hb)].
  - rewrite He in H. discriminate H.
  - rewrite H in Hb. unfold trace_of in Hb. cbn [snd] in Hb. subst t.
    unfold count_calls. cbn [List.filter is_post_to].
    rewrite String.eqb_refl. reflexivity.
Qed.

(** The loop over [created_rooms] of a Monkey Puzzle event. *)
Lemma assignment_loop (venue_name : string) (event_id event_data : json) :
  forall (created_rooms : list (json * json)) (w wf : W) (t : list call),
    for_each created_rooms
      (fun '(room_id, room_info) =>
         room_venue <- lift (Py.getitem room_info "venueName") ;;
         if Py.eq room_venue (JStr venue_name) then
           Populate.assign_room_to_event base event_id room_id event_data ;;
           room_name <- lift (Py.getitem room_info "roomName") ;;
           ret tt
         else ret tt) w
    = (Ok tt, wf, t) ->
    count_calls assigns t
    = Z.of_nat (List.length (recorded_under venue_name created_rooms)).
Proof.
  induction created_rooms as [|[room_id room_info] rest IH];
    intros w wf t H; cbn [for_each] in H.
  - apply ret_inv in H as (_ & _ & ->). reflexivity.
  - apply bind_inv_ok in H as ([] & w1 & t1 & t2 & Hbody & Hrest & ->).
    rewrite count_calls_app, (IH _ _ _ Hrest).
    apply bind_inv_ok in Hbody as (v & w2 & t3 & t4 & Hv & Hbody & ->).
    apply lift_inv_ok in Hv as (Hv & -> & ->).
    unfold recorded_under. cbn [flat_map]. rewrite Hv.
    fold (recorded_under venue_name rest).
    rewrite length_app.
    destruct (Py.eq v (JStr venue_name)).
    + apply bind_inv_ok in Hbody as (b & w3 & t5 & t6 & Ha & Hret & ->).
      apply bind_inv_ok in Hret as (room_name & w4 & t7 & t8 & Hn & Hret & ->).
      apply lift_inv_ok in Hn as (_ & -> & ->).
      apply ret_inv in Hret as (_ & _ & ->).
      rewrite app_nil_r. cbn [app].
      rewrite (assign_room_to_event_posts_once _ _ _ _ _ _ _ Ha).
      cbn [List.length]. lia.
    + apply ret_inv in Hbody as (_ & _ & ->). cbn. lia.
Qed.

Lemma create_event_posts_nothing_to_event_rooms (data : json) (w : W) :
  count_calls assigns (trace_of (Populate.create_event base data w)) = 0.
Proof.
  rewrite create_event_trace.
  unfold count_calls. cbn [List.filter is_post_to].
  destruct (String.eqb_spec (base ++ "/events") (base ++ "/event-rooms"))
    as [E|_]; [|reflexivity].
  apply append_cancel_l in E. discriminate E.
Qed.


End Assignments.


(** ** The probe of the seed script and the window of a room assignment *)

Section ProbeAndWindow.

Context {W : Type} {P : Platform W}.
Variable base : string.

Abbreviation root_request :=
  (SessionGet (Py.replace "/api" "" base ++ "/") (Some 5)).
Abbreviation venues_request := (SessionGet (base ++ "/venues") (Some 5)).

(** The probe of the seed script asks the venues endpoint only when the
    request to the root fails in transport.  An answer from the root
    decides alone: the server counts as up exactly when the status is
    200.  In the fallback a 401 counts as up as well, and a second
    transport failure as down. *)
Theorem check_server_falls_back_on_transport_failure_only (w : W) :
  (forall r w1,
      perform root_request w = (Ok r, w1) ->
      Populate.check_server base w
      = (Ok (status_code r =? 200), w1, [root_request]))
  /\ (forall w1 r w2,
        perform root_request w = (Raise RequestException, w1) ->
        perform venues_request w1 = (Ok r, w2) ->
        Populate.check_server base w
        = (Ok ((status_code r =? 200) || (status_code r =? 401)), w2,
           [root_request; venues_request]))
  /\ (forall w1 w2,
        perform root_request w = (Raise RequestException, w1) ->
        perform venues_request w1 = (Raise RequestException, w2) ->
        Populate.check_server base w
        = (Ok false, w2, [root_request; venues_request])).
Proof.
  unfold Populate.check_server, try_except, bind, do_call, ret.
  repeat split.
  - intros r w1 H. rewrite H. reflexivity.
  - intros w1 r w2 H1 H2. rewrite H1. cbn. rewrite H2. reflexivity.
  - intros w1 w2 H1 H2. rewrite H1. cbn. rewrite H2. reflexivity.
Qed.

(** The window of a room assignment is the span of the event: for an
    event whose four date and time fields are strings,
    [assign_room_to_event] sends the event id and the room id with
    [availableFrom = eventDate + "T" + startTime + ":00"] and
    [availableTo = endDate + "T" + endTime + ":00"], and answers whether
    the server accepted the request.  An event without an
    ["eventDate"] raises [KeyError], which the [except] clause does not
    catch, before anything is sent. *)
Theorem room_assignment_spans_the_event
        (event_id room_id : json) (event_data : dict) (w : W) :
  let run :=
    Populate.assign_room_to_event base event_id room_id (JDict event_data)
      w in
  (forall event_date start_time end_date end_time,
      Py.lookup "eventDate" event_data = Some (JStr event_date) ->
      Py.lookup "startTime" event_data = Some (JStr start_time) ->
      Py.lookup "endDate" event_data = Some (JStr end_date) ->
      Py.lookup "endTime" event_data = Some (JStr end_time) ->
      trace_of run
      = [SessionPost (base ++ "/event-rooms")
           (JDict [("eventId", event_id);
                   ("roomId", room_id);
                   ("availableFrom",
                    JStr (((event_date ++ "T") ++ start_time) ++ ":00"));
                   ("availableTo",
                    JStr (((end_date ++ "T") ++ end_time) ++ ":00"))])]
      /\ result_of run <> Raise RequestException)
  /\ (Py.lookup "eventDate" event_data = None ->
      run = (Raise KeyError, w, [])).
Proof.
  cbv zeta. split.
  - intros event_date start_time end_date end_time H1 H2 H3 H4.
    unfold Populate.assign_room_to_event, try_except, bind, lift.
    cbn [Py.getitem]. rewrite H1, H2, H3, H4. cbn [Py.add].
    unfold do_call, raise_for_status, raise, ret, trace_of, result_of.
    destruct (perform _ w) as [[r|e] w1].
    + destruct (_ && _); cbn; split; [reflexivity|discriminate|
                                      reflexivity|discriminate].
    + destruct e; cbn; split; try reflexivity; discriminate.
  - intros H. unfold Populate.assign_room_to_event, try_except, bind, lift.
    cbn [Py.getitem]. rewrite H. reflexivity.
Qed.

End ProbeAndWindow.

Lemma check_server_falls_back_on_transport_failure_only_witness :
  Populate.check_server (P := Offline) Populate.default_api_base_url tt
  = (Ok false, tt,
     [SessionGet "http://localhost:3001/" (Some 5);
      SessionGet "http://localhost:3001/api/venues" (Some 5)]).
Proof.
  apply (proj2 (proj2 (check_server_falls_back_on_transport_failure_only
                         (P := Offline) Populate.default_api_base_url tt))
           tt tt).
  - reflexivity.
  - reflexivity.
Defined.

Lemma room_assignment_spans_the_event_witness :
  trace_of
    (Populate.assign_room_to_event (P := Offline)
       Populate.default_api_base_url (JStr "e1") (JStr "r1")
       (JDict (hd [] (Populate.events_data dates_of_2025_01_15))) tt)
  = [SessionPost "http://localhost:3001/api/event-rooms"
       (JDict [("eventId", JStr "e1");
               ("roomId", JStr "r1");
               ("availableFrom", JStr "2024-09-15T14:00:00");
               ("availableTo", JStr "2024-09-15T20:00:00")])]
  /\ result_of
       (Populate.assign_room_to_event (P := Offline)
          Populate.default_api_base_url (JStr "e1") (JStr "r1")
          (JDict (hd [] (Populate.events_data dates_of_2025_01_15))) tt)
     <> Raise RequestException.
Proof.
  apply (proj1 (room_assignment_spans_the_event (P := Offline)
                  Populate.default_api_base_url (JStr "e1") (JStr "r1")
                  (hd [] (Populate.events_data dates_of_2025_01_15))
                  tt)
           "2024-09-15" "14:00" "2024-09-15" "20:00");
    reflexivity.
Defined.
